(** * AreaScan Profiler: the inference client and the command-line runner

    A shallow embedding of [clients/inference_client.py] and of [main] in
    [areascan_profiler.py].  Python values read from the configuration file
    are an inductive type, Python floats are binary64 primitive floats, and
    the methods of [InferenceClient] are programs of a small monad that
    threads the client object, the uuid generator and a trace of the effects
    performed (console output, file accesses, channel operations, remote
    calls), and in which an exception leaves the state as it was when raised. *)

From Stdlib Require Import ZArith List String Bool Lia Floats.
From Stdlib Require Import DecimalString DecimalNat.
From Stdlib Require Import Ascii Permutation.
Import ListNotations.
Local Open Scope string_scope.
Set Warnings "-register-all,-inexact-float".

(** ** Python values *)

(** What [json.load] produces. *)
Inductive value : Type :=
| VNone
| VBool (b : bool)
| VInt (z : Z)
| VFloat (f : float)
| VStr (s : string)
| VList (l : list value)
| VDict (items : list (string * value)).

(** Truth value testing, as in [if port:]. *)
Definition truthy (v : value) : bool :=
  match v with
  | VNone => false
  | VBool b => b
  | VInt z => negb (z =? 0)%Z
  | VFloat f => negb (f =? 0)%float
  | VStr s => negb (s =? "")
  | VList l => match l with [] => false | _ => true end
  | VDict items => match items with [] => false | _ => true end
  end.

(** Looking a key up in a dict, which holds one value per key. *)
Fixpoint lookup (key : string) (items : list (string * value)) : option value :=
  match items with
  | [] => None
  | (k, v) :: rest => if k =? key then Some v else lookup key rest
  end.

(** [grpc.StatusCode]. *)
Inductive StatusCode : Type :=
| OK | CANCELLED | UNKNOWN | INVALID_ARGUMENT | DEADLINE_EXCEEDED | NOT_FOUND
| ALREADY_EXISTS | PERMISSION_DENIED | UNAUTHENTICATED | RESOURCE_EXHAUSTED
| FAILED_PRECONDITION | ABORTED | OUT_OF_RANGE | UNIMPLEMENTED | INTERNAL
| UNAVAILABLE | DATA_LOSS.

Definition StatusCode_name (c : StatusCode) : string :=
  match c with
  | OK => "OK" | CANCELLED => "CANCELLED" | UNKNOWN => "UNKNOWN"
  | INVALID_ARGUMENT => "INVALID_ARGUMENT"
  | DEADLINE_EXCEEDED => "DEADLINE_EXCEEDED" | NOT_FOUND => "NOT_FOUND"
  | ALREADY_EXISTS => "ALREADY_EXISTS"
  | PERMISSION_DENIED => "PERMISSION_DENIED"
  | UNAUTHENTICATED => "UNAUTHENTICATED"
  | RESOURCE_EXHAUSTED => "RESOURCE_EXHAUSTED"
  | FAILED_PRECONDITION => "FAILED_PRECONDITION" | ABORTED => "ABORTED"
  | OUT_OF_RANGE => "OUT_OF_RANGE" | UNIMPLEMENTED => "UNIMPLEMENTED"
  | INTERNAL => "INTERNAL" | UNAVAILABLE => "UNAVAILABLE"
  | DATA_LOSS => "DATA_LOSS"
  end.

(** [str(e.code())] and [str(e.details())] as an f-string renders them. *)
Definition str_code (c : StatusCode) : string := "StatusCode." ++ StatusCode_name c.

Definition str_details (d : option string) : string :=
  match d with Some s => s | None => "None" end.

(** Exceptions: the subclasses of [Exception] the code meets.  [RpcError] is
    [grpc.RpcError] as a stub call raises it, with its [code()] and
    [details()]; [PlainException] is [Exception(msg)]; [OtherError] is any
    other subclass, by class name and message. *)
Inductive exn : Type :=
| RpcError (code : StatusCode) (details : option string)
| AttributeError (msg : string)
| PlainException (msg : string)
| OtherError (cls msg : string).

Definition is_RpcError (e : exn) : bool :=
  match e with RpcError _ _ => true | _ => false end.

Inductive result (A : Type) : Type :=
| Return (a : A)
| Raise (e : exn).
Arguments Return {A} a.
Arguments Raise {A} e.

(** ** Protocol messages *)

Record Point : Type := { pt_x : float; pt_y : float }.

(** A prediction of a response; [polygon_points] is empty for detections. *)
Record Prediction : Type := {
  prediction_class : string;
  confidence : float;
  center_x : float;
  center_y : float;
  width : float;
  height : float;
  polygon_points : list Point
}.

(** [DetectObjectsRequest] and [SegmentSheetsRequest] have the same fields. *)
Record InferenceRequest : Type := {
  id : string;
  image_bytes : list Byte.byte;
  image_height : Z;
  image_width : Z;
  channels : Z
}.

Inductive rpc_call : Type :=
| Check
| DetectObjects (request : InferenceRequest)
| SegmentSheets (request : InferenceRequest).

(** ** Effects *)

(** Console lines, one constructor per [print] of the sources. *)
Inductive Message : Type :=
| MsgConnected (address : string)
| MsgReadPort (port : value) (config_path : string)
| MsgConfigFailed (config_path : string) (e : exn)
| MsgDefaultPort
| MsgHealthFailed (code : StatusCode) (details : option string)
| MsgHealthError (e : exn)
| MsgClosed
| MsgCli (line : string)
| MsgInitFailed (e : exn)
| MsgHealthy (address : string)
| MsgProcessing (count : nat)
| MsgImage (idx total : nat) (path : string)
| MsgFound (count : nat)
| MsgImageError (e : exn)
| MsgImagesProcessed (count : nat).

Inductive Event : Type :=
| EvPrint (m : Message)
| EvExists (path : string)
| EvOpen (path : string)
| EvChannelCreate (target : string) (options : list (string * Z))
| EvRpc (call : rpc_call) (timeout : float)
| EvChannelClose.

(** A [grpc.Channel]. *)
Record Channel : Type := {
  target : string;
  options : list (string * Z);
  closed : bool
}.

Inductive Stub : Type := AreaScanInferenceStub (target : string).

(** The attributes of the [InferenceClient] instance; [None] is an attribute
    that was never assigned. *)
Record Client : Type := {
  self_port : option value;
  self_host : option string;
  self_address : option string;
  self_channel : option Channel;
  self_stub : option Stub
}.

Definition new_object : Client :=
  {| self_port := None; self_host := None; self_address := None;
     self_channel := None; self_stub := None |}.

(** The state a program runs in.  [trace] lists the effects performed, the
    most recent first. *)
Record State : Type := {
  self : Client;
  uuid_draws : nat;
  trace : list Event
}.

(** What the program does not control: the file system, the interpreter and
    the remote service.  [fs path] is [None] when the path does not exist and
    otherwise the outcome of opening it and of [json.load]; the service's
    answers may depend on the effects performed so far. *)
Record Env : Type := {
  fs : string -> option (result value);
  py_str : value -> string;
  uuid4 : nat -> string;
  insecure_channel_error : string -> option exn;
  SERVING : Z;
  svc_Check : list Event -> result Z;
  svc_DetectObjects : list Event -> InferenceRequest -> result (list Prediction);
  svc_SegmentSheets : list Event -> InferenceRequest -> result (list Prediction);
  glob : string -> string -> list string;
  load_image : string -> result (list Byte.byte)
}.

(** The interpreter and the libraries can also refuse what the program asks
    of them.  [print] raises when the console cannot take the line (a
    [UnicodeEncodeError] for a mark its encoding lacks), [Path.exists] raises
    when the path cannot be examined (a [PermissionError]), and the
    constructor of a request raises for a height and width the integer fields
    of the message do not hold; the declaration of the message is not among
    the sources, so what the fields hold is a parameter.  A [World] is an
    environment with these refusals: [None] where nothing is refused. *)
Record World : Type := {
  env_of :> Env;
  console_error : Message -> option exn;
  exists_error : string -> option exn;
  request_error : Z -> Z -> option exn
}.

(** An environment by itself stands for the world in which nothing is
    refused: a statement that runs a program in an [env : Env] speaks of the
    program in that world. *)
Definition reliable (env : Env) : World :=
  {| env_of := env;
     console_error := fun _ => None;
     exists_error := fun _ => None;
     request_error := fun _ _ => None |}.

#[warning="-ambiguous-paths"]
Coercion reliable : Env >-> World.

(** ** The monad *)

Definition M (A : Type) : Type := World -> State -> result A * State.

Definition ret {A} (a : A) : M A := fun _ s => (Return a, s).

Definition raise {A} (e : exn) : M A := fun _ s => (Raise e, s).

Definition bind {A B} (m : M A) (k : A -> M B) : M B :=
  fun env s =>
    match m env s with
    | (Return a, s') => k a env s'
    | (Raise e, s') => (Raise e, s')
    end.

Notation "x <- m ;; k" := (bind m (fun x => k))
  (at level 61, m at next level, right associativity).
Notation "m ;; k" := (bind m (fun _ => k))
  (at level 61, right associativity).

(** [try: body except <handles> as e: handler e]; an exception the clause
    does not name goes on. *)
Definition try_except {A} (body : M A) (handles : exn -> bool)
    (handler : exn -> M A) : M A :=
  fun env s =>
    match body env s with
    | (Return a, s') => (Return a, s')
    | (Raise e, s') => if handles e then handler e env s' else (Raise e, s')
    end.

(** The clause [except Exception]: every exception of [exn] is one. *)
Definition Exception (e : exn) : bool := true.

(** A computation without effects, which returns or raises. *)
Definition lift {A} (r : result A) : M A := fun _ s => (r, s).

Definition result_bind {A B} (r : result A) (k : A -> result B) : result B :=
  match r with
  | Return a => k a
  | Raise e => Raise e
  end.

Definition ask : M World := fun env s => (Return env, s).
Definition get : M State := fun _ s => (Return s, s).

Definition emit (ev : Event) : M unit :=
  fun _ s =>
    (Return tt,
     {| self := self s; uuid_draws := uuid_draws s; trace := ev :: trace s |}).

(** [print(...)]: the line is written, or the console raises. *)
Definition print (m : Message) : M unit :=
  fun world s =>
    match console_error world m with
    | Some e => (Raise e, s)
    | None => emit (EvPrint m) world s
    end.

Definition update_self (f : Client -> Client) : M unit :=
  fun _ s =>
    (Return tt,
     {| self := f (self s); uuid_draws := uuid_draws s; trace := trace s |}).

(** Reading an attribute of [self]. *)
Definition getattr {A} (name : string) (field : Client -> option A) : M A :=
  s <- get ;;
  match field (self s) with
  | Some a => ret a
  | None => raise (AttributeError name)
  end.

(** ** Port resolution *)

Definition config_paths : list string :=
  [ "C:\Ripcord\settings\workcell_base.json";
    "C:\Ripcord\settings\workcell.json" ].

Definition default_port : Z := 60021.

(** [config_path.exists()]. *)
Definition path_exists (path : string) : M bool :=
  emit (EvExists path) ;;
  env <- ask ;;
  match exists_error env path with
  | Some e => raise e
  | None => ret (match fs env path with Some _ => true | None => false end)
  end.

(** [with open(config_path, 'r') as f: config = json.load(f)]. *)
Definition json_load (path : string) : M value :=
  emit (EvOpen path) ;;
  env <- ask ;;
  match fs env path with
  | Some loaded => lift loaded
  | None => raise (OtherError "FileNotFoundError" path)
  end.

(** [d.get(key, default)]; only a dict has the method. *)
Definition dict_get (d : value) (key : string) (default : value)
    : result value :=
  match d with
  | VDict items =>
      Return (match lookup key items with Some v => v | None => default end)
  | _ => Raise (AttributeError "get")
  end.

(** The chain of [.get] calls on the loaded configuration. *)
Definition config_server_port (config : value) : result value :=
  result_bind (dict_get config "ApplicationGrpcSettings" (VDict [])) (fun a =>
  result_bind (dict_get a "GrpcServices" (VDict [])) (fun g =>
  result_bind (dict_get g "AreaScanInference" (VDict [])) (fun i =>
  dict_get i "ServerPort" VNone))).

(** One iteration of the loop over [config_paths]: [Some port] when the
    iteration returns from the function. *)
Definition try_config_path (config_path : string) : M (option value) :=
  found <- path_exists config_path ;;
  if found then
    try_except
      (config <- json_load config_path ;;
       port <- lift (config_server_port config) ;;
       if truthy port then
         print (MsgReadPort port config_path) ;;
         ret (Some port)
       else ret None)
      Exception
      (fun e => print (MsgConfigFailed config_path e) ;; ret None)
  else ret None.

Fixpoint scan_config_paths (paths : list string) : M (option value) :=
  match paths with
  | [] => ret None
  | config_path :: rest =>
      r <- try_config_path config_path ;;
      match r with
      | Some port => ret (Some port)
      | None => scan_config_paths rest
      end
  end.

(** The loop over the candidate paths, then the fallback. *)
Definition port_from_paths (paths : list string) : M value :=
  r <- scan_config_paths paths ;;
  match r with
  | Some port => ret port
  | None => print MsgDefaultPort ;; ret (VInt default_port)
  end.

Definition _get_port_from_config : M value := port_from_paths config_paths.

(** ** The client *)

(** The options [__init__] passes to [grpc.insecure_channel]. *)
Definition channel_options : list (string * Z) :=
  [ ("grpc.max_receive_message_length", 52428800%Z);
    ("grpc.max_send_message_length", 52428800%Z);
    ("grpc.keepalive_time_ms", 10000%Z);
    ("grpc.keepalive_timeout_ms", 5000%Z) ].

(** [grpc.insecure_channel(target, options=...)]. *)
Definition insecure_channel (address : string) (opts : list (string * Z))
    : M Channel :=
  emit (EvChannelCreate address opts) ;;
  env <- ask ;;
  match insecure_channel_error env address with
  | Some e => raise e
  | None => ret {| target := address; options := opts; closed := false |}
  end.

Definition __init__ (port : value) (host : string) : M unit :=
  port <- match port with
          | VNone => _get_port_from_config
          | _ => ret port
          end ;;
  update_self (fun c =>
    {| self_port := Some port; self_host := self_host c;
       self_address := self_address c; self_channel := self_channel c;
       self_stub := self_stub c |}) ;;
  update_self (fun c =>
    {| self_port := self_port c; self_host := Some host;
       self_address := self_address c; self_channel := self_channel c;
       self_stub := self_stub c |}) ;;
  env <- ask ;;
  let address := host ++ ":" ++ py_str env port in
  update_self (fun c =>
    {| self_port := self_port c; self_host := self_host c;
       self_address := Some address; self_channel := self_channel c;
       self_stub := self_stub c |}) ;;
  address <- getattr "address" self_address ;;
  channel <- insecure_channel address channel_options ;;
  update_self (fun c =>
    {| self_port := self_port c; self_host := self_host c;
       self_address := self_address c; self_channel := Some channel;
       self_stub := self_stub c |}) ;;
  channel <- getattr "channel" self_channel ;;
  update_self (fun c =>
    {| self_port := self_port c; self_host := self_host c;
       self_address := self_address c; self_channel := self_channel c;
       self_stub := Some (AreaScanInferenceStub (target channel)) |}) ;;
  address <- getattr "address" self_address ;;
  print (MsgConnected address).

(** [InferenceClient(port=port, host=host)]: a new object, then [__init__]. *)
Definition InferenceClient (port : value) (host : string) : M unit :=
  update_self (fun _ => new_object) ;;
  __init__ port host.

(** A call through the stub: the call is recorded, and the service answers
    from what happened before it. *)
Definition invoke {A} (call : rpc_call) (timeout : float)
    (answer : Env -> list Event -> result A) : M A :=
  _ <- getattr "stub" self_stub ;;
  env <- ask ;;
  s <- get ;;
  emit (EvRpc call timeout) ;;
  lift (answer env (trace s)).

Definition check_health : M bool :=
  try_except
    (response <- invoke Check 5%float svc_Check ;;
     env <- ask ;;
     ret (response =? SERVING env)%Z)
    Exception
    (fun e =>
       match e with
       | RpcError code details =>
           print (MsgHealthFailed code details) ;; ret false
       | _ => print (MsgHealthError e) ;; ret false
       end).

(** The dict built for a prediction; [pd_polygon_points] is [None] when the
    dict has no ['polygon_points'] key. *)
Record PredictionDict : Type := {
  pd_class : string;
  pd_confidence : float;
  pd_center_x : float;
  pd_center_y : float;
  pd_width : float;
  pd_height : float;
  pd_polygon_points : option (list (float * float))
}.

(** The dict a call returns. *)
Record InferenceResult : Type := {
  prediction_count : nat;
  predictions : list PredictionDict
}.

Definition detection_dict (pred : Prediction) : PredictionDict :=
  {| pd_class := prediction_class pred;
     pd_confidence := confidence pred;
     pd_center_x := center_x pred;
     pd_center_y := center_y pred;
     pd_width := width pred;
     pd_height := height pred;
     pd_polygon_points := None |}.

Definition segmentation_dict (pred : Prediction) : PredictionDict :=
  {| pd_class := prediction_class pred;
     pd_confidence := confidence pred;
     pd_center_x := center_x pred;
     pd_center_y := center_y pred;
     pd_width := width pred;
     pd_height := height pred;
     pd_polygon_points :=
       Some (map (fun pt => (pt_x pt, pt_y pt)) (polygon_points pred)) |}.

(** [pred.confidence >= confidence_threshold]. *)
Definition passes (confidence_threshold : float) (pred : Prediction) : bool :=
  (confidence_threshold <=? confidence pred)%float.

(** [str(uuid.uuid4())]. *)
Definition uuid4_str : M string :=
  fun env s =>
    (Return (uuid4 env (uuid_draws s)),
     {| self := self s; uuid_draws := S (uuid_draws s); trace := trace s |}).

Definition rpc_timeout : float := 30%float.

(** [DetectObjectsRequest(id=..., image_bytes=..., image_height=...,
    image_width=..., channels=3)] and its sibling: the message, unless the
    constructor raises. *)
Definition new_request (rid : string) (image : list Byte.byte) (h w : Z)
    : M InferenceRequest :=
  fun world s =>
    match request_error world h w with
    | Some e => (Raise e, s)
    | None =>
        (Return {| id := rid; image_bytes := image; image_height := h;
                   image_width := w; channels := 3 |}, s)
    end.

Definition detect_objects (image : list Byte.byte) (w h : Z)
    (confidence_threshold : float) : M InferenceResult :=
  try_except
    (rid <- uuid4_str ;;
     request <- new_request rid image h w ;;
     response <- invoke (DetectObjects request) rpc_timeout
                   (fun env history => svc_DetectObjects env history request) ;;
     let predictions :=
       map detection_dict (filter (passes confidence_threshold) response) in
     ret {| prediction_count := List.length predictions;
            predictions := predictions |})
    is_RpcError
    (fun e =>
       match e with
       | RpcError code details =>
           raise (PlainException
                    ("Object detection failed: " ++ str_code code ++ " - "
                       ++ str_details details))
       | _ => raise e
       end).

Definition segment_sheets (image : list Byte.byte) (w h : Z)
    (confidence_threshold : float) : M InferenceResult :=
  try_except
    (rid <- uuid4_str ;;
     request <- new_request rid image h w ;;
     response <- invoke (SegmentSheets request) rpc_timeout
                   (fun env history => svc_SegmentSheets env history request) ;;
     let predictions :=
       map segmentation_dict (filter (passes confidence_threshold) response) in
     ret {| prediction_count := List.length predictions;
            predictions := predictions |})
    is_RpcError
    (fun e =>
       match e with
       | RpcError code details =>
           raise (PlainException
                    ("Sheet segmentation failed: " ++ str_code code ++ " - "
                       ++ str_details details))
       | _ => raise e
       end).

(** A [grpc.Channel] object defines neither [__bool__] nor [__len__]: it is
    true in a condition. *)
Definition channel_truthy (ch : Channel) : bool := true.

(** [self.channel.close()]. *)
Definition channel_close : M unit :=
  ch <- getattr "channel" self_channel ;;
  emit EvChannelClose ;;
  update_self (fun c =>
    {| self_port := self_port c; self_host := self_host c;
       self_address := self_address c;
       self_channel :=
         Some {| target := target ch; options := options ch; closed := true |};
       self_stub := self_stub c |}).

Definition close : M unit :=
  ch <- getattr "channel" self_channel ;;
  if channel_truthy ch then
    channel_close ;;
    print MsgClosed
  else ret tt.

(** ** The command-line runner *)

Inductive Model : Type := detection | segmentation | both.

(** [model in ['detection', 'both']] and [model in ['segmentation', 'both']]. *)
Definition runs_detection (model : Model) : bool :=
  match model with detection | both => true | segmentation => false end.

Definition runs_segmentation (model : Model) : bool :=
  match model with segmentation | both => true | detection => false end.

Definition target_size : Z * Z := (2560, 2048)%Z.

(** Opening, resizing and serialising the image: the imaging library gives
    the bytes or raises. *)
Definition load_bytes (img_path : string) : M (list Byte.byte) :=
  env <- ask ;;
  lift (load_image env img_path).

(** The body of the loop over the images.  Of its console output the lines
    that only format sizes, latencies and the first five predictions are
    left out. *)
Definition process_image (model : Model) (confidence_threshold : float)
    (idx total : nat) (img_path : string) : M unit :=
  print (MsgImage idx total img_path) ;;
  try_except
    (print (MsgCli "Loading image...") ;;
     image <- load_bytes img_path ;;
     (if runs_detection model then
        print (MsgCli "[Object Detection Model]") ;;
        result <- detect_objects image (fst target_size) (snd target_size)
                    confidence_threshold ;;
        print (MsgFound (prediction_count result))
      else ret tt) ;;
     (if runs_segmentation model then
        print (MsgCli "[Sheet Segmentation Model]") ;;
        result <- segment_sheets image (fst target_size) (snd target_size)
                    confidence_threshold ;;
        print (MsgFound (prediction_count result))
      else ret tt))
    Exception
    (fun e => print (MsgImageError e)).

(** [for idx, img_path in enumerate(image_paths, 1)]. *)
Fixpoint process_images (model : Model) (confidence_threshold : float)
    (idx total : nat) (image_paths : list string) : M unit :=
  match image_paths with
  | [] => ret tt
  | img_path :: rest =>
      process_image model confidence_threshold idx total img_path ;;
      process_images model confidence_threshold (S idx) total rest
  end.

(** The four globs over the folder, in the order of the source. *)
Definition glob_images (env : Env) (dir : string) : list string :=
  (glob env dir "*.jpg" ++ glob env dir "*.png"
     ++ glob env dir "*.jpeg" ++ glob env dir "*.bmp")%list.

(** The [elif folder: ... else: ...] branches; an option of the command line
    is [None] or a string, and the empty string is false in a condition. *)
Definition folder_image_paths (env : Env) (folder : option string)
    : option (list string) :=
  match folder with
  | Some dir => if negb (dir =? "") then Some (glob_images env dir) else None
  | None => None
  end.

(** The image paths of the run; [None] when the run stops for want of
    [--image] and [--folder]. *)
Definition collect_image_paths (env : Env) (image folder : option string)
    : option (list string) :=
  match image with
  | Some img =>
      if negb (img =? "") then Some [img] else folder_image_paths env folder
  | None => folder_image_paths env folder
  end.

(** The function [main] (lines 28 to 170), which [@click.command()] wraps
    below.  Of the console output the lines that only format numbers are
    left out. *)
Definition main (image folder : option string) (model : Model) (port : value)
    (confidence_threshold : float) (host : string) : M Z :=
  constructed <- try_except
                   (InferenceClient port host ;; ret true)
                   Exception
                   (fun e => print (MsgInitFailed e) ;; ret false) ;;
  if negb constructed then ret 1%Z
  else
    print (MsgCli "Checking service health...") ;;
    healthy <- check_health ;;
    if negb healthy then
      print (MsgCli "✗ AreaScanInference service is not available") ;;
      print (MsgCli "  Make sure the service is running and accessible") ;;
      ret 1%Z
    else
      address <- getattr "address" self_address ;;
      print (MsgHealthy address) ;;
      env <- ask ;;
      match collect_image_paths env image folder with
      | None =>
          print (MsgCli "✗ Please provide --image or --folder") ;;
          ret 1%Z
      | Some [] =>
          print (MsgCli "✗ No images found") ;;
          ret 1%Z
      | Some image_paths =>
          print (MsgProcessing (List.length image_paths)) ;;
          process_images model confidence_threshold 1
            (List.length image_paths) image_paths ;;
          print (MsgCli "  PROFILING SUMMARY") ;;
          print (MsgImagesProcessed (List.length image_paths)) ;;
          close ;;
          print (MsgCli "✓ Profiling complete") ;;
          ret 0%Z
      end.

(** How the process ends: with [sys.exit(status)], or with an exception
    that nothing caught, for which the interpreter prints the traceback and
    exits with status 1. *)
Inductive Ending : Type :=
| SystemExit (status : Z)
| Traceback (e : exn).

Definition exit_status (e : Ending) : Z :=
  match e with
  | SystemExit status => status
  | Traceback _ => 1%Z
  end.

(** [@click.command()] (line 20), for options that parse: [main] becomes a
    command, and calling a command runs the function in click's standalone
    mode, which drops the value the function returns and ends with
    [sys.exit(0)]; an exception of the function is not click's to handle
    and goes through.  click is a library, not among the sources: this is
    its documented behaviour. *)
Definition click_command {A} (callback : M A)
    : World -> State -> Ending * State :=
  fun world s =>
    match callback world s with
    | (Return _, s') => (SystemExit 0, s')
    | (Raise e, s') => (Traceback e, s')
    end.

Definition banner_rule : string :=
  "======================================================================".

(** The script run as a program: the banner of lines 14 to 17, then
    [exit(main())] (line 174), where [main] is the command; the call never
    returns, so [exit] is given no value. *)
Definition script (image folder : option string) (model : Model) (port : value)
    (confidence_threshold : float) (host : string)
    : World -> State -> Ending * State :=
  fun world s =>
    match (print (MsgCli banner_rule) ;;
           print (MsgCli "  AREASCAN PROFILER - COMMAND LINE INTERFACE") ;;
           print (MsgCli banner_rule) ;;
           print (MsgCli "Connecting to installed AreaScanInference service..."))
            world s with
    | (Return _, s1) =>
        click_command (main image folder model port confidence_threshold host)
          world s1
    | (Raise e, s1) => (Traceback e, s1)
    end.

(** ** The two inference operations, side by side *)

Inductive operation : Type := Detection | Segmentation.

Definition inference (op : operation) : list Byte.byte -> Z -> Z -> float ->
    M InferenceResult :=
  match op with
  | Detection => detect_objects
  | Segmentation => segment_sheets
  end.

Definition service (op : operation) : Env -> list Event -> InferenceRequest ->
    result (list Prediction) :=
  match op with
  | Detection => svc_DetectObjects
  | Segmentation => svc_SegmentSheets
  end.

Definition remote_call (op : operation) : InferenceRequest -> rpc_call :=
  match op with
  | Detection => DetectObjects
  | Segmentation => SegmentSheets
  end.

Definition prediction_dict (op : operation) : Prediction -> PredictionDict :=
  match op with
  | Detection => detection_dict
  | Segmentation => segmentation_dict
  end.

Definition failure_prefix (op : operation) : string :=
  match op with
  | Detection => "Object detection failed: "
  | Segmentation => "Sheet segmentation failed: "
  end.

(** The request a call builds in state [s]. *)
Definition request_in (env : Env) (s : State) (image : list Byte.byte)
    (w h : Z) : InferenceRequest :=
  {| id := uuid4 env (uuid_draws s); image_bytes := image;
     image_height := h; image_width := w; channels := 3 |}.

(** The client of [s] went through [__init__]: its channel and its stub are
    assigned. *)
Definition connected (s : State) : Prop :=
  self_channel (self s) <> None /\ self_stub (self s) <> None.

Definition initial_state : State :=
  {| self := new_object; uuid_draws := 0; trace := [] |}.

(** ** Port resolution: the states of a configuration file *)

Definition server_port_keys : list string :=
  [ "ApplicationGrpcSettings"; "GrpcServices"; "AreaScanInference"; "ServerPort" ].

(** The value found by following [keys] through nested objects. *)
Fixpoint nested (keys : list string) (config : value) : option value :=
  match keys with
  | [] => Some config
  | key :: rest =>
      match config with
      | VDict items =>
          match lookup key items with
          | Some v => nested rest v
          | None => None
          end
      | _ => None
      end
  end.

(** The four states of a candidate file.  [KeyMissing config] is a file that
    loads as [config], in which following the four keys finds no value;
    [IntegerValue config n] is a file whose [ServerPort] is the integer [n],
    other than zero. *)
Inductive file_state : Type :=
| FileMissing
| Malformed (e : exn)
| KeyMissing (config : value)
| IntegerValue (config : value) (n : Z).

Definition in_state (env : Env) (path : string) (st : file_state) : Prop :=
  match st with
  | FileMissing => fs env path = None
  | Malformed e => fs env path = Some (Raise e)
  | KeyMissing config =>
      fs env path = Some (Return config)
      /\ nested server_port_keys config = None
  | IntegerValue config n =>
      fs env path = Some (Return config)
      /\ nested server_port_keys config = Some (VInt n) /\ n <> 0%Z
  end.

Definition configured (st : file_state) : option Z :=
  match st with
  | IntegerValue _ n => Some n
  | _ => None
  end.

Definition add_events (evs : list Event) (s : State) : State :=
  {| self := self s; uuid_draws := uuid_draws s; trace := evs ++ trace s |}.

Definition is_file_access (ev : Event) : bool :=
  match ev with
  | EvExists _ | EvOpen _ => true
  | _ => false
  end.

(** ** Construction, health check and teardown, step by step *)

(** What [__init__] does once the port is known. *)
Definition connect_outcome (env : Env) (port : value) (host : string)
    (s : State) : result unit * State :=
  let address := host ++ ":" ++ py_str env port in
  match insecure_channel_error env address with
  | Some e =>
      (Raise e,
       {| self :=
            {| self_port := Some port; self_host := Some host;
               self_address := Some address;
               self_channel := self_channel (self s);
               self_stub := self_stub (self s) |};
          uuid_draws := uuid_draws s;
          trace := EvChannelCreate address channel_options :: trace s |})
  | None =>
      (Return tt,
       {| self :=
            {| self_port := Some port; self_host := Some host;
               self_address := Some address;
               self_channel :=
                 Some {| target := address; options := channel_options;
                         closed := false |};
               self_stub := Some (AreaScanInferenceStub address) |};
          uuid_draws := uuid_draws s;
          trace := EvPrint (MsgConnected address)
                     :: EvChannelCreate address channel_options :: trace s |})
  end.

(** ** A caller of the client *)

(** The methods a caller invokes on the client, one after another; the
    caller catches the exception of a call and goes on with the next. *)
Inductive method_call : Type :=
| CheckHealth
| Infer (op : operation) (image : list Byte.byte) (w h : Z) (t : float)
| Close.

Definition call_method (c : method_call) : M unit :=
  try_except
    match c with
    | CheckHealth => check_health ;; ret tt
    | Infer op image w h t => inference op image w h t ;; ret tt
    | Close => close
    end
    Exception
    (fun _ => ret tt).

Fixpoint call_methods (calls : list method_call) : M unit :=
  match calls with
  | [] => ret tt
  | c :: rest => call_method c ;; call_methods rest
  end.

(** The request ids sent so far. *)
Definition request_id_of (ev : Event) : list string :=
  match ev with
  | EvRpc (DetectObjects request) _ => [id request]
  | EvRpc (SegmentSheets request) _ => [id request]
  | _ => []
  end.

Definition request_ids (events : list Event) : list string :=
  flat_map request_id_of events.

Definition is_channel_create (ev : Event) : bool :=
  match ev with
  | EvChannelCreate _ _ => true
  | _ => false
  end.

(** Every id sent so far was drawn from the generator, and none twice. *)
Definition ids_fresh (env : Env) (s : State) : Prop :=
  NoDup (request_ids (trace s))
  /\ forall x, In x (request_ids (trace s)) ->
       exists i, i < uuid_draws s /\ x = uuid4 env i.

(** The channel of [s'] is the channel of [s], open or closed. *)
Definition same_channel (s s' : State) : Prop :=
  self_stub (self s') = self_stub (self s)
  /\ match self_channel (self s), self_channel (self s') with
     | Some ch, Some ch' => target ch' = target ch /\ options ch' = options ch
     | None, None => True
     | _, _ => False
     end.

(** The images announced in the console output. *)
Definition image_of (ev : Event) : list string :=
  match ev with
  | EvPrint (MsgImage _ _ path) => [path]
  | _ => []
  end.

Definition images_in (events : list Event) : list string :=
  flat_map image_of events.

(** Events that create no channel, send no request and announce no image. *)
Definition quiet (evs : list Event) : Prop :=
  Forall (fun ev => is_channel_create ev = false) evs
  /\ request_ids evs = [] /\ images_in evs = [].

(** ** The loop of the command-line runner *)

(** [s'] is [s] after effects that keep the client object and announce no
    image. *)
Definition proceeds (s s' : State) : Prop :=
  self s' = self s
  /\ exists evs, trace s' = (evs ++ trace s)%list /\ images_in evs = [].

(** A program that keeps the client object and announces no image; [sure]
    when it also raises nothing. *)
Definition steady {A} (m : M A) : Prop :=
  forall (env : Env) s, exists r s', m env s = (r, s') /\ proceeds s s'.

Definition sure {A} (m : M A) : Prop :=
  forall (env : Env) s, exists a s', m env s = (Return a, s') /\ proceeds s s'.

(** The state in which [main] checks the health of the service. *)
Definition health_state (s1 : State) : State :=
  add_events [EvPrint (MsgCli "Checking service health...")] s1.

(** [main], after construction and a good health check. *)
Definition run_batch (image folder : option string) (model : Model)
    (confidence_threshold : float) (address : string) : M Z :=
  print (MsgHealthy address) ;;
  env <- ask ;;
  match collect_image_paths env image folder with
  | None =>
      print (MsgCli "✗ Please provide --image or --folder") ;;
      ret 1%Z
  | Some [] =>
      print (MsgCli "✗ No images found") ;;
      ret 1%Z
  | Some image_paths =>
      print (MsgProcessing (List.length image_paths)) ;;
      process_images model confidence_threshold 1
        (List.length image_paths) image_paths ;;
      print (MsgCli "  PROFILING SUMMARY") ;;
      print (MsgImagesProcessed (List.length image_paths)) ;;
      close ;;
      print (MsgCli "✓ Profiling complete") ;;
      ret 0%Z
  end.

(** ** Sample environments *)

Definition sample_prediction (c : float) : Prediction :=
  {| prediction_class := "sheet"; confidence := c;
     center_x := 100%float; center_y := 200%float;
     width := 50%float; height := 40%float;
     polygon_points := [ {| pt_x := 1%float; pt_y := 2%float |} ] |}.

Definition sample_response : list Prediction :=
  [ sample_prediction 0.95%float; sample_prediction 0.4%float;
    sample_prediction 0.91%float ].

Definition sample_str (v : value) : string :=
  match v with
  | VInt z => NilZero.string_of_int (Z.to_int z)
  | VStr s => s
  | _ => "?"
  end.

Definition decimal_uuid4 (n : nat) : string :=
  NilEmpty.string_of_uint (Nat.to_uint n).

(** A service that is up and answers every inference call with
    [sample_response]; no configuration file exists. *)
Definition sample_env : Env :=
  {| fs := fun _ => None;
     py_str := sample_str;
     uuid4 := decimal_uuid4;
     insecure_channel_error := fun _ => None;
     SERVING := 1;
     svc_Check := fun _ => Return 1%Z;
     svc_DetectObjects := fun _ _ => Return sample_response;
     svc_SegmentSheets := fun _ _ => Return sample_response;
     glob := fun _ _ => [];
     load_image := fun _ => Return [] |}.

(** A service that is down: every call fails with an RPC error. *)
Definition down_env : Env :=
  {| fs := fun _ => None;
     py_str := sample_str;
     uuid4 := decimal_uuid4;
     insecure_channel_error := fun _ => None;
     SERVING := 1;
     svc_Check := fun _ => Raise (RpcError UNAVAILABLE (Some "failed to connect"));
     svc_DetectObjects :=
       fun _ _ => Raise (RpcError UNAVAILABLE (Some "failed to connect"));
     svc_SegmentSheets :=
       fun _ _ => Raise (RpcError DEADLINE_EXCEEDED (Some "Deadline Exceeded"));
     glob := fun _ _ => [];
     load_image := fun _ => Return [] |}.

(** The state after [InferenceClient(port=60021)] in [sample_env]. *)
Definition sample_state : State :=
  snd (InferenceClient (VInt 60021) "localhost" sample_env initial_state).

(** A configuration document with the given [ServerPort]. *)
Definition config_with (server_port : value) : value :=
  VDict [ ("ApplicationGrpcSettings",
           VDict [ ("GrpcServices",
                    VDict [ ("AreaScanInference",
                             VDict [ ("ServerPort", server_port) ]) ]) ]) ].

(** [sample_env] with the two candidate files as given. *)
Definition files_env (base workcell : option (result value)) : Env :=
  {| fs := fun path =>
             if path =? "C:\Ripcord\settings\workcell_base.json" then base
             else if path =? "C:\Ripcord\settings\workcell.json" then workcell
             else None;
     py_str := sample_str;
     uuid4 := decimal_uuid4;
     insecure_channel_error := fun _ => None;
     SERVING := 1;
     svc_Check := fun _ => Return 1%Z;
     svc_DetectObjects := fun _ _ => Return sample_response;
     svc_SegmentSheets := fun _ _ => Return sample_response;
     glob := fun _ _ => [];
     load_image := fun _ => Return [] |}.

Definition malformed_json : exn :=
  OtherError "JSONDecodeError" "Expecting value: line 1 column 1 (char 0)".

(** An environment in which no channel can be created. *)
Definition refusing_env : Env :=
  {| fs := fun _ => None;
     py_str := sample_str;
     uuid4 := decimal_uuid4;
     insecure_channel_error :=
       fun _ => Some (OtherError "ValueError" "invalid target");
     SERVING := 1;
     svc_Check := fun _ => Return 1%Z;
     svc_DetectObjects := fun _ _ => Return sample_response;
     svc_SegmentSheets := fun _ _ => Return sample_response;
     glob := fun _ _ => [];
     load_image := fun _ => Return [] |}.

(** A folder with two images, the first of which cannot be loaded; the
    segmentation call times out. *)
Definition batch_env : Env :=
  {| fs := fun _ => None;
     py_str := sample_str;
     uuid4 := decimal_uuid4;
     insecure_channel_error := fun _ => None;
     SERVING := 1;
     svc_Check := fun _ => Return 1%Z;
     svc_DetectObjects := fun _ _ => Return sample_response;
     svc_SegmentSheets :=
       fun _ _ => Raise (RpcError DEADLINE_EXCEEDED (Some "Deadline Exceeded"));
     glob := fun dir pattern =>
               if pattern =? "*.jpg" then [dir ++ "/a.jpg"]
               else if pattern =? "*.png" then [dir ++ "/b.png"]
               else [];
     load_image := fun path =>
                     if path =? "scans/a.jpg"
                     then Raise (OtherError "UnidentifiedImageError" path)
                     else Return [] |}.

(** ** Sample worlds *)

(** A line with a character outside ASCII, and the console lines that hold
    one of the marks [✓], [✗] and [⚠]; a line of [MsgCli] is given as it is
    printed. *)
Definition non_ascii (line : string) : bool :=
  existsb (fun c => (128 <=? nat_of_ascii c)%nat) (list_ascii_of_string line).

Definition has_mark (m : Message) : bool :=
  match m with
  | MsgConnected _ | MsgReadPort _ _ | MsgConfigFailed _ _ | MsgDefaultPort
  | MsgHealthFailed _ _ | MsgHealthError _ | MsgClosed | MsgInitFailed _
  | MsgHealthy _ | MsgFound _ | MsgImageError _ => true
  | MsgCli line => non_ascii line
  | MsgProcessing _ | MsgImage _ _ _ | MsgImagesProcessed _ => false
  end.

Definition charmap_error : exn :=
  OtherError "UnicodeEncodeError" "'charmap' codec can't encode character".

(** [env] behind a console whose encoding lacks the marks, such as cp1252,
    the encoding of redirected output on Windows. *)
Definition legacy_console (env : Env) : World :=
  {| env_of := env;
     console_error := fun m => if has_mark m then Some charmap_error else None;
     exists_error := fun _ => None;
     request_error := fun _ _ => None |}.

(** [env] with a settings folder that may not be examined. *)
Definition locked_settings (env : Env) : World :=
  {| env_of := env;
     console_error := fun _ => None;
     exists_error := fun path => Some (OtherError "PermissionError" path);
     request_error := fun _ _ => None |}.

(** A value no integer field of a protocol message holds: one below
    [-2^63] or above [2^64 - 1]. *)
Definition beyond_64_bits (z : Z) : bool :=
  ((z <? - 2 ^ 63) || (2 ^ 64 - 1 <? z))%Z.

Definition out_of_range : exn := OtherError "ValueError" "Value out of range".

(** [env] with requests whose height and width are integer fields. *)
Definition integer_fields (env : Env) : World :=
  {| env_of := env;
     console_error := fun _ => None;
     exists_error := fun _ => None;
     request_error := fun h w =>
       if beyond_64_bits h || beyond_64_bits w then Some out_of_range
       else None |}.

(** ** Reasoning about programs *)

(** Unfolding the monad in a world that stays a variable. *)
Ltac unfold_world :=
  cbv [bind ret raise lift try_except emit print ask get getattr update_self
       Exception new_request].

Ltac unfold_monad :=
  cbv [bind ret raise lift try_except emit print ask get getattr update_self
       Exception new_request reliable env_of console_error exists_error
       request_error];
  repeat match goal with
         | |- context [Build_World ?env (fun _ => None) (fun _ => None)
                         (fun _ _ => None)] =>
             change (Build_World env (fun _ => None) (fun _ => None)
                       (fun _ _ => None)) with (reliable env)
         end.

Lemma SFcompare_antisym (x y : spec_float) :
  SFcompare y x = option_map CompOpp (SFcompare x y).
Proof.
  destruct x as [sx|sx| |sx mx ex], y as [sy|sy| |sy my ey]; simpl;
    try reflexivity;
    try (destruct sx; reflexivity); try (destruct sy; reflexivity);
    try (destruct sx, sy; reflexivity).
  destruct sx, sy; simpl; try reflexivity; f_equal;
    rewrite (Z.compare_antisym ex ey); destruct (ex ?= ey)%Z; simpl;
      try reflexivity.
  - f_equal. symmetry. exact (Pos.compare_cont_antisym mx my Eq).
  - symmetry. exact (Pos.compare_cont_antisym mx my Eq).
Qed.

(** [t <= c] excludes [c < t], also when a NaN is involved. *)
Lemma leb_not_ltb (t c : float) :
  (t <=? c)%float = true -> (c <? t)%float = false.
Proof.
  rewrite leb_spec, ltb_spec. unfold SFleb, SFltb.
  rewrite (SFcompare_antisym (Prim2SF t) (Prim2SF c)).
  destruct (SFcompare (Prim2SF t) (Prim2SF c)) as [[ | | ]|]; simpl; congruence.
Qed.


(** What a call does when the service answers, and when it raises. *)
Lemma inference_answer op (env : Env) s image w h t P :
  self_stub (self s) <> None ->
  service op env (trace s) (request_in env s image w h) = Return P ->
  inference op image w h t env s =
    (Return {| prediction_count :=
                 List.length (map (prediction_dict op) (filter (passes t) P));
               predictions := map (prediction_dict op) (filter (passes t) P) |},
     {| self := self s; uuid_draws := S (uuid_draws s);
        trace := EvRpc (remote_call op (request_in env s image w h)) 30%float
                   :: trace s |}).
Proof.
  intros Hstub Hsvc.
  destruct op; simpl in *; unfold detect_objects, segment_sheets, invoke,
    uuid4_str, request_in, rpc_timeout in *; unfold_monad; simpl;
    destruct (self_stub (self s)); try congruence; simpl;
    rewrite Hsvc; reflexivity.
Qed.

Lemma inference_raise op (env : Env) s image w h t e :
  self_stub (self s) <> None ->
  service op env (trace s) (request_in env s image w h) = Raise e ->
  inference op image w h t env s =
    (Raise match e with
           | RpcError code details =>
               PlainException (failure_prefix op ++ str_code code ++ " - "
                                 ++ str_details details)
           | _ => e
           end,
     {| self := self s; uuid_draws := S (uuid_draws s);
        trace := EvRpc (remote_call op (request_in env s image w h)) 30%float
                   :: trace s |}).
Proof.
  intros Hstub Hsvc.
  destruct op; simpl in *; unfold detect_objects, segment_sheets, invoke,
    uuid4_str, request_in, rpc_timeout in *; unfold_monad; simpl;
    destruct (self_stub (self s)); try congruence; simpl;
    rewrite Hsvc; destruct e; reflexivity.
Qed.

Lemma inference_no_stub op (env : Env) s image w h t :
  self_stub (self s) = None ->
  inference op image w h t env s =
    (Raise (AttributeError "stub"),
     {| self := self s; uuid_draws := S (uuid_draws s); trace := trace s |}).
Proof.
  intros Hstub.
  destruct op; simpl; unfold detect_objects, segment_sheets, invoke,
    uuid4_str; unfold_monad; simpl; rewrite Hstub; reflexivity.
Qed.

Lemma nested_server_port config v :
  nested server_port_keys config = Some v ->
  config_server_port config = Return v.
Proof.
  unfold server_port_keys, config_server_port, result_bind, dict_get. simpl.
  destruct config as [ | | | | | |d0]; try discriminate.
  destruct (lookup "ApplicationGrpcSettings" d0) as [[ | | | | | |d1]|];
    try discriminate.
  destruct (lookup "GrpcServices" d1) as [[ | | | | | |d2]|]; try discriminate.
  destruct (lookup "AreaScanInference" d2) as [[ | | | | | |d3]|];
    try discriminate.
  destruct (lookup "ServerPort" d3); congruence.
Qed.

Lemma nested_none_server_port config :
  nested server_port_keys config = None ->
  config_server_port config = Return VNone
  \/ exists e, config_server_port config = Raise e.
Proof.
  unfold server_port_keys, config_server_port, result_bind, dict_get. simpl.
  destruct config as [ | | | | | |d0]; eauto.
  destruct (lookup "ApplicationGrpcSettings" d0) as [[ | | | | | |d1]|]; eauto.
  destruct (lookup "GrpcServices" d1) as [[ | | | | | |d2]|]; eauto.
  destruct (lookup "AreaScanInference" d2) as [[ | | | | | |d3]|]; eauto.
  destruct (lookup "ServerPort" d3); [discriminate|eauto].
Qed.

(** What one iteration of the loop yields, by the file behind the path. *)
Lemma try_config_path_missing (env : Env) s path :
  fs env path = None ->
  try_config_path path env s = (Return None, add_events [EvExists path] s).
Proof.
  intros H. unfold try_config_path, path_exists. unfold_monad. simpl.
  rewrite H. reflexivity.
Qed.

Lemma try_config_path_unreadable (env : Env) s path e :
  fs env path = Some (Raise e) ->
  try_config_path path env s =
    (Return None,
     add_events [EvPrint (MsgConfigFailed path e); EvOpen path; EvExists path] s).
Proof.
  intros H. unfold try_config_path, path_exists, json_load. unfold_monad.
  simpl. rewrite H. simpl. rewrite H. reflexivity.
Qed.

Lemma try_config_path_loaded (env : Env) s path config :
  fs env path = Some (Return config) ->
  try_config_path path env s =
    match config_server_port config with
    | Return port =>
        if truthy port then
          (Return (Some port),
           add_events
             [EvPrint (MsgReadPort port path); EvOpen path; EvExists path] s)
        else (Return None, add_events [EvOpen path; EvExists path] s)
    | Raise e =>
        (Return None,
         add_events
           [EvPrint (MsgConfigFailed path e); EvOpen path; EvExists path] s)
    end.
Proof.
  intros H. unfold try_config_path, path_exists, json_load. unfold_monad.
  simpl. rewrite H. simpl. rewrite H.
  destruct (config_server_port config) as [port|e]; [|reflexivity].
  destruct (truthy port); reflexivity.
Qed.

Lemma try_config_path_returns (env : Env) s path :
  exists r s', try_config_path path env s = (Return r, s').
Proof.
  destruct (fs env path) as [[config|e]|] eqn:H.
  - rewrite (try_config_path_loaded _ _ _ _ H).
    destruct (config_server_port config) as [port|e]; [|eauto].
    destruct (truthy port); eauto.
  - rewrite (try_config_path_unreadable _ _ _ _ H). eauto.
  - rewrite (try_config_path_missing _ _ _ H). eauto.
Qed.

Lemma port_from_paths_cons (env : Env) s path rest :
  port_from_paths (path :: rest) env s =
    match try_config_path path env s with
    | (Return (Some port), s1) => (Return port, s1)
    | (Return None, s1) => port_from_paths rest env s1
    | (Raise e, s1) => (Raise e, s1)
    end.
Proof.
  unfold port_from_paths. simpl. unfold bind at 1 2.
  destruct (try_config_path path env s) as [[[port|]|e] s1]; reflexivity.
Qed.

Lemma port_from_paths_nil (env : Env) s :
  port_from_paths [] env s =
    (Return (VInt 60021), add_events [EvPrint MsgDefaultPort] s).
Proof. reflexivity. Qed.

Lemma port_from_paths_returns (env : Env) paths :
  forall s, exists port s', port_from_paths paths env s = (Return port, s').
Proof.
  induction paths as [|path rest IH]; intros s.
  - rewrite port_from_paths_nil. eauto.
  - rewrite port_from_paths_cons.
    destruct (try_config_path_returns env s path) as (r & s1 & ->).
    destruct r; eauto.
Qed.

(** A candidate in one of the four states yields its configured value, or
    lets the loop go on. *)
Lemma port_from_paths_state (env : Env) s path rest st :
  in_state env path st ->
  exists s1,
    port_from_paths (path :: rest) env s =
      match configured st with
      | Some n => (Return (VInt n), s1)
      | None => port_from_paths rest env s1
      end.
Proof.
  intros H. rewrite port_from_paths_cons.
  destruct st as [ |e|config|config n]; simpl in *.
  - rewrite (try_config_path_missing _ _ _ H). eauto.
  - rewrite (try_config_path_unreadable _ _ _ _ H). eauto.
  - destruct H as [Hfs Hkey]. rewrite (try_config_path_loaded _ _ _ _ Hfs).
    destruct (nested_none_server_port _ Hkey) as [->|[e ->]]; simpl; eauto.
  - destruct H as (Hfs & Hn & Hnz). rewrite (try_config_path_loaded _ _ _ _ Hfs).
    rewrite (nested_server_port _ _ Hn). simpl.
    destruct (Z.eqb_spec n 0); [contradiction|]. simpl. eauto.
Qed.

Lemma init_explicit (env : Env) s port host :
  port <> VNone ->
  __init__ port host env s = connect_outcome env port host s.
Proof.
  intros Hport. unfold __init__, connect_outcome, insecure_channel.
  destruct port; try congruence; unfold_monad; simpl;
    match goal with
    | |- context [insecure_channel_error env ?a] =>
        destruct (insecure_channel_error env a); reflexivity
    end.
Qed.

Lemma init_from_config (env : Env) s host :
  __init__ VNone host env s =
    match _get_port_from_config env s with
    | (Return port, s1) => connect_outcome env port host s1
    | (Raise e, s1) => (Raise e, s1)
    end.
Proof.
  unfold __init__, connect_outcome, insecure_channel. unfold bind at 1.
  destruct (_get_port_from_config env s) as [[port|e] s1]; [|reflexivity].
  unfold_monad; simpl.
  match goal with
  | |- context [insecure_channel_error env ?a] =>
      destruct (insecure_channel_error env a); reflexivity
  end.
Qed.

Lemma construct_run (env : Env) s port host :
  InferenceClient port host env s =
    __init__ port host env
      {| self := new_object; uuid_draws := uuid_draws s; trace := trace s |}.
Proof. reflexivity. Qed.

Lemma check_health_run (env : Env) s :
  check_health env s =
    match self_stub (self s) with
    | None =>
        (Return false,
         add_events [EvPrint (MsgHealthError (AttributeError "stub"))] s)
    | Some _ =>
        match svc_Check env (trace s) with
        | Return status =>
            (Return (status =? SERVING env)%Z,
             add_events [EvRpc Check 5%float] s)
        | Raise (RpcError code details) =>
            (Return false,
             add_events [EvPrint (MsgHealthFailed code details);
                         EvRpc Check 5%float] s)
        | Raise e =>
            (Return false,
             add_events [EvPrint (MsgHealthError e); EvRpc Check 5%float] s)
        end
    end.
Proof.
  unfold check_health, invoke. unfold_monad. simpl.
  destruct (self_stub (self s)); [|reflexivity]. simpl.
  destruct (svc_Check env (trace s)) as [status|e]; [reflexivity|].
  destruct e; reflexivity.
Qed.

Lemma close_run (env : Env) s :
  close env s =
    match self_channel (self s) with
    | None => (Raise (AttributeError "channel"), s)
    | Some ch =>
        (Return tt,
         {| self :=
              {| self_port := self_port (self s);
                 self_host := self_host (self s);
                 self_address := self_address (self s);
                 self_channel :=
                   Some {| target := target ch; options := options ch;
                           closed := true |};
                 self_stub := self_stub (self s) |};
            uuid_draws := uuid_draws s;
            trace := EvPrint MsgClosed :: EvChannelClose :: trace s |})
    end.
Proof.
  unfold close, channel_close, channel_truthy. unfold_monad. simpl.
  destruct (self_channel (self s)) as [ch|] eqn:H; [|reflexivity].
  simpl. rewrite H. reflexivity.
Qed.

Lemma decimal_uuid4_inj i j : decimal_uuid4 i = decimal_uuid4 j -> i = j.
Proof.
  unfold decimal_uuid4. intros H. apply Unsigned.to_uint_inj.
  assert (Hs : Some (Nat.to_uint i) = Some (Nat.to_uint j))
    by (rewrite <- !NilEmpty.usu, H; reflexivity).
  congruence.
Qed.

Lemma map_filter_commute {A B} (f : A -> B) (p : B -> bool) (l : list A) :
  map f (filter (fun x => p (f x)) l) = filter p (map f l).
Proof.
  induction l as [|x l IH]; simpl; [reflexivity|].
  destruct (p (f x)); simpl; rewrite IH; reflexivity.
Qed.

Lemma prediction_dict_confidence op pred :
  pd_confidence (prediction_dict op pred) = confidence pred.
Proof. destruct op; reflexivity. Qed.

Lemma same_channel_refl s : same_channel s s.
Proof. split; [reflexivity|]. destruct (self_channel (self s)); auto. Qed.

Lemma same_channel_trans s1 s2 s3 :
  same_channel s1 s2 -> same_channel s2 s3 -> same_channel s1 s3.
Proof.
  unfold same_channel. intros [Ha Hb] [Hc Hd]. split; [congruence|].
  destruct (self_channel (self s1)), (self_channel (self s2)),
    (self_channel (self s3)); try contradiction; auto.
  destruct Hb, Hd. split; congruence.
Qed.

Lemma same_channel_self s s' : self s' = self s -> same_channel s s'.
Proof. intros H. unfold same_channel. rewrite H. apply same_channel_refl. Qed.

(** What a call of detect_objects or segment_sheets does to the state,
    whatever the service answers. *)
Lemma inference_effect op (env : Env) s image w h t :
  exists r s',
    inference op image w h t env s = (r, s')
    /\ self s' = self s
    /\ uuid_draws s' = S (uuid_draws s)
    /\ ((self_stub (self s) = None /\ trace s' = trace s)
        \/ (self_stub (self s) <> None
            /\ trace s' =
                 EvRpc (remote_call op (request_in env s image w h)) 30%float
                   :: trace s)).
Proof.
  destruct (self_stub (self s)) as [stub|] eqn:Hstub.
  - assert (Hs : self_stub (self s) <> None) by congruence.
    destruct (service op env (trace s) (request_in env s image w h))
      as [P|e] eqn:Hsvc.
    + rewrite (inference_answer op env s image w h t P Hs Hsvc).
      eexists; eexists; split; [reflexivity|]. simpl.
      repeat split; right; split; [discriminate|reflexivity].
    + rewrite (inference_raise op env s image w h t e Hs Hsvc).
      eexists; eexists; split; [reflexivity|]. simpl.
      repeat split; right; split; [discriminate|reflexivity].
  - rewrite (inference_no_stub op env s image w h t Hstub).
    eexists; eexists; split; [reflexivity|]. simpl.
    repeat split; left; split; reflexivity.
Qed.

Lemma check_health_effect (env : Env) s :
  exists b evs,
    check_health env s = (Return b, add_events evs s)
    /\ request_ids evs = [] /\ Forall (fun ev => is_channel_create ev = false) evs.
Proof.
  rewrite check_health_run.
  destruct (self_stub (self s)).
  - destruct (svc_Check env (trace s)) as [status|e].
    + eexists; eexists; split; [reflexivity|]. split; repeat constructor.
    + destruct e; eexists; eexists; (split; [reflexivity|]);
        split; repeat constructor.
  - eexists; eexists; split; [reflexivity|]. split; repeat constructor.
Qed.

Lemma request_ids_app evs tr :
  request_ids (evs ++ tr) = (request_ids evs ++ request_ids tr)%list.
Proof. apply flat_map_app. Qed.

(** One call of the caller: it raises nothing, keeps the channel and its
    options, and keeps the request ids fresh. *)
Lemma call_method_effect (env : Env) s c :
  exists s',
    call_method c env s = (Return tt, s')
    /\ same_channel s s'
    /\ ((forall i j, uuid4 env i = uuid4 env j -> i = j) ->
        ids_fresh env s -> ids_fresh env s').
Proof.
  unfold call_method. destruct c as [ |op image w h t| ].
  - destruct (check_health_effect env s) as (b & evs & Hrun & Hids & _).
    unfold try_except, bind, Exception. rewrite Hrun. simpl.
    eexists; split; [reflexivity|]. split; [apply same_channel_self; reflexivity|].
    unfold ids_fresh. simpl. rewrite request_ids_app, Hids. simpl. auto.
  - destruct (inference_effect op env s image w h t)
      as (r & s' & Hrun & Hself & Hdraws & Htrace).
    unfold try_except, bind, Exception. rewrite Hrun.
    assert (Hkeep : same_channel s s'
                    /\ ((forall i j, uuid4 env i = uuid4 env j -> i = j) ->
                        ids_fresh env s -> ids_fresh env s')).
    { split; [apply same_channel_self; exact Hself|].
      unfold ids_fresh. intros Hinj [Hnd Hdrawn].
      destruct Htrace as [[_ ->]|[_ ->]].
      - split; [exact Hnd|]. intros x Hx.
        destruct (Hdrawn x Hx) as (i & Hi & ->). exists i. split; [lia|reflexivity].
      - assert (Hids : request_ids
                         (EvRpc (remote_call op (request_in env s image w h))
                            30%float :: trace s)
                       = uuid4 env (uuid_draws s) :: request_ids (trace s))
          by (destruct op; reflexivity).
        rewrite Hids. split.
        + constructor; [|exact Hnd]. intros Hin.
          destruct (Hdrawn _ Hin) as (i & Hi & Heq).
          apply Hinj in Heq. lia.
        + intros x [<-|Hx].
          * exists (uuid_draws s). split; [lia|reflexivity].
          * destruct (Hdrawn x Hx) as (i & Hi & ->).
            exists i. split; [lia|reflexivity]. }
    destruct r; simpl; unfold ret; eexists; (split; [reflexivity|exact Hkeep]).
  - unfold try_except, Exception. rewrite close_run.
    destruct (self_channel (self s)) as [ch|] eqn:Hch.
    + eexists; split; [reflexivity|]. split.
      * unfold same_channel. simpl. rewrite Hch. simpl. auto.
      * unfold ids_fresh. simpl. auto.
    + unfold ret. eexists; split; [reflexivity|].
      split; [apply same_channel_refl|auto].
Qed.

Lemma call_methods_effect (env : Env) calls :
  forall s, exists s',
    call_methods calls env s = (Return tt, s')
    /\ same_channel s s'
    /\ ((forall i j, uuid4 env i = uuid4 env j -> i = j) ->
        ids_fresh env s -> ids_fresh env s').
Proof.
  induction calls as [|c rest IH]; intros s; simpl.
  - exists s. split; [reflexivity|]. split; [apply same_channel_refl|auto].
  - destruct (call_method_effect env s c) as (s1 & Hrun & Hch & Hids).
    destruct (IH s1) as (s2 & Hrun2 & Hch2 & Hids2).
    exists s2. unfold bind. rewrite Hrun, Hrun2.
    split; [reflexivity|]. split; [eapply same_channel_trans; eauto|auto].
Qed.

Lemma images_in_app evs tr :
  images_in (evs ++ tr) = (images_in evs ++ images_in tr)%list.
Proof. apply flat_map_app. Qed.

Lemma add_events_add evs1 evs2 s :
  add_events evs2 (add_events evs1 s) = add_events (evs2 ++ evs1) s.
Proof. unfold add_events. simpl. rewrite app_assoc. reflexivity. Qed.

Lemma quiet_app evs1 evs2 : quiet evs1 -> quiet evs2 -> quiet (evs2 ++ evs1).
Proof.
  intros (Ha & Hb & Hb') (Hc & Hd & Hd'). split; [|split].
  - apply Forall_app. split; assumption.
  - rewrite request_ids_app, Hb, Hd. reflexivity.
  - rewrite images_in_app, Hb', Hd'. reflexivity.
Qed.

Lemma value_is_none (v : value) : v = VNone \/ v <> VNone.
Proof. destruct v; (left; reflexivity) || (right; discriminate). Qed.

(** Port resolution touches neither the channel nor the service. *)
Lemma try_config_path_events (env : Env) s path :
  exists r evs,
    try_config_path path env s = (Return r, add_events evs s) /\ quiet evs.
Proof.
  destruct (fs env path) as [[config|e]|] eqn:H.
  - rewrite (try_config_path_loaded _ _ _ _ H).
    destruct (config_server_port config) as [port|e].
    + destruct (truthy port); eexists; eexists; (split; [reflexivity|]);
        split; repeat constructor.
    + eexists; eexists; split; [reflexivity|]. split; repeat constructor.
  - rewrite (try_config_path_unreadable _ _ _ _ H).
    eexists; eexists; split; [reflexivity|]. split; repeat constructor.
  - rewrite (try_config_path_missing _ _ _ H).
    eexists; eexists; split; [reflexivity|]. split; repeat constructor.
Qed.

Lemma port_from_paths_events (env : Env) paths :
  forall s, exists port evs,
    port_from_paths paths env s = (Return port, add_events evs s) /\ quiet evs.
Proof.
  induction paths as [|path rest IH]; intros s.
  - rewrite port_from_paths_nil.
    eexists; eexists; split; [reflexivity|]. split; repeat constructor.
  - rewrite port_from_paths_cons.
    destruct (try_config_path_events env s path) as (r & evs & -> & Hq).
    destruct r as [port|]; [eauto|].
    destruct (IH (add_events evs s)) as (port & evs' & -> & Hq').
    rewrite add_events_add. eexists; eexists; split; [reflexivity|].
    apply quiet_app; assumption.
Qed.

(** Construction: the events it adds, and the object it leaves. *)
Lemma construct_effect (env : Env) s port host :
  exists r s' address post pre,
    InferenceClient port host env s = (r, s')
    /\ trace s' =
         (post ++ EvChannelCreate address channel_options :: pre ++ trace s)%list
    /\ quiet post /\ quiet pre
    /\ uuid_draws s' = uuid_draws s
    /\ match r with
       | Return _ =>
           self_channel (self s') =
             Some {| target := address; options := channel_options;
                     closed := false |}
           /\ self_stub (self s') = Some (AreaScanInferenceStub address)
           /\ self_address (self s') = Some address
       | Raise _ => self_channel (self s') = None /\ self_stub (self s') = None
       end.
Proof.
  rewrite construct_run.
  assert (Hconnect : forall p evs, quiet evs ->
            exists r s' address post pre,
              connect_outcome env p host
                (add_events evs
                   {| self := new_object; uuid_draws := uuid_draws s;
                      trace := trace s |}) = (r, s')
              /\ trace s' =
                   (post ++ EvChannelCreate address channel_options
                      :: pre ++ trace s)%list
              /\ quiet post /\ quiet pre
              /\ uuid_draws s' = uuid_draws s
              /\ match r with
                 | Return _ =>
                     self_channel (self s') =
                       Some {| target := address; options := channel_options;
                               closed := false |}
                     /\ self_stub (self s') = Some (AreaScanInferenceStub address)
                     /\ self_address (self s') = Some address
                 | Raise _ =>
                     self_channel (self s') = None /\ self_stub (self s') = None
                 end).
  { intros p evs Hq. unfold connect_outcome.
    destruct (insecure_channel_error env (host ++ ":" ++ py_str env p)) as [e|].
    - exists (Raise e). eexists. exists (host ++ ":" ++ py_str env p), [], evs.
      split; [reflexivity|]. split; [reflexivity|].
      split; [repeat split; repeat constructor|]. split; [exact Hq|].
      simpl. repeat split.
    - exists (Return tt). eexists.
      exists (host ++ ":" ++ py_str env p),
        [EvPrint (MsgConnected (host ++ ":" ++ py_str env p))], evs.
      split; [reflexivity|]. split; [reflexivity|].
      split; [repeat split; repeat constructor|]. split; [exact Hq|].
      simpl. repeat split. }
  destruct (value_is_none port) as [->|Hport].
  - rewrite init_from_config. unfold _get_port_from_config.
    destruct (port_from_paths_events env config_paths
                {| self := new_object; uuid_draws := uuid_draws s;
                   trace := trace s |}) as (p & evs & -> & Hq).
    apply Hconnect. exact Hq.
  - rewrite (init_explicit _ _ _ _ Hport).
    apply (Hconnect port []). repeat split. constructor.
Qed.

Lemma proceeds_refl s : proceeds s s.
Proof. split; [reflexivity|]. exists []. split; reflexivity. Qed.

Lemma proceeds_trans s1 s2 s3 :
  proceeds s1 s2 -> proceeds s2 s3 -> proceeds s1 s3.
Proof.
  intros [Ha (e1 & Hb & Hc)] [Hd (e2 & He & Hf)]. split; [congruence|].
  exists (e2 ++ e1)%list. split.
  - rewrite He, Hb. apply app_assoc.
  - unfold images_in in *. rewrite flat_map_app, Hc, Hf. reflexivity.
Qed.

Lemma sure_steady {A} (m : M A) : sure m -> steady m.
Proof. intros H env s. destruct (H env s) as (a & s' & -> & Hp). eauto. Qed.

Lemma sure_ret {A} (a : A) : sure (ret a).
Proof. intros env s. exists a, s. split; [reflexivity|apply proceeds_refl]. Qed.

Lemma sure_ask : sure ask.
Proof. intros env s. exists env, s. split; [reflexivity|apply proceeds_refl]. Qed.

Lemma steady_lift {A} (r : result A) : steady (lift r).
Proof. intros env s. exists r, s. split; [reflexivity|apply proceeds_refl]. Qed.

Lemma sure_print (m : Message) : image_of (EvPrint m) = [] -> sure (print m).
Proof.
  intros Hm env s. eexists; eexists; split; [reflexivity|].
  split; [reflexivity|]. exists [EvPrint m]. split; [reflexivity|].
  unfold images_in, flat_map. rewrite Hm. reflexivity.
Qed.

Lemma steady_bind {A B} (m : M A) (k : A -> M B) :
  steady m -> (forall a, steady (k a)) -> steady (bind m k).
Proof.
  intros Hm Hk env s. unfold bind.
  destruct (Hm env s) as (r & s1 & -> & Hp1).
  destruct r as [a|e]; [|eauto].
  destruct (Hk a env s1) as (r & s2 & -> & Hp2).
  exists r, s2. split; [reflexivity|eapply proceeds_trans; eauto].
Qed.

Lemma sure_try_except {A} (body : M A) (handler : exn -> M A) :
  steady body -> (forall e, sure (handler e)) ->
  sure (try_except body Exception handler).
Proof.
  intros Hb Hh env s. unfold try_except, Exception.
  destruct (Hb env s) as (r & s1 & -> & Hp1).
  destruct r as [a|e]; [eauto|].
  destruct (Hh e env s1) as (a & s2 & -> & Hp2).
  exists a, s2. split; [reflexivity|eapply proceeds_trans; eauto].
Qed.

Lemma steady_inference op image w h t : steady (inference op image w h t).
Proof.
  intros env s.
  destruct (inference_effect op env s image w h t)
    as (r & s' & -> & Hself & _ & Htrace).
  exists r, s'. split; [reflexivity|]. split; [exact Hself|].
  destruct Htrace as [[_ ->]|[_ ->]].
  - exists []. split; reflexivity.
  - eexists [_]. split; [reflexivity|]. destruct op; reflexivity.
Qed.

Lemma sure_check_health : sure check_health.
Proof.
  intros env s. rewrite check_health_run.
  destruct (self_stub (self s)).
  - destruct (svc_Check env (trace s)) as [status|e].
    + eexists; eexists; split; [reflexivity|].
      split; [reflexivity|]. eexists; split; reflexivity.
    + destruct e; eexists; eexists; (split; [reflexivity|]);
        (split; [reflexivity|]); eexists; split; reflexivity.
  - eexists; eexists; split; [reflexivity|].
    split; [reflexivity|]. eexists; split; reflexivity.
Qed.

(** The body of the loop raises nothing, keeps the client and announces its
    image. *)
Lemma process_image_effect model t idx total path (env : Env) s :
  exists s',
    process_image model t idx total path env s = (Return tt, s')
    /\ self s' = self s
    /\ images_in (trace s') = path :: images_in (trace s).
Proof.
  assert (Hbody :
    sure (try_except
            (print (MsgCli "Loading image...") ;;
             image <- load_bytes path ;;
             (if runs_detection model then
                print (MsgCli "[Object Detection Model]") ;;
                result <- detect_objects image (fst target_size)
                            (snd target_size) t ;;
                print (MsgFound (prediction_count result))
              else ret tt) ;;
             (if runs_segmentation model then
                print (MsgCli "[Sheet Segmentation Model]") ;;
                result <- segment_sheets image (fst target_size)
                            (snd target_size) t ;;
                print (MsgFound (prediction_count result))
              else ret tt))
            Exception
            (fun e => print (MsgImageError e)))).
  { apply sure_try_except; [|intros e; apply sure_print; reflexivity].
    apply steady_bind; [apply sure_steady, sure_print; reflexivity|].
    intros _. apply steady_bind.
    { unfold load_bytes. apply steady_bind; [apply sure_steady, sure_ask|].
      intros env0. apply steady_lift. }
    intros image. apply steady_bind.
    - destruct (runs_detection model); [|apply sure_steady, sure_ret].
      apply steady_bind; [apply sure_steady, sure_print; reflexivity|].
      intros _. apply steady_bind; [apply (steady_inference Detection)|].
      intros r. apply sure_steady, sure_print; reflexivity.
    - intros _.
      destruct (runs_segmentation model); [|apply sure_steady, sure_ret].
      apply steady_bind; [apply sure_steady, sure_print; reflexivity|].
      intros _. apply steady_bind; [apply (steady_inference Segmentation)|].
      intros r. apply sure_steady, sure_print; reflexivity. }
  unfold process_image. unfold bind at 1. unfold print at 1, emit; cbn [console_error reliable].
  match goal with
  | |- context [try_except ?b ?h ?k _ ?s0] =>
      destruct (Hbody env s0) as ([] & s' & Hrun & Hself & evs & Htrace & Himgs)
  end.
  exists s'. split; [exact Hrun|]. split; [exact Hself|].
  rewrite Htrace. unfold images_in in *. rewrite flat_map_app, Himgs.
  reflexivity.
Qed.

Lemma process_images_effect model t total image_paths (env : Env) :
  forall idx s, exists s',
    process_images model t idx total image_paths env s = (Return tt, s')
    /\ self s' = self s
    /\ images_in (trace s') = (rev image_paths ++ images_in (trace s))%list.
Proof.
  induction image_paths as [|path rest IH]; intros idx s; simpl.
  - exists s. repeat split.
  - destruct (process_image_effect model t idx total path env s)
      as (s1 & Hrun & Hself & Himgs).
    destruct (IH (S idx) s1) as (s2 & Hrun2 & Hself2 & Himgs2).
    exists s2. unfold bind. rewrite Hrun, Hrun2.
    split; [reflexivity|]. split; [congruence|].
    rewrite Himgs2, Himgs, <- app_assoc. reflexivity.
Qed.

Lemma main_run image folder model port t host (env : Env) s :
  main image folder model port t host env s =
    match InferenceClient port host env s with
    | (Raise e, s1) => (Return 1%Z, add_events [EvPrint (MsgInitFailed e)] s1)
    | (Return _, s1) =>
        match check_health env (health_state s1) with
        | (Return true, s2) =>
            match self_address (self s2) with
            | Some address => run_batch image folder model t address env s2
            | None => (Raise (AttributeError "address"), s2)
            end
        | (Return false, s2) =>
            (Return 1%Z,
             add_events
               [ EvPrint (MsgCli "  Make sure the service is running and accessible");
                 EvPrint (MsgCli "✗ AreaScanInference service is not available") ]
               s2)
        | (Raise e, s2) => (Raise e, s2)
        end
    end.
Proof.
  unfold main, health_state, add_events. unfold bind at 1.
  unfold try_except, Exception. unfold bind at 1.
  destruct (InferenceClient port host env s) as [[[]|e] s1]; [|reflexivity].
  cbv beta iota delta [ret negb]. unfold bind at 1.
  unfold print at 1, emit; cbn [console_error reliable]. cbv beta iota. unfold bind at 1. cbn [app].
  match goal with
  | |- context [check_health (reliable env) ?x] =>
      destruct (check_health env x) as [[[|]|e] s2]
  end; [|reflexivity|reflexivity].
  cbv beta iota delta [negb]. unfold bind at 1. unfold getattr at 1.
  unfold bind at 1, get at 1. cbv beta iota.
  destruct (self_address (self s2)) as [address|]; reflexivity.
Qed.

Lemma run_batch_effect image folder model t address (env : Env) s :
  self_channel (self s) <> None ->
  exists code s',
    run_batch image folder model t address env s = (Return code, s')
    /\ match collect_image_paths env image folder with
       | None | Some [] => code = 1%Z
       | Some image_paths =>
           code = 0%Z
           /\ images_in (trace s') = (rev image_paths ++ images_in (trace s))%list
           /\ exists ch, self_channel (self s') = Some ch /\ closed ch = true
       end.
Proof.
  intros Hch. unfold run_batch. unfold bind at 1. unfold print at 1, emit; cbn [console_error reliable].
  cbv beta iota. unfold bind at 1, ask at 1. cbv beta iota.
  cbn [env_of reliable].
  destruct (collect_image_paths env image folder) as [[|path rest]|];
    [eexists; eexists; split; reflexivity| |eexists; eexists; split; reflexivity].
  set (image_paths := path :: rest).
  unfold bind at 1. unfold print at 1, emit; cbn [console_error reliable]. cbv beta iota. unfold bind at 1.
  match goal with
  | |- context [process_images model t 1 ?n image_paths (reliable env) ?s0] =>
      destruct (process_images_effect model t n image_paths env 1 s0)
        as (s1 & -> & Hself & Himgs)
  end.
  cbv beta iota. unfold bind at 1. unfold print at 1, emit; cbn [console_error reliable]. cbv beta iota.
  unfold bind at 1. unfold print at 1, emit; cbn [console_error reliable]. cbv beta iota.
  unfold bind at 1. rewrite close_run.
  cbn [self]. rewrite Hself. cbn [self].
  destruct (self_channel (self s)) as [ch|]; [|congruence].
  eexists; eexists; split; [reflexivity|]. cbn.
  split; [reflexivity|]. split; [|eexists; split; reflexivity].
  cbn in Himgs. exact Himgs.
Qed.

Lemma construct_images (env : Env) s port host r s1 :
  InferenceClient port host env s = (r, s1) ->
  images_in (trace s1) = images_in (trace s).
Proof.
  intros Hrun.
  destruct (construct_effect env s port host)
    as (r' & s' & address & post & pre & Hrun' & Htrace & Hpost & Hpre & _).
  rewrite Hrun in Hrun'. injection Hrun' as <- <-.
  rewrite Htrace, images_in_app.
  change (images_in (EvChannelCreate address channel_options :: pre ++ trace s))
    with (images_in (pre ++ trace s)).
  rewrite images_in_app.
  destruct Hpost as (_ & _ & ->), Hpre as (_ & _ & ->). reflexivity.
Qed.

Lemma process_image_load_error model t idx total path e (env : Env) s :
  load_image env path = Raise e ->
  process_image model t idx total path env s =
    (Return tt,
     add_events
       [ EvPrint (MsgImageError e); EvPrint (MsgCli "Loading image...");
         EvPrint (MsgImage idx total path) ] s).
Proof.
  intros H. unfold process_image, load_bytes. unfold_monad. simpl.
  rewrite H. reflexivity.
Qed.

(** ** The claims *)



Example threshold_scenario :
  let r := fst (detect_objects [] 2560 2048 0.9%float sample_env sample_state) in
  match r with
  | Return r =>
      prediction_count r = 2
      /\ map pd_confidence (predictions r) = [0.95%float; 0.91%float]
  | Raise _ => False
  end.
Proof. vm_compute. split; reflexivity. Qed.

(** A confidence that is not a number passes no threshold, 0 included. *)
Example nan_confidence_is_dropped :
  filter (passes 0%float) [sample_prediction nan] = [].
Proof. reflexivity. Qed.

(** What check_health does in any world: the console decides whether the
    handlers return. *)
Definition report (world : World) (m : Message) (s : State)
    : result bool * State :=
  match console_error world m with
  | Some e => (Raise e, s)
  | None => (Return false, add_events [EvPrint m] s)
  end.

Lemma check_health_outcome (world : World) (s : State) :
  check_health world s =
    match self_stub (self s) with
    | None => report world (MsgHealthError (AttributeError "stub")) s
    | Some _ =>
        match svc_Check world (trace s) with
        | Return status =>
            (Return (status =? SERVING world)%Z,
             add_events [EvRpc Check 5%float] s)
        | Raise (RpcError code details) =>
            report world (MsgHealthFailed code details)
              (add_events [EvRpc Check 5%float] s)
        | Raise e =>
            report world (MsgHealthError e)
              (add_events [EvRpc Check 5%float] s)
        end
    end.
Proof.
  unfold check_health, invoke, report, add_events. unfold_world.
  destruct (self_stub (self s)); simpl.
  - destruct (svc_Check world (trace s)) as [status|e]; [reflexivity|].
    destruct e; simpl;
      match goal with
      | |- context [console_error world ?m] =>
          destruct (console_error world m); reflexivity
      end.
  - destruct (console_error world (MsgHealthError (AttributeError "stub")));
      reflexivity.
Qed.

(** check_health returns a boolean, true exactly for the status [SERVING],
    unless the console refuses the line of an [except] clause: then the
    console's exception leaves check_health. *)
Lemma check_health_returns_or_console_fails (world : World) (s : State) :
  (exists b s',
     check_health world s = (Return b, s')
     /\ (b = true <->
         self_stub (self s) <> None
         /\ svc_Check world (trace s) = Return (SERVING world)))
  \/ (exists m e s',
        console_error world m = Some e
        /\ check_health world s = (Raise e, s')).
Proof.
  rewrite check_health_outcome.
  assert (Hreport : forall m s0 (P : Prop), ~ P ->
            (exists b s', report world m s0 = (Return b, s')
                          /\ (b = true <-> P))
            \/ (exists m0 e s', console_error world m0 = Some e
                                /\ report world m s0 = (Raise e, s'))).
  { intros m s0 P HP. unfold report.
    destruct (console_error world m) as [e|] eqn:Hc.
    - right. exists m, e. eexists. split; [exact Hc|reflexivity].
    - left. eexists; eexists; split; [reflexivity|].
      split; [discriminate|intros H; contradiction]. }
  destruct (self_stub (self s)) as [stub|].
  - destruct (svc_Check world (trace s)) as [status|e].
    + left. eexists; eexists; split; [reflexivity|]. split.
      * intros H. apply Z.eqb_eq in H. subst. split; [discriminate|reflexivity].
      * intros [_ H]. injection H as ->. apply Z.eqb_refl.
    + destruct e; apply Hreport; intros [_ H]; discriminate.
  - apply Hreport. intros [H _]. congruence.
Qed.

(** C2.  The claim fails on the code.  With the service down, check_health
    returns [False] when the console takes the line the [except] clause
    prints; behind a console that cannot encode the mark of that line the
    [print] raises inside the handler, and check_health raises the
    [UnicodeEncodeError] after its one call. *)
Theorem check_health_raises_behind_legacy_console :
  check_health down_env sample_state =
    (Return false,
     add_events
       [ EvPrint (MsgHealthFailed UNAVAILABLE (Some "failed to connect"));
         EvRpc Check 5%float ] sample_state)
  /\ check_health (legacy_console down_env) sample_state =
       (Raise charmap_error, add_events [EvRpc Check 5%float] sample_state).
Proof. split; rewrite check_health_outcome; reflexivity. Qed.

(** With each of the two candidate files in one of the four states
    (missing, unreadable or malformed, no value under the nested key,
    non-zero integer value present), and where nothing is refused, port
    resolution without an explicit port returns the value of the first
    candidate holding one, and 60021 when neither does. *)
Lemma port_by_file_state (env : Env) (s : State) (st1 st2 : file_state)
    (H1 : in_state env "C:\Ripcord\settings\workcell_base.json" st1)
    (H2 : in_state env "C:\Ripcord\settings\workcell.json" st2) :
  exists s',
    _get_port_from_config env s =
      (Return (VInt match configured st1, configured st2 with
                    | Some n, _ => n
                    | None, Some n => n
                    | None, None => 60021
                    end), s').
Proof.
  unfold _get_port_from_config, config_paths.
  destruct (port_from_paths_state env s _ ["C:\Ripcord\settings\workcell.json"]
              st1 H1) as [s1 ->].
  destruct (configured st1) as [n|]; [eauto|].
  destruct (port_from_paths_state env s1 _ [] st2 H2) as [s2 ->].
  destruct (configured st2) as [n|]; [eauto|].
  rewrite port_from_paths_nil. eauto.
Qed.

(** The scenarios of the specification: no file, and a file with
    [ServerPort: 60021]. *)
Example port_no_file :
  fst (_get_port_from_config sample_env initial_state) = Return (VInt 60021).
Proof. reflexivity. Qed.

Example port_configured :
  fst (_get_port_from_config
         (files_env (Some (Return (config_with (VInt 60021)))) None)
         initial_state) = Return (VInt 60021).
Proof. reflexivity. Qed.

Example port_key_missing :
  fst (_get_port_from_config
         (files_env (Some (Return (VDict [("ApplicationGrpcSettings", VDict [])])))
            None)
         initial_state) = Return (VInt 60021).
Proof. reflexivity. Qed.

(** C3.  The claim fails on the code.  With no configuration file, port
    resolution returns 60021 when the console takes the line
    [⚠ Using default port 60021]; behind a console that cannot encode the
    mark, that [print], which follows the loop, raises, and so does port
    resolution.  A malformed file is reported inside the [except] clause,
    and there the [print] raises as well.  And [config_path.exists()] stands
    before the [try]: when the path may not be examined its
    [PermissionError] leaves port resolution at the first candidate. *)
Theorem port_resolution_raises :
  fst (_get_port_from_config sample_env initial_state) = Return (VInt 60021)
  /\ _get_port_from_config (legacy_console sample_env) initial_state =
       (Raise charmap_error,
        add_events
          [ EvExists "C:\Ripcord\settings\workcell.json";
            EvExists "C:\Ripcord\settings\workcell_base.json" ] initial_state)
  /\ fst (_get_port_from_config
            (legacy_console (files_env (Some (Raise malformed_json)) None))
            initial_state) = Raise charmap_error
  /\ _get_port_from_config (locked_settings sample_env) initial_state =
       (Raise (OtherError "PermissionError"
                 "C:\Ripcord\settings\workcell_base.json"),
        add_events [EvExists "C:\Ripcord\settings\workcell_base.json"]
          initial_state).
Proof. repeat split. Qed.

(** C4.  With a port given (anything but [None]), construction assigns that
    very value to [self.port] and builds the address from it; it performs no
    access to a configuration file, whatever the files hold; and whether it
    succeeds depends on the creation of the channel alone, not on the value
    of the port. *)
Theorem explicit_port_is_used (env : Env) (s : State) (port : value)
    (host : string) (Hport : port <> VNone) :
  exists r s' evs,
    InferenceClient port host env s = (r, s')
    /\ self_port (self s') = Some port
    /\ self_address (self s') = Some (host ++ ":" ++ py_str env port)
    /\ trace s' = (evs ++ trace s)%list
    /\ Forall (fun ev => is_file_access ev = false) evs
    /\ r = match insecure_channel_error env (host ++ ":" ++ py_str env port) with
           | Some e => Raise e
           | None => Return tt
           end.
Proof.
  rewrite construct_run, (init_explicit _ _ _ _ Hport). unfold connect_outcome.
  destruct (insecure_channel_error env (host ++ ":" ++ py_str env port)) as [e|].
  - exists (Raise e). eexists.
    exists [EvChannelCreate (host ++ ":" ++ py_str env port) channel_options].
    repeat split. repeat constructor.
  - exists (Return tt). eexists.
    exists [EvPrint (MsgConnected (host ++ ":" ++ py_str env port));
            EvChannelCreate (host ++ ":" ++ py_str env port) channel_options].
    repeat split. repeat constructor.
Qed.

Lemma explicit_port_is_used_witness :
  exists r s' evs,
    InferenceClient (VInt 70000) "localhost"
      (files_env (Some (Return (config_with (VInt 8443)))) None) initial_state
      = (r, s')
    /\ self_port (self s') = Some (VInt 70000)
    /\ self_address (self s') =
         Some ("localhost" ++ ":"
                 ++ py_str (files_env (Some (Return (config_with (VInt 8443))))
                              None) (VInt 70000))
    /\ trace s' = (evs ++ trace initial_state)%list
    /\ Forall (fun ev => is_file_access ev = false) evs
    /\ r = match insecure_channel_error
                   (files_env (Some (Return (config_with (VInt 8443)))) None)
                   ("localhost" ++ ":"
                      ++ py_str (files_env
                                   (Some (Return (config_with (VInt 8443))))
                                   None) (VInt 70000)) with
           | Some e => Raise e
           | None => Return tt
           end.
Proof.
  apply (explicit_port_is_used
           (files_env (Some (Return (config_with (VInt 8443)))) None)
           initial_state (VInt 70000) "localhost").
  discriminate.
Defined.

Example explicit_port_address :
  self_address
    (self (snd (InferenceClient (VInt 70000) "localhost"
                  (files_env (Some (Return (config_with (VInt 8443)))) None)
                  initial_state)))
  = Some "localhost:70000".
Proof. reflexivity. Qed.

(** C5.  When the remote call of detect_objects or segment_sheets fails with
    an RPC error, the call raises one exception whose message is the name
    of the operation, the status code and the detail string of the error,
    and the trace gained the one remote call and nothing else: there is no
    second attempt. *)
Theorem rpc_failure_wrapped (op : operation) (env : Env) (s : State)
    (image : list Byte.byte) (w h : Z) (t : float)
    (code : StatusCode) (details : option string)
    (Hconn : connected s)
    (Hfail : service op env (trace s) (request_in env s image w h)
               = Raise (RpcError code details)) :
  exists s',
    inference op image w h t env s =
      (Raise (PlainException
                (failure_prefix op ++ "StatusCode." ++ StatusCode_name code
                   ++ " - " ++ str_details details)), s')
    /\ trace s' =
         EvRpc (remote_call op (request_in env s image w h)) 30%float :: trace s.
Proof.
  destruct Hconn as [_ Hstub].
  rewrite (inference_raise op env s image w h t _ Hstub Hfail).
  eexists; split; reflexivity.
Qed.

Lemma rpc_failure_wrapped_witness :
  exists s',
    inference Segmentation [] 2560 2048 0.5%float down_env sample_state =
      (Raise (PlainException
                (failure_prefix Segmentation ++ "StatusCode."
                   ++ StatusCode_name DEADLINE_EXCEEDED
                   ++ " - " ++ str_details (Some "Deadline Exceeded"))), s')
    /\ trace s' =
         EvRpc (remote_call Segmentation
                  (request_in down_env sample_state [] 2560 2048)) 30%float
           :: trace sample_state.
Proof.
  apply (rpc_failure_wrapped Segmentation down_env sample_state [] 2560 2048
           0.5%float DEADLINE_EXCEEDED (Some "Deadline Exceeded")).
  - split; discriminate.
  - reflexivity.
Defined.

Example rpc_failure_message :
  fst (detect_objects [] 2560 2048 0.5%float down_env sample_state) =
    Raise (PlainException
             "Object detection failed: StatusCode.UNAVAILABLE - failed to connect").
Proof. reflexivity. Qed.

(** C6.  The claim fails on the code.  On a client constructed for port
    60021 the second close() returns, but it calls the channel's close()
    and prints the confirmation line again: [self.channel] is never reset,
    so the guard [if self.channel:] holds on every call.  And close() is not
    safe after a failed construction: when construction fails before
    [self.channel] is assigned (here in port resolution, behind a console
    that cannot encode [⚠]) the attribute is missing and close() raises
    [AttributeError]. *)
Theorem close_twice_repeats_side_effects :
  (fst (close sample_env (snd (close sample_env sample_state))) = Return tt
   /\ trace (snd (close sample_env (snd (close sample_env sample_state)))) =
        EvPrint MsgClosed :: EvChannelClose
          :: trace (snd (close sample_env sample_state))
   /\ trace (snd ((close ;; close) sample_env sample_state)) =
        [ EvPrint MsgClosed; EvChannelClose; EvPrint MsgClosed; EvChannelClose;
          EvPrint (MsgConnected "localhost:60021");
          EvChannelCreate "localhost:60021" channel_options ])
  /\ (fst (InferenceClient VNone "localhost" (legacy_console sample_env)
             initial_state) = Raise charmap_error
      /\ fst (close (legacy_console sample_env)
                (snd (InferenceClient VNone "localhost"
                        (legacy_console sample_env) initial_state))) =
           Raise (AttributeError "channel")).
Proof. repeat split. Qed.

(** ** Request ids, in any world *)

(** [s'] is [s] after effects that send no request and draw no uuid. *)
Definition idle (s s' : State) : Prop :=
  uuid_draws s' = uuid_draws s
  /\ exists evs, trace s' = (evs ++ trace s)%list /\ request_ids evs = [].

(** A program that sends no request and draws no uuid, in any world and
    whether it returns or raises. *)
Definition idles {A} (m : M A) : Prop :=
  forall (world : World) s, exists r s', m world s = (r, s') /\ idle s s'.

Lemma idle_refl s : idle s s.
Proof. split; [reflexivity|]. exists []. split; reflexivity. Qed.

Lemma idle_trans s1 s2 s3 : idle s1 s2 -> idle s2 s3 -> idle s1 s3.
Proof.
  intros [Ha (e1 & Hb & Hc)] [Hd (e2 & He & Hf)]. split; [congruence|].
  exists (e2 ++ e1)%list. split.
  - rewrite He, Hb. apply app_assoc.
  - rewrite request_ids_app, Hc, Hf. reflexivity.
Qed.

Lemma idle_ids (env : Env) s s' :
  idle s s' -> ids_fresh env s -> ids_fresh env s'.
Proof.
  intros [Hdraws (evs & Htrace & Hevs)] Hfresh. unfold ids_fresh in *.
  rewrite Htrace, request_ids_app, Hevs, Hdraws. exact Hfresh.
Qed.

Lemma idles_ret {A} (a : A) : idles (ret a).
Proof. intros world s. exists (Return a), s. split; [reflexivity|apply idle_refl]. Qed.

Lemma idles_raise {A} (e : exn) : idles (@raise A e).
Proof. intros world s. exists (Raise e), s. split; [reflexivity|apply idle_refl]. Qed.

Lemma idles_lift {A} (r : result A) : idles (lift r).
Proof. intros world s. exists r, s. split; [reflexivity|apply idle_refl]. Qed.

Lemma idles_ask : idles ask.
Proof.
  intros world s. exists (Return world), s.
  split; [reflexivity|apply idle_refl].
Qed.

Lemma idles_get : idles get.
Proof. intros world s. exists (Return s), s. split; [reflexivity|apply idle_refl]. Qed.

Lemma idles_update_self f : idles (update_self f).
Proof.
  intros world s. eexists; eexists; split; [reflexivity|].
  split; [reflexivity|]. exists []. split; reflexivity.
Qed.

Lemma idles_emit ev : request_id_of ev = [] -> idles (emit ev).
Proof.
  intros Hev world s. eexists; eexists; split; [reflexivity|].
  split; [reflexivity|]. exists [ev]. split; [reflexivity|].
  unfold request_ids. simpl. rewrite Hev. reflexivity.
Qed.

Lemma idles_print m : idles (print m).
Proof.
  intros world s. unfold print.
  destruct (console_error world m).
  - eexists; eexists; split; [reflexivity|apply idle_refl].
  - apply idles_emit. reflexivity.
Qed.

Lemma idles_bind {A B} (m : M A) (k : A -> M B) :
  idles m -> (forall a, idles (k a)) -> idles (bind m k).
Proof.
  intros Hm Hk world s. unfold bind.
  destruct (Hm world s) as (r & s1 & -> & Hp1).
  destruct r as [a|e]; [|eauto].
  destruct (Hk a world s1) as (r & s2 & -> & Hp2).
  exists r, s2. split; [reflexivity|eapply idle_trans; eauto].
Qed.

Lemma idles_try_except {A} (body : M A) handles (handler : exn -> M A) :
  idles body -> (forall e, idles (handler e)) ->
  idles (try_except body handles handler).
Proof.
  intros Hb Hh world s. unfold try_except.
  destruct (Hb world s) as (r & s1 & -> & Hp1).
  destruct r as [a|e]; [eauto|].
  destruct (handles e); [|eauto].
  destruct (Hh e world s1) as (r & s2 & -> & Hp2).
  exists r, s2. split; [reflexivity|eapply idle_trans; eauto].
Qed.

Lemma idles_getattr {A} name (field : Client -> option A) :
  idles (getattr name field).
Proof.
  unfold getattr. apply idles_bind; [apply idles_get|]. intros s0.
  destruct (field (self s0)); [apply idles_ret|apply idles_raise].
Qed.

Lemma idles_try_config_path path : idles (try_config_path path).
Proof.
  unfold try_config_path, path_exists, json_load.
  apply idles_bind.
  { apply idles_bind; [apply idles_emit; reflexivity|]. intros _.
    apply idles_bind; [apply idles_ask|]. intros world.
    destruct (exists_error world path); [apply idles_raise|apply idles_ret]. }
  intros [|]; [|apply idles_ret].
  apply idles_try_except.
  - apply idles_bind.
    { apply idles_bind; [apply idles_emit; reflexivity|]. intros _.
      apply idles_bind; [apply idles_ask|]. intros world.
      destruct (fs world path); [apply idles_lift|apply idles_raise]. }
    intros config. apply idles_bind; [apply idles_lift|]. intros port.
    destruct (truthy port); [|apply idles_ret].
    apply idles_bind; [apply idles_print|]. intros _. apply idles_ret.
  - intros e. apply idles_bind; [apply idles_print|]. intros _. apply idles_ret.
Qed.

Lemma idles_port_from_paths paths : idles (port_from_paths paths).
Proof.
  unfold port_from_paths. apply idles_bind.
  - induction paths as [|path rest IH]; simpl; [apply idles_ret|].
    apply idles_bind; [apply idles_try_config_path|].
    intros [port|]; [apply idles_ret|exact IH].
  - intros [port|]; [apply idles_ret|].
    apply idles_bind; [apply idles_print|]. intros _. apply idles_ret.
Qed.

Lemma idles_construct port host : idles (InferenceClient port host).
Proof.
  unfold InferenceClient, __init__, insecure_channel, _get_port_from_config.
  apply idles_bind; [apply idles_update_self|]. intros _.
  apply idles_bind.
  { destruct port; try apply idles_ret. apply idles_port_from_paths. }
  intros p.
  repeat (apply idles_bind;
          [first [ apply idles_update_self | apply idles_ask
                 | apply idles_getattr ]|]; intros ?).
  apply idles_bind.
  { apply idles_bind; [apply idles_emit; reflexivity|]. intros _.
    apply idles_bind; [apply idles_ask|]. intros world.
    destruct (insecure_channel_error world _);
      [apply idles_raise|apply idles_ret]. }
  intros ch.
  repeat (apply idles_bind;
          [first [ apply idles_update_self | apply idles_ask
                 | apply idles_getattr ]|]; intros ?).
  apply idles_print.
Qed.

Lemma idles_check_health : idles check_health.
Proof.
  unfold check_health, invoke. apply idles_try_except.
  - apply idles_bind.
    { apply idles_bind; [apply idles_getattr|]. intros _.
      apply idles_bind; [apply idles_ask|]. intros world.
      apply idles_bind; [apply idles_get|]. intros s0.
      apply idles_bind; [apply idles_emit; reflexivity|]. intros _.
      apply idles_lift. }
    intros response. apply idles_bind; [apply idles_ask|]. intros world.
    apply idles_ret.
  - intros e.
    destruct e; (apply idles_bind; [apply idles_print|]; intros _;
                 apply idles_ret).
Qed.

Lemma idles_close : idles close.
Proof.
  unfold close, channel_close.
  apply idles_bind; [apply idles_getattr|]. intros ch.
  destruct (channel_truthy ch); [|apply idles_ret].
  apply idles_bind; [|intros _; apply idles_print].
  apply idles_bind; [apply idles_getattr|]. intros ch0.
  apply idles_bind; [apply idles_emit; reflexivity|]. intros _.
  apply idles_update_self.
Qed.

(** A call whose request the message can hold runs as in the world in which
    nothing is refused: the console and the file system play no part in it. *)
Lemma inference_fits op (world : World) s image w h t :
  request_error world h w = None ->
  inference op image w h t world s = inference op image w h t (env_of world) s.
Proof.
  intros Hfits.
  destruct op; unfold inference, detect_objects, segment_sheets, invoke,
    uuid4_str; unfold_world; rewrite Hfits;
    cbn [request_error reliable env_of self];
    (destruct (self_stub (self s)); [|reflexivity]);
    match goal with
    | |- context [svc_DetectObjects ?a ?b ?c] =>
        destruct (svc_DetectObjects a b c) as [P|e]
    | |- context [svc_SegmentSheets ?a ?b ?c] =>
        destruct (svc_SegmentSheets a b c) as [P|e]
    end; try reflexivity; destruct e; reflexivity.
Qed.

(** A call whose request the message cannot hold draws its uuid and raises
    before anything is sent. *)
Lemma inference_refused op (world : World) s image w h t e :
  request_error world h w = Some e ->
  exists e',
    inference op image w h t world s =
      (Raise e',
       {| self := self s; uuid_draws := S (uuid_draws s); trace := trace s |}).
Proof.
  intros Hrefused.
  destruct op; unfold inference, detect_objects, segment_sheets, uuid4_str;
    unfold_world; rewrite Hrefused; destruct e; eexists; reflexivity.
Qed.

(** One call of the caller, in any world: it raises nothing and keeps the
    request ids fresh. *)
Lemma call_method_ids (world : World) s c :
  (forall i j, uuid4 world i = uuid4 world j -> i = j) ->
  exists s',
    call_method c world s = (Return tt, s')
    /\ (ids_fresh world s -> ids_fresh world s').
Proof.
  intros Hinj.
  assert (Hidle : forall (m : M unit), idles m ->
            exists s', try_except m Exception (fun _ => ret tt) world s
                         = (Return tt, s')
                       /\ (ids_fresh world s -> ids_fresh world s')).
  { intros m Hm. unfold try_except, Exception, ret.
    destruct (Hm world s) as (r & s' & -> & Hstep).
    exists s'. split; [destruct r as [[]|e]; reflexivity|].
    apply idle_ids. exact Hstep. }
  unfold call_method. destruct c as [ |op image w h t| ].
  - apply Hidle. apply idles_bind; [apply idles_check_health|].
    intros _. apply idles_ret.
  - destruct (request_error world h w) as [e|] eqn:Hreq.
    + destruct (inference_refused op world s image w h t e Hreq) as (e' & Hrun).
      unfold try_except, bind, Exception, ret. rewrite Hrun.
      eexists; split; [reflexivity|].
      unfold ids_fresh. simpl. intros [Hnd Hdrawn]. split; [exact Hnd|].
      intros x Hx. destruct (Hdrawn x Hx) as (i & Hi & ->).
      exists i. split; [lia|reflexivity].
    + destruct (call_method_effect (env_of world) s (Infer op image w h t))
        as (s' & Hrun & _ & Hfresh).
      exists s'. split; [|exact (Hfresh Hinj)].
      rewrite <- Hrun. unfold call_method, try_except, bind.
      rewrite (inference_fits op world s image w h t Hreq). reflexivity.
  - apply Hidle. apply idles_close.
Qed.

Lemma call_methods_ids (world : World) calls :
  (forall i j, uuid4 world i = uuid4 world j -> i = j) ->
  forall s, exists s',
    call_methods calls world s = (Return tt, s')
    /\ (ids_fresh world s -> ids_fresh world s').
Proof.
  intros Hinj. induction calls as [|c rest IH]; intros s; simpl.
  - exists s. split; [reflexivity|auto].
  - destruct (call_method_ids world s c Hinj) as (s1 & Hrun & Hids).
    destruct (IH s1) as (s2 & Hrun2 & Hids2).
    exists s2. unfold bind. rewrite Hrun, Hrun2. split; [reflexivity|auto].
Qed.

(** C7, as the code has it.  In any world, a call of detect_objects or
    segment_sheets on a connected client, for a height and a width the
    request message holds, draws one new uuid and sends one request, made of
    that uuid, the caller's image bytes, width and height and the channel
    count 3, with a timeout of 30 seconds; the uuid was sent in no earlier
    request.  And in a run of the program, construction followed by any
    calls, no two requests share an id, also when the console, the file
    system or the message refuse something on the way.  The generator is
    taken to yield distinct values. *)
Theorem fresh_request_per_call (world : World)
    (Hinj : forall i j, uuid4 world i = uuid4 world j -> i = j)
    (op : operation) (s : State) (image : list Byte.byte) (w h : Z) (t : float)
    (Hconn : connected s)
    (Hfits : request_error world h w = None) :
  (exists r s',
     inference op image w h t world s = (r, s')
     /\ trace s' =
          EvRpc (remote_call op
                   {| id := uuid4 world (uuid_draws s); image_bytes := image;
                      image_height := h; image_width := w; channels := 3 |})
            30%float :: trace s
     /\ uuid_draws s' = S (uuid_draws s)
     /\ (ids_fresh world s ->
         ~ In (uuid4 world (uuid_draws s)) (request_ids (trace s))))
  /\ (forall port host calls,
        NoDup (request_ids
                 (trace (snd ((InferenceClient port host ;; call_methods calls)
                                world initial_state))))).
Proof.
  split.
  - rewrite (inference_fits op world s image w h t Hfits).
    destruct (inference_effect op (env_of world) s image w h t)
      as (r & s' & Hrun & _ & Hdraws & Htrace).
    exists r, s'. split; [exact Hrun|].
    destruct Htrace as [[Hnone _]|[_ Htrace]];
      [destruct Hconn as [_ Hstub]; contradiction|].
    split; [exact Htrace|]. split; [exact Hdraws|].
    intros [_ Hdrawn] Hin. destruct (Hdrawn _ Hin) as (i & Hi & Heq).
    apply Hinj in Heq. lia.
  - intros port host calls. unfold bind.
    destruct (idles_construct port host world initial_state)
      as (r & s' & -> & Hdraws & evs & Htrace & Hevs).
    assert (Hfresh : ids_fresh world s').
    { unfold ids_fresh. rewrite Htrace, request_ids_app, Hevs. simpl.
      split; [constructor|intros x []]. }
    destruct r as [[]|e]; [|exact (proj1 Hfresh)].
    destruct (call_methods_ids world calls Hinj s') as (s2 & -> & Hkeep).
    exact (proj1 (Hkeep Hfresh)).
Qed.

Lemma fresh_request_per_call_witness :
  (exists r s',
     inference Detection [] 2560 2048 0.5%float (integer_fields sample_env)
       sample_state = (r, s')
     /\ trace s' =
          EvRpc (remote_call Detection
                   {| id := uuid4 sample_env (uuid_draws sample_state);
                      image_bytes := []; image_height := 2048;
                      image_width := 2560; channels := 3 |})
            30%float :: trace sample_state
     /\ uuid_draws s' = S (uuid_draws sample_state)
     /\ ~ In (uuid4 sample_env (uuid_draws sample_state))
             (request_ids (trace sample_state)))
  /\ (forall port host calls,
        NoDup (request_ids
                 (trace (snd ((InferenceClient port host ;; call_methods calls)
                                (integer_fields sample_env) initial_state))))).
Proof.
  destruct (fresh_request_per_call (integer_fields sample_env)
              decimal_uuid4_inj Detection sample_state [] 2560 2048 0.5%float)
    as [(r & s' & Hrun & Htrace & Hdraws & Hfresh) Hrun_all].
  - split; discriminate.
  - reflexivity.
  - split; [|exact Hrun_all].
    exists r, s'. split; [exact Hrun|]. split; [exact Htrace|].
    split; [exact Hdraws|]. apply Hfresh.
    split; [constructor|intros x []].
Defined.

(** C7 as stated fails: a call with a width of [2^64], which no integer
    field of a message holds, draws its uuid and raises the [ValueError] of
    the request's constructor; no request is sent. *)
Lemma oversized_request_is_not_sent :
  inference Detection [] (2 ^ 64) 2048 0.5%float (integer_fields sample_env)
    sample_state =
    (Raise out_of_range,
     {| self := self sample_state;
        uuid_draws := S (uuid_draws sample_state);
        trace := trace sample_state |})
  /\ inference Segmentation [] (2 ^ 64) 2048 0.5%float
       (integer_fields sample_env) sample_state =
       (Raise out_of_range,
        {| self := self sample_state;
           uuid_draws := S (uuid_draws sample_state);
           trace := trace sample_state |})
  /\ request_ids (trace sample_state) = [].
Proof. repeat split. Qed.

Example two_calls_two_ids :
  request_ids
    (trace (snd (call_methods
                   [ Infer Detection [] 2560 2048 0.5%float;
                     Infer Segmentation [] 2560 2048 0.5%float ]
                   sample_env sample_state)))
  = ["1"; "0"].
Proof. reflexivity. Qed.

(** C8.  Construction creates the channel once, with the maximum receive
    and send message sizes of 50 MiB (52428800 bytes), the keep-alive time of
    10000 ms and the keep-alive timeout of 5000 ms, whatever the port and
    the host; and the options of the client's channel are the same after any
    calls of its methods. *)
Theorem channel_options_are_fixed (env : Env) (s : State) (port : value)
    (host : string) :
  exists r s' address post pre,
    InferenceClient port host env s = (r, s')
    /\ trace s' =
         (post
            ++ EvChannelCreate address
                 [ ("grpc.max_receive_message_length", 52428800%Z);
                   ("grpc.max_send_message_length", 52428800%Z);
                   ("grpc.keepalive_time_ms", 10000%Z);
                   ("grpc.keepalive_timeout_ms", 5000%Z) ]
            :: pre ++ trace s)%list
    /\ Forall (fun ev => is_channel_create ev = false) post
    /\ Forall (fun ev => is_channel_create ev = false) pre
    /\ (52428800 = 50 * 1024 * 1024)%Z
    /\ (r = Return tt ->
        forall calls, exists ch,
          self_channel (self (snd (call_methods calls env s'))) = Some ch
          /\ target ch = address
          /\ options ch =
               [ ("grpc.max_receive_message_length", 52428800%Z);
                 ("grpc.max_send_message_length", 52428800%Z);
                 ("grpc.keepalive_time_ms", 10000%Z);
                 ("grpc.keepalive_timeout_ms", 5000%Z) ]).
Proof.
  destruct (construct_effect env s port host)
    as (r & s' & address & post & pre & Hrun & Htrace & [Hpost _] & [Hpre _]
        & _ & Hobj).
  exists r, s', address, post, pre.
  split; [exact Hrun|]. split; [exact Htrace|].
  split; [exact Hpost|]. split; [exact Hpre|]. split; [reflexivity|].
  intros -> calls. destruct Hobj as (Hch & _ & _).
  destruct (call_methods_effect env calls s') as (s2 & -> & [_ Hsame] & _).
  simpl. rewrite Hch in Hsame.
  destruct (self_channel (self s2)) as [ch|]; [|contradiction].
  exists ch. destruct Hsame as [Ht Ho]. simpl in Ht, Ho. auto.
Qed.

Lemma channel_options_are_fixed_witness :
  exists s' address,
    InferenceClient VNone "localhost" sample_env initial_state = (Return tt, s')
    /\ In (EvChannelCreate address
             [ ("grpc.max_receive_message_length", 52428800%Z);
               ("grpc.max_send_message_length", 52428800%Z);
               ("grpc.keepalive_time_ms", 10000%Z);
               ("grpc.keepalive_timeout_ms", 5000%Z) ]) (trace s')
    /\ forall calls, exists ch,
         self_channel (self (snd (call_methods calls sample_env s'))) = Some ch
         /\ target ch = address
         /\ options ch =
              [ ("grpc.max_receive_message_length", 52428800%Z);
                ("grpc.max_send_message_length", 52428800%Z);
                ("grpc.keepalive_time_ms", 10000%Z);
                ("grpc.keepalive_timeout_ms", 5000%Z) ].
Proof.
  destruct (channel_options_are_fixed sample_env initial_state VNone "localhost")
    as (r & s' & address & post & pre & Hrun & Htrace & _ & _ & _ & Hkeep).
  assert (Hr : r = Return tt) by (vm_compute in Hrun; congruence).
  exists s', address. split; [rewrite Hrun, Hr; reflexivity|].
  split; [|exact (Hkeep Hr)].
  rewrite Htrace. apply in_or_app. right. left. reflexivity.
Defined.

Example channel_after_calls :
  self_channel
    (self (snd ((InferenceClient VNone "localhost" ;;
                 call_methods [ CheckHealth;
                                Infer Detection [] 2560 2048 0.5%float; Close ])
                  sample_env initial_state)))
  = Some {| target := "localhost:60021";
            options := [ ("grpc.max_receive_message_length", 52428800%Z);
                         ("grpc.max_send_message_length", 52428800%Z);
                         ("grpc.keepalive_time_ms", 10000%Z);
                         ("grpc.keepalive_timeout_ms", 5000%Z) ];
            closed := true |}.
Proof. reflexivity. Qed.

(** Whatever the function returns, the command ends the process with
    status 0. *)
Lemma click_command_drops_value {A} (callback : M A) (world : World)
    (s s' : State) (a : A) :
  callback world s = (Return a, s') ->
  click_command callback world s = (SystemExit 0, s').
Proof. intros H. unfold click_command. rewrite H. reflexivity. Qed.

(** C9.  The claim fails on the code.  In each of the four setup failures
    (the service is down, the channel cannot be created, neither --image nor
    --folder is given, the folder holds no image) the function [main]
    returns 1, but the process exits with status 0: [main] is a click
    command, which drops the value and exits with 0, so [exit(main())] never
    sees the 1.  A batch that runs to completion exits with 0, also when
    images fail. *)
Theorem script_exits_zero_on_setup_failure :
  (forall image folder model port t host (world : World) s code s',
     main image folder model port t host world s = (Return code, s') ->
     click_command (main image folder model port t host) world s
       = (SystemExit 0, s'))
  /\ (fst (main (Some "scan.png") None both VNone 0.5%float "localhost"
          down_env initial_state) = Return 1%Z
   /\ fst (script (Some "scan.png") None both VNone 0.5%float "localhost"
             down_env initial_state) = SystemExit 0)
  /\ (fst (main (Some "scan.png") None both VNone 0.5%float "localhost"
             refusing_env initial_state) = Return 1%Z
      /\ fst (script (Some "scan.png") None both VNone 0.5%float "localhost"
                refusing_env initial_state) = SystemExit 0)
  /\ (fst (main None None both VNone 0.5%float "localhost"
             sample_env initial_state) = Return 1%Z
      /\ fst (script None None both VNone 0.5%float "localhost"
                sample_env initial_state) = SystemExit 0)
  /\ (fst (main None (Some "scans") both VNone 0.5%float "localhost"
             sample_env initial_state) = Return 1%Z
      /\ fst (script None (Some "scans") both VNone 0.5%float "localhost"
                sample_env initial_state) = SystemExit 0)
  /\ (fst (main None (Some "scans") both VNone 0.5%float "localhost"
             batch_env initial_state) = Return 0%Z
      /\ exit_status
           (fst (script None (Some "scans") both VNone 0.5%float "localhost"
                   batch_env initial_state)) = 0%Z).
Proof.
  split.
  - intros image folder model port t host world s code s' H.
    exact (click_command_drops_value _ world s s' code H).
  - repeat split.
Qed.

Example batch_with_failures :
  let run := main None (Some "scans") both VNone 0.5%float "localhost"
               batch_env initial_state in
  fst run = Return 0%Z
  /\ images_in (trace (snd run)) = ["scans/b.png"; "scans/a.jpg"].
Proof. split; reflexivity. Qed.

Example batch_without_images :
  fst (main None (Some "scans") both VNone 0.5%float "localhost"
         sample_env initial_state) = Return 1%Z.
Proof. reflexivity. Qed.

Example batch_without_service :
  fst (main (Some "scan.png") None both VNone 0.5%float "localhost"
         down_env initial_state) = Return 1%Z
  /\ fst (main (Some "scan.png") None both VNone 0.5%float "localhost"
            refusing_env initial_state) = Return 1%Z
  /\ fst (main None None both VNone 0.5%float "localhost"
            sample_env initial_state) = Return 1%Z.
Proof. repeat split. Qed.

(** C10.  When a candidate file loads and holds a value [v] under the nested
    [ServerPort] key: if [v] is falsy (0, null, the empty string, ...) the
    loop does not return it and goes on with the remaining candidates as if
    the key were absent, ending with 60021 when none is left; if [v] is
    truthy it is returned as it is, whatever its type. *)
Theorem falsy_server_port_is_skipped (env : Env) (s : State)
    (path : string) (rest : list string) (config v : value)
    (Hfile : fs env path = Some (Return config))
    (Hkey : nested server_port_keys config = Some v) :
  (truthy v = false ->
     port_from_paths (path :: rest) env s =
       port_from_paths rest env (add_events [EvOpen path; EvExists path] s))
  /\ (truthy v = true ->
      port_from_paths (path :: rest) env s =
        (Return v,
         add_events [EvPrint (MsgReadPort v path); EvOpen path; EvExists path] s))
  /\ port_from_paths [] env s =
       (Return (VInt 60021), add_events [EvPrint MsgDefaultPort] s)
  /\ _get_port_from_config env s =
       port_from_paths [ "C:\Ripcord\settings\workcell_base.json";
                         "C:\Ripcord\settings\workcell.json" ] env s
  /\ truthy (VInt 0) = false /\ truthy VNone = false /\ truthy (VStr "") = false.
Proof.
  repeat split.
  - intros Hv. rewrite port_from_paths_cons.
    rewrite (try_config_path_loaded _ _ _ _ Hfile).
    rewrite (nested_server_port _ _ Hkey), Hv. reflexivity.
  - intros Hv. rewrite port_from_paths_cons.
    rewrite (try_config_path_loaded _ _ _ _ Hfile).
    rewrite (nested_server_port _ _ Hkey), Hv. reflexivity.
Qed.

Lemma falsy_server_port_is_skipped_witness :
  let env := files_env (Some (Return (config_with (VInt 0))))
               (Some (Return (config_with (VStr "8080")))) in
  let path := "C:\Ripcord\settings\workcell_base.json" in
  let rest := ["C:\Ripcord\settings\workcell.json"] in
  port_from_paths (path :: rest) env initial_state =
    port_from_paths rest env
      (add_events [EvOpen path; EvExists path] initial_state)
  /\ _get_port_from_config env initial_state =
       port_from_paths (path :: rest) env initial_state.
Proof.
  destruct (falsy_server_port_is_skipped
              (files_env (Some (Return (config_with (VInt 0))))
                 (Some (Return (config_with (VStr "8080")))))
              initial_state "C:\Ripcord\settings\workcell_base.json"
              ["C:\Ripcord\settings\workcell.json"]
              (config_with (VInt 0)) (VInt 0))
    as (Hfalsy & _ & _ & Hpaths & _).
  - reflexivity.
  - reflexivity.
  - split; [apply Hfalsy; reflexivity|exact Hpaths].
Defined.

(** A zero in the first file and a string in the second: the string is the
    port; a zero in both: the default. *)
Example port_zero_then_string :
  fst (_get_port_from_config
         (files_env (Some (Return (config_with (VInt 0))))
            (Some (Return (config_with (VStr "8080")))))
         initial_state) = Return (VStr "8080").
Proof. reflexivity. Qed.

Example port_zero_twice :
  fst (_get_port_from_config
         (files_env (Some (Return (config_with (VInt 0))))
            (Some (Return (config_with VNone))))
         initial_state) = Return (VInt 60021).
Proof. reflexivity. Qed.

(** * Beyond the claims *)

(** ** The context manager *)

(** [__enter__] returns [self]. *)
Definition __enter__ : M unit := ret tt.

(** [__exit__(exc_type, exc_val, exc_tb)] closes the client; it has no
    [return], so its value is [None]. *)
Definition __exit__ (exc : option exn) : M value := close ;; ret VNone.

(** [with InferenceClient(port, host) as client: body].  The value is [None]
    when [__exit__] swallows the exception of the body, which a true value
    of [__exit__] asks for. *)
Definition with_client {A} (port : value) (host : string) (body : M A)
    : M (option A) :=
  InferenceClient port host ;;
  __enter__ ;;
  fun env s =>
    match body env s with
    | (Return a, s1) => (__exit__ None ;; ret (Some a)) env s1
    | (Raise e, s1) =>
        (swallow <- __exit__ (Some e) ;;
         if truthy swallow then ret None else raise e) env s1
    end.

(** ** Events a program adds *)

(** [s'] is [s] with the same client object and more events, each of which
    satisfies [Q]. *)
Definition adds (Q : Event -> bool) (s s' : State) : Prop :=
  self s' = self s
  /\ exists evs, trace s' = (evs ++ trace s)%list /\ forallb Q evs = true.

(** A program that keeps the client object and adds only events that
    satisfy [Q]. *)
Definition only {A} (Q : Event -> bool) (m : M A) : Prop :=
  forall (env : Env) s, exists r s', m env s = (r, s') /\ adds Q s s'.

Definition is_close (ev : Event) : bool :=
  match ev with
  | EvChannelClose => true
  | _ => false
  end.

(** An inference request is for the canvas of the runner and of the worker:
    2560 by 2048 pixels, 3 channels, sent with a timeout of 30 seconds. *)
Definition on_canvas (ev : Event) : bool :=
  match ev with
  | EvRpc (DetectObjects request) timeout
  | EvRpc (SegmentSheets request) timeout =>
      (image_width request =? 2560)%Z && (image_height request =? 2048)%Z
      && (channels request =? 3)%Z && (timeout =? 30)%float
  | _ => true
  end.

Definition is_inference (ev : Event) : bool :=
  match ev with
  | EvRpc (DetectObjects _) _ | EvRpc (SegmentSheets _) _ => true
  | _ => false
  end.

(** [Q] holds of every console line, and of every inference request for the
    canvas. *)
Definition admits_prints (Q : Event -> bool) : Prop :=
  forall m, Q (EvPrint m) = true.

Definition admits_canvas (Q : Event -> bool) : Prop :=
  forall op rid image,
    Q (EvRpc (remote_call op
                {| id := rid; image_bytes := image; image_height := 2048;
                   image_width := 2560; channels := 3 |}) 30%float) = true.

Lemma adds_refl Q s : adds Q s s.
Proof. split; [reflexivity|]. exists []. split; reflexivity. Qed.

Lemma adds_trans Q s1 s2 s3 : adds Q s1 s2 -> adds Q s2 s3 -> adds Q s1 s3.
Proof.
  intros [Ha (e1 & Hb & Hc)] [Hd (e2 & He & Hf)]. split; [congruence|].
  exists (e2 ++ e1)%list. split.
  - rewrite He, Hb. apply app_assoc.
  - rewrite forallb_app, Hc, Hf. reflexivity.
Qed.

Lemma only_ret {A} Q (a : A) : only Q (ret a).
Proof. intros env s. exists (Return a), s. split; [reflexivity|apply adds_refl]. Qed.

Lemma only_ask Q : only Q ask.
Proof.
  intros env s. exists (Return (reliable env)), s.
  split; [reflexivity|apply adds_refl].
Qed.

Lemma only_lift {A} Q (r : result A) : only Q (lift r).
Proof. intros env s. exists r, s. split; [reflexivity|apply adds_refl]. Qed.

Lemma only_print Q (m : Message) : admits_prints Q -> only Q (print m).
Proof.
  intros HQ env s. eexists; eexists; split; [reflexivity|].
  split; [reflexivity|]. exists [EvPrint m]. split; [reflexivity|].
  simpl. rewrite HQ. reflexivity.
Qed.

Lemma only_bind {A B} Q (m : M A) (k : A -> M B) :
  only Q m -> (forall a, only Q (k a)) -> only Q (bind m k).
Proof.
  intros Hm Hk env s. unfold bind.
  destruct (Hm env s) as (r & s1 & -> & Hp1).
  destruct r as [a|e]; [|eauto].
  destruct (Hk a env s1) as (r & s2 & -> & Hp2).
  exists r, s2. split; [reflexivity|eapply adds_trans; eauto].
Qed.

Lemma only_try_except {A} Q (body : M A) handles (handler : exn -> M A) :
  only Q body -> (forall e, only Q (handler e)) ->
  only Q (try_except body handles handler).
Proof.
  intros Hb Hh env s. unfold try_except.
  destruct (Hb env s) as (r & s1 & -> & Hp1).
  destruct r as [a|e]; [eauto|].
  destruct (handles e); [|eauto].
  destruct (Hh e env s1) as (r & s2 & -> & Hp2).
  exists r, s2. split; [reflexivity|eapply adds_trans; eauto].
Qed.

Lemma only_inference Q op image t :
  admits_canvas Q -> only Q (inference op image 2560 2048 t).
Proof.
  intros HQ env s.
  destruct (inference_effect op env s image 2560 2048 t)
    as (r & s' & -> & Hself & _ & Htrace).
  exists r, s'. split; [reflexivity|]. split; [exact Hself|].
  destruct Htrace as [[_ ->]|[_ ->]].
  - exists []. split; reflexivity.
  - eexists [_]. split; [reflexivity|]. simpl.
    unfold request_in. rewrite HQ. reflexivity.
Qed.

Lemma only_process_image Q model t idx total path :
  admits_prints Q -> admits_canvas Q ->
  only Q (process_image model t idx total path).
Proof.
  intros Hp Hc. unfold process_image, load_bytes.
  apply only_bind; [apply only_print, Hp|]. intros _.
  apply only_try_except; [|intros e; apply only_print, Hp].
  apply only_bind; [apply only_print, Hp|]. intros _.
  apply only_bind.
  { apply only_bind; [apply only_ask|]. intros env0. apply only_lift. }
  intros image. apply only_bind.
  - destruct (runs_detection model); [|apply only_ret].
    apply only_bind; [apply only_print, Hp|]. intros _.
    apply only_bind; [apply (only_inference Q Detection), Hc|].
    intros r. apply only_print, Hp.
  - intros _. destruct (runs_segmentation model); [|apply only_ret].
    apply only_bind; [apply only_print, Hp|]. intros _.
    apply only_bind; [apply (only_inference Q Segmentation), Hc|].
    intros r. apply only_print, Hp.
Qed.

Lemma only_process_images Q model t total image_paths :
  admits_prints Q -> admits_canvas Q ->
  forall idx, only Q (process_images model t idx total image_paths).
Proof.
  intros Hp Hc. induction image_paths as [|path rest IH]; intros idx; simpl.
  - apply only_ret.
  - apply only_bind; [apply only_process_image; assumption|].
    intros _. apply IH.
Qed.

Lemma SFleb_trans (x y z : spec_float) :
  SFleb x y = true -> SFleb y z = true -> SFleb x z = true.
Proof.
  unfold SFleb.
  destruct x as [sx|sx| |sx mx ex], y as [sy|sy| |sy my ey],
    z as [sz|sz| |sz mz ez];
    simpl; try discriminate; try reflexivity;
    try (destruct sx; try discriminate; try reflexivity);
    try (destruct sy; try discriminate; try reflexivity);
    try (destruct sz; try discriminate; try reflexivity);
    try (intros; discriminate); try (intros; reflexivity).
  all: change (PosDef.Pos.compare_cont Eq mx my) with (mx ?= my)%positive;
    change (PosDef.Pos.compare_cont Eq my mz) with (my ?= mz)%positive;
    change (PosDef.Pos.compare_cont Eq mx mz) with (mx ?= mz)%positive;
    destruct (Z.compare_spec ex ey), (Z.compare_spec ey ez),
      (Z.compare_spec ex ez);
    try lia; simpl; try discriminate; try reflexivity;
    destruct (Pos.compare_spec mx my), (Pos.compare_spec my mz),
      (Pos.compare_spec mx mz); simpl; try discriminate; try reflexivity; lia.
Qed.

Lemma leb_trans (a b c : float) :
  (a <=? b)%float = true -> (b <=? c)%float = true -> (a <=? c)%float = true.
Proof. rewrite !leb_spec. apply SFleb_trans. Qed.

Lemma filter_filter_weaker {A} (p q : A -> bool) (l : list A) :
  (forall x, q x = true -> p x = true) ->
  filter q (filter p l) = filter q l.
Proof.
  intros H. induction l as [|x l IH]; simpl; [reflexivity|].
  destruct (p x) eqn:Hp; simpl.
  - rewrite IH. reflexivity.
  - destruct (q x) eqn:Hq; [|exact IH].
    rewrite (H x Hq) in Hp. discriminate.
Qed.

Lemma filter_length_le {A} (p : A -> bool) (l : list A) :
  List.length (filter p l) <= List.length l.
Proof.
  induction l as [|x l IH]; simpl; [lia|]. destruct (p x); simpl; lia.
Qed.

Lemma inference_keeps_channel op (env : Env) image w h t :
  forall s0 r s1,
    inference op image w h t env s0 = (r, s1) -> same_channel s0 s1.
Proof.
  intros s0 r s1 Hrun.
  destruct (inference_effect op env s0 image w h t)
    as (r' & s' & Hrun' & Hself & _).
  apply same_channel_self. congruence.
Qed.

(** ** Properties of the client beyond the claims *)

(** X1.  In [with InferenceClient(port, host) as client: body], with a body
    that leaves the channel and the stub of the client in place: when
    construction fails, its exception goes on and the body does not run;
    otherwise the block ends with one [close()], which leaves the channel
    closed, and then gives the value of the body or raises the exception of
    the body again, since [__exit__] returns [None]. *)
Theorem with_client_closes {A} (body : M A) (env : Env) (s : State)
    (port : value) (host : string)
    (Hbody : forall s0 r s1, body env s0 = (r, s1) -> same_channel s0 s1) :
  match InferenceClient port host env s with
  | (Raise e, s0) => with_client port host body env s = (Raise e, s0)
  | (Return _, s0) =>
      exists s2 ch,
        with_client port host body env s =
          (match fst (body env s0) with
           | Return a => Return (Some a)
           | Raise e => Raise e
           end, s2)
        /\ trace s2 =
             EvPrint MsgClosed :: EvChannelClose :: trace (snd (body env s0))
        /\ self_channel (self s2) = Some ch /\ closed ch = true
  end.
Proof.
  destruct (construct_effect env s port host)
    as (r & s0 & address & post & pre & Hrun & _ & _ & _ & _ & Hobj).
  rewrite Hrun.
  destruct r as [[]|e]; cbv iota; unfold with_client; unfold bind at 1;
    rewrite Hrun; [|reflexivity].
  unfold bind at 1, __enter__, ret at 1.
  destruct (body env s0) as [rb s1] eqn:Hb.
  pose proof (Hbody s0 rb s1 Hb) as [_ Hsame].
  destruct Hobj as (Hch & _ & _). rewrite Hch in Hsame.
  destruct (self_channel (self s1)) as [ch1|] eqn:Hch1; [|contradiction].
  destruct rb as [a|e]; unfold __exit__; unfold bind; rewrite close_run, Hch1;
    simpl; eexists; eexists; (split; [reflexivity|]); repeat split.
Qed.

Lemma with_client_closes_witness :
  exists s2 ch,
    with_client VNone "localhost"
      (inference Segmentation [] 2560 2048 0.5%float) batch_env initial_state =
      (Raise (PlainException
                "Sheet segmentation failed: StatusCode.DEADLINE_EXCEEDED - Deadline Exceeded"),
       s2)
    /\ trace s2 =
         EvPrint MsgClosed :: EvChannelClose
           :: trace (snd (inference Segmentation [] 2560 2048 0.5%float batch_env
                            (snd (InferenceClient VNone "localhost" batch_env
                                    initial_state))))
    /\ self_channel (self s2) = Some ch /\ closed ch = true.
Proof.
  exact (with_client_closes (inference Segmentation [] 2560 2048 0.5%float)
           batch_env initial_state VNone "localhost"
           (inference_keeps_channel Segmentation batch_env [] 2560 2048
              0.5%float)).
Defined.

(** X2.  Only [grpc.RpcError] is wrapped: when the remote call of
    detect_objects or segment_sheets raises any other exception, the call
    raises that very exception, after the one remote call; and on a client
    without a stub the call raises [AttributeError] and sends nothing. *)
Theorem other_errors_pass_through (op : operation) (env : Env) (s : State)
    (image : list Byte.byte) (w h : Z) (t : float) (e : exn)
    (Hconn : connected s)
    (Hfail : service op env (trace s) (request_in env s image w h) = Raise e)
    (Hother : is_RpcError e = false) :
  (exists s',
     inference op image w h t env s = (Raise e, s')
     /\ trace s' =
          EvRpc (remote_call op (request_in env s image w h)) 30%float :: trace s)
  /\ (forall s0,
        self_stub (self s0) = None ->
        exists s',
          inference op image w h t env s0 = (Raise (AttributeError "stub"), s')
          /\ trace s' = trace s0).
Proof.
  split.
  - destruct Hconn as [_ Hstub].
    rewrite (inference_raise op env s image w h t e Hstub Hfail).
    destruct e; try discriminate; eexists; split; reflexivity.
  - intros s0 Hnone. rewrite (inference_no_stub op env s0 image w h t Hnone).
    eexists. split; reflexivity.
Qed.

(** A service whose channel was closed: the stub raises [ValueError]. *)
Definition closed_env : Env :=
  {| fs := fun _ => None;
     py_str := sample_str;
     uuid4 := decimal_uuid4;
     insecure_channel_error := fun _ => None;
     SERVING := 1;
     svc_Check := fun _ => Return 1%Z;
     svc_DetectObjects :=
       fun _ _ => Raise (OtherError "ValueError"
                           "Cannot invoke RPC on closed channel!");
     svc_SegmentSheets := fun _ _ => Return sample_response;
     glob := fun _ _ => [];
     load_image := fun _ => Return [] |}.

Lemma other_errors_pass_through_witness :
  (exists s',
     inference Detection [] 2560 2048 0.5%float closed_env sample_state =
       (Raise (OtherError "ValueError" "Cannot invoke RPC on closed channel!"),
        s')
     /\ trace s' =
          EvRpc (remote_call Detection
                   (request_in closed_env sample_state [] 2560 2048)) 30%float
            :: trace sample_state)
  /\ exists s',
       inference Detection [] 2560 2048 0.5%float closed_env initial_state =
         (Raise (AttributeError "stub"), s')
       /\ trace s' = trace initial_state.
Proof.
  destruct (other_errors_pass_through Detection closed_env sample_state []
              2560 2048 0.5%float
              (OtherError "ValueError" "Cannot invoke RPC on closed channel!"))
    as [Hraise Hnone].
  - split; discriminate.
  - reflexivity.
  - reflexivity.
  - split; [exact Hraise|]. apply Hnone. reflexivity.
Defined.

(** X3.  On a connected client check_health sends one [Check] call with a
    timeout of 5 seconds and nothing else to the service; it leaves the
    client object and the uuid generator as they were, and apart from the
    call it only prints, one line at most. *)
Theorem check_health_probes_once (env : Env) (s : State) (Hconn : connected s) :
  exists b s' prints,
    check_health env s = (Return b, s')
    /\ trace s' = (prints ++ EvRpc Check 5%float :: trace s)%list
    /\ List.length prints <= 1
    /\ Forall (fun ev => exists m, ev = EvPrint m) prints
    /\ self s' = self s
    /\ uuid_draws s' = uuid_draws s.
Proof.
  rewrite check_health_run. destruct Hconn as [_ Hstub].
  destruct (self_stub (self s)); [|congruence].
  destruct (svc_Check env (trace s)) as [status|e].
  - eexists; eexists; exists []. repeat split; simpl; auto.
  - destruct e; eexists; eexists; eexists [_];
      (split; [reflexivity|]); repeat split; simpl; eauto.
Qed.

Lemma check_health_probes_once_witness :
  exists b s' prints,
    check_health down_env sample_state = (Return b, s')
    /\ trace s' = (prints ++ EvRpc Check 5%float :: trace sample_state)%list
    /\ List.length prints <= 1
    /\ Forall (fun ev => exists m, ev = EvPrint m) prints
    /\ self s' = self sample_state
    /\ uuid_draws s' = uuid_draws sample_state.
Proof.
  apply (check_health_probes_once down_env sample_state).
  split; discriminate.
Defined.

(** X4.  The filter composes: when the service answers with [P], what a call
    returns for a threshold [t2] is what filtering by [t2] leaves of the
    predictions returned for any lower threshold [t1], so a caller holding
    the result for [t1] need not ask again; and the count for [t2] is at most
    the count for [t1]. *)
Theorem refiltering_a_result (op : operation) (env : Env) (s : State)
    (image : list Byte.byte) (w h : Z) (t1 t2 : float) (P : list Prediction)
    (Hconn : connected s)
    (Hresp : service op env (trace s) (request_in env s image w h) = Return P)
    (Hle : (t1 <=? t2)%float = true) :
  exists r1 r2 s1 s2,
    inference op image w h t1 env s = (Return r1, s1)
    /\ inference op image w h t2 env s = (Return r2, s2)
    /\ predictions r2 =
         filter (fun d => (t2 <=? pd_confidence d)%float) (predictions r1)
    /\ prediction_count r2 <= prediction_count r1.
Proof.
  destruct Hconn as [_ Hstub].
  rewrite (inference_answer op env s image w h t1 P Hstub Hresp).
  rewrite (inference_answer op env s image w h t2 P Hstub Hresp).
  eexists; eexists; eexists; eexists.
  split; [reflexivity|]. split; [reflexivity|]. simpl.
  assert (Hweak : filter (passes t2) (filter (passes t1) P) = filter (passes t2) P).
  { apply filter_filter_weaker. intros x Hx. unfold passes in *.
    eapply leb_trans; eauto. }
  split.
  - rewrite <- (map_filter_commute (prediction_dict op)
                  (fun d => (t2 <=? pd_confidence d)%float)).
    f_equal. rewrite <- Hweak. apply filter_ext. intros pred.
    rewrite prediction_dict_confidence. reflexivity.
  - rewrite !length_map, <- Hweak. apply filter_length_le.
Qed.

Lemma refiltering_a_result_witness :
  exists r1 r2 s1 s2,
    inference Segmentation [] 2560 2048 0.5%float sample_env sample_state
      = (Return r1, s1)
    /\ inference Segmentation [] 2560 2048 0.93%float sample_env sample_state
       = (Return r2, s2)
    /\ predictions r2 =
         filter (fun d => (0.93 <=? pd_confidence d)%float) (predictions r1)
    /\ prediction_count r2 <= prediction_count r1.
Proof.
  apply (refiltering_a_result Segmentation sample_env sample_state [] 2560 2048
           0.5%float 0.93%float sample_response).
  - split; discriminate.
  - reflexivity.
  - reflexivity.
Defined.

(** ** Events of the command-line runner *)

(** An event of the setup: no inference request, no [close()] of the channel
    and no image taken up. *)
Definition calm (ev : Event) : bool :=
  negb (is_inference ev) && negb (is_close ev)
  && match image_of ev with [] => true | _ => false end.

(** An event of the batch: no [close()], and a request only for the
    canvas. *)
Definition of_batch (ev : Event) : bool := negb (is_close ev) && on_canvas ev.

Lemma calm_of_batch evs : forallb calm evs = true -> forallb of_batch evs = true.
Proof.
  induction evs as [|ev evs IH]; simpl; [reflexivity|].
  intros H. apply andb_true_iff in H. destruct H as [Hev Hevs].
  rewrite (IH Hevs), andb_true_r.
  destruct ev as [ | | | |[ | | ]| ]; try reflexivity; discriminate.
Qed.

Lemma calm_request_ids evs : forallb calm evs = true -> request_ids evs = [].
Proof.
  induction evs as [|ev evs IH]; simpl; [reflexivity|].
  intros H. apply andb_true_iff in H. destruct H as [Hev Hevs].
  unfold request_ids in *. simpl. rewrite (IH Hevs), app_nil_r.
  destruct ev as [ | | | |[ | | ]| ]; try reflexivity; discriminate.
Qed.

Lemma calm_images_in evs : forallb calm evs = true -> images_in evs = [].
Proof.
  induction evs as [|ev evs IH]; simpl; [reflexivity|].
  intros H. apply andb_true_iff in H. destruct H as [Hev Hevs].
  unfold images_in in *. simpl. rewrite (IH Hevs), app_nil_r.
  unfold calm in Hev. destruct (image_of ev); [reflexivity|].
  rewrite andb_false_r in Hev. discriminate.
Qed.

Lemma calm_no_close evs : forallb calm evs = true -> filter is_close evs = [].
Proof.
  induction evs as [|ev evs IH]; simpl; [reflexivity|].
  intros H. apply andb_true_iff in H. destruct H as [Hev Hevs].
  rewrite (IH Hevs). destruct ev; try reflexivity; discriminate.
Qed.

Lemma of_batch_no_close evs :
  forallb of_batch evs = true -> filter is_close evs = [].
Proof.
  induction evs as [|ev evs IH]; simpl; [reflexivity|].
  intros H. apply andb_true_iff in H. destruct H as [Hev Hevs].
  rewrite (IH Hevs). destruct ev; try reflexivity; discriminate.
Qed.

Lemma of_batch_on_canvas evs :
  forallb of_batch evs = true -> forallb on_canvas evs = true.
Proof.
  induction evs as [|ev evs IH]; simpl; [reflexivity|].
  intros H. apply andb_true_iff in H. destruct H as [Hev Hevs].
  rewrite (IH Hevs), andb_true_r. unfold of_batch in Hev.
  apply andb_true_iff in Hev. tauto.
Qed.

(** The setup adds calm events only and draws no uuid. *)
Definition setup_step (s s' : State) : Prop :=
  uuid_draws s' = uuid_draws s
  /\ exists evs, trace s' = (evs ++ trace s)%list /\ forallb calm evs = true.

Lemma setup_step_refl s : setup_step s s.
Proof. split; [reflexivity|]. exists []. split; reflexivity. Qed.

Lemma setup_step_trans s1 s2 s3 :
  setup_step s1 s2 -> setup_step s2 s3 -> setup_step s1 s3.
Proof.
  intros [Ha (e1 & Hb & Hc)] [Hd (e2 & He & Hf)]. split; [congruence|].
  exists (e2 ++ e1)%list. split.
  - rewrite He, Hb. apply app_assoc.
  - rewrite forallb_app, Hc, Hf. reflexivity.
Qed.

Lemma setup_step_events evs s :
  forallb calm evs = true -> setup_step s (add_events evs s).
Proof. intros H. split; [reflexivity|]. exists evs. split; [reflexivity|exact H]. Qed.

Lemma try_config_path_setup (env : Env) s path :
  exists r s', try_config_path path env s = (Return r, s') /\ setup_step s s'.
Proof.
  destruct (fs env path) as [[config|e]|] eqn:H.
  - rewrite (try_config_path_loaded _ _ _ _ H).
    destruct (config_server_port config) as [port|e].
    + destruct (truthy port); eexists; eexists; (split; [reflexivity|]);
        apply setup_step_events; reflexivity.
    + eexists; eexists; split; [reflexivity|].
      apply setup_step_events; reflexivity.
  - rewrite (try_config_path_unreadable _ _ _ _ H).
    eexists; eexists; split; [reflexivity|]. apply setup_step_events; reflexivity.
  - rewrite (try_config_path_missing _ _ _ H).
    eexists; eexists; split; [reflexivity|]. apply setup_step_events; reflexivity.
Qed.

Lemma port_from_paths_setup (env : Env) paths :
  forall s, exists port s',
    port_from_paths paths env s = (Return port, s') /\ setup_step s s'.
Proof.
  induction paths as [|path rest IH]; intros s.
  - rewrite port_from_paths_nil. eexists; eexists; split; [reflexivity|].
    apply setup_step_events; reflexivity.
  - rewrite port_from_paths_cons.
    destruct (try_config_path_setup env s path) as (r & s1 & -> & Hstep).
    destruct r as [port|]; [eauto|].
    destruct (IH s1) as (port & s2 & -> & Hstep2).
    eexists; eexists; split; [reflexivity|].
    eapply setup_step_trans; eauto.
Qed.

Lemma construct_setup (env : Env) s port host :
  exists r s', InferenceClient port host env s = (r, s') /\ setup_step s s'.
Proof.
  rewrite construct_run.
  assert (Hconnect : forall p s0, exists r s',
            connect_outcome env p host s0 = (r, s') /\ setup_step s0 s').
  { intros p s0. unfold connect_outcome.
    destruct (insecure_channel_error env (host ++ ":" ++ py_str env p));
      eexists; eexists; (split; [reflexivity|]); (split; [reflexivity|]).
    - eexists [_]. split; reflexivity.
    - eexists [_; _]. split; reflexivity. }
  assert (Hnew : setup_step s
                   {| self := new_object; uuid_draws := uuid_draws s;
                      trace := trace s |})
    by (split; [reflexivity|]; exists []; split; reflexivity).
  destruct (value_is_none port) as [->|Hport].
  - rewrite init_from_config. unfold _get_port_from_config.
    destruct (port_from_paths_setup env config_paths
                {| self := new_object; uuid_draws := uuid_draws s;
                   trace := trace s |}) as (p & s1 & -> & Hstep).
    destruct (Hconnect p s1) as (r & s2 & -> & Hstep2).
    eexists; eexists; split; [reflexivity|].
    exact (setup_step_trans _ _ _ Hnew (setup_step_trans _ _ _ Hstep Hstep2)).
  - rewrite (init_explicit _ _ _ _ Hport).
    destruct (Hconnect port
                {| self := new_object; uuid_draws := uuid_draws s;
                   trace := trace s |}) as (r & s2 & -> & Hstep2).
    eexists; eexists; split; [reflexivity|].
    exact (setup_step_trans _ _ _ Hnew Hstep2).
Qed.

Lemma check_health_setup (env : Env) s :
  exists b s', check_health env s = (Return b, s') /\ setup_step s s'
               /\ self s' = self s.
Proof.
  rewrite check_health_run.
  destruct (self_stub (self s)).
  - destruct (svc_Check env (trace s)) as [status|e].
    + eexists; eexists; split; [reflexivity|].
      split; [apply setup_step_events|]; reflexivity.
    + destruct e; eexists; eexists; (split; [reflexivity|]);
        (split; [apply setup_step_events|]); reflexivity.
  - eexists; eexists; split; [reflexivity|].
    split; [apply setup_step_events|]; reflexivity.
Qed.

Lemma admits_prints_of_batch : admits_prints of_batch.
Proof. intros m. reflexivity. Qed.

Lemma admits_canvas_of_batch : admits_canvas of_batch.
Proof. intros [ | ] rid image; reflexivity. Qed.

(** What [main] adds to the trace after a good health check. *)
Lemma run_batch_events image folder model t address (env : Env) s :
  self_channel (self s) <> None ->
  exists code s' evs,
    run_batch image folder model t address env s = (Return code, s')
    /\ ((code = 1%Z /\ setup_step s s' /\ self s' = self s)
        \/ (code = 0%Z
            /\ trace s' =
                 (EvPrint (MsgCli "✓ Profiling complete") :: EvPrint MsgClosed
                    :: EvChannelClose :: evs ++ trace s)%list
            /\ forallb of_batch evs = true)).
Proof.
  intros Hch. unfold run_batch. unfold bind at 1. unfold print at 1, emit; cbn [console_error reliable].
  cbv beta iota. unfold bind at 1, ask at 1. cbv beta iota.
  cbn [env_of reliable].
  destruct (collect_image_paths env image folder) as [[|path rest]|].
  - eexists; eexists; exists []. split; [reflexivity|]. left.
    split; [reflexivity|]. split; [|reflexivity]. split; [reflexivity|].
    eexists [_; _]. split; reflexivity.
  - set (image_paths := path :: rest).
    unfold bind at 1. unfold print at 1, emit; cbn [console_error reliable]. cbv beta iota. unfold bind at 1.
    match goal with
    | |- context [process_images model t 1 ?n image_paths (reliable env) ?s0] =>
        destruct (only_process_images of_batch model t n image_paths
                    admits_prints_of_batch admits_canvas_of_batch 1 env s0)
          as (r & s1 & Hrun & Hself & evs & Htrace & Hevs);
        destruct (process_images_effect model t n image_paths env 1 s0)
          as (s1' & Hrun' & _)
    end.
    rewrite Hrun in Hrun'. injection Hrun' as -> <-. rewrite Hrun.
    cbv beta iota. unfold bind at 1. unfold print at 1, emit; cbn [console_error reliable]. cbv beta iota.
    unfold bind at 1. unfold print at 1, emit; cbn [console_error reliable]. cbv beta iota.
    unfold bind at 1. rewrite close_run.
    cbn [self]. rewrite Hself. cbn [self].
    destruct (self_channel (self s)) as [ch|]; [|congruence].
    eexists; eexists.
    exists (EvPrint (MsgImagesProcessed (List.length image_paths))
              :: EvPrint (MsgCli "  PROFILING SUMMARY")
              :: evs ++ [EvPrint (MsgProcessing (List.length image_paths));
                         EvPrint (MsgHealthy address)])%list.
    split; [reflexivity|]. right. split; [reflexivity|]. split.
    + cbn [trace]. rewrite Htrace. cbn [trace]. cbn [app].
      rewrite <- app_assoc. reflexivity.
    + cbn [forallb]. rewrite forallb_app, Hevs. reflexivity.
  - eexists; eexists; exists []. split; [reflexivity|]. left.
    split; [reflexivity|]. split; [|reflexivity]. split; [reflexivity|].
    eexists [_; _]. split; reflexivity.
Qed.

(** What [main] adds to the trace: calm events when it returns 1; when it
    returns 0, events of the batch, then one [close()] and two lines. *)
Lemma main_trace image folder model port t host (env : Env) s :
  exists code s' evs,
    main image folder model port t host env s = (Return code, s')
    /\ ((code = 1%Z /\ trace s' = (evs ++ trace s)%list
         /\ forallb calm evs = true /\ uuid_draws s' = uuid_draws s
         /\ self s' = self (snd (InferenceClient port host env s)))
        \/ (code = 0%Z
            /\ trace s' =
                 (EvPrint (MsgCli "✓ Profiling complete") :: EvPrint MsgClosed
                    :: EvChannelClose :: evs ++ trace s)%list
            /\ forallb of_batch evs = true)).
Proof.
  rewrite main_run.
  destruct (construct_effect env s port host)
    as (r & s1 & address & post & pre & Hrun & _ & _ & _ & _ & Hobj).
  destruct (construct_setup env s port host) as (r' & s1' & Hrun' & Hstep1).
  rewrite Hrun in Hrun'. injection Hrun' as <- <-. rewrite Hrun.
  assert (Hlines : forall evs0 s0, forallb calm evs0 = true ->
            setup_step s s0 ->
            exists evs, trace (add_events evs0 s0) = (evs ++ trace s)%list
                        /\ forallb calm evs = true
                        /\ uuid_draws (add_events evs0 s0) = uuid_draws s).
  { intros evs0 s0 Hevs0 [Hdraws (evs & Htrace & Hevs)].
    exists (evs0 ++ evs)%list. simpl. rewrite Htrace, app_assoc.
    split; [reflexivity|]. rewrite forallb_app, Hevs0, Hevs. auto. }
  destruct r as [[]|e].
  - destruct Hobj as (Hch & _ & Haddr).
    assert (Hstep1' : setup_step s (health_state s1)).
    { eapply setup_step_trans; [exact Hstep1|].
      apply setup_step_events. reflexivity. }
    destruct (check_health_setup env (health_state s1))
      as (b & s2 & Hhealth & Hstep2 & Hself).
    pose proof (setup_step_trans _ _ _ Hstep1' Hstep2) as Hstep.
    rewrite Hhealth. destruct b.
    + rewrite Hself. cbn [health_state add_events self]. rewrite Haddr.
      destruct (run_batch_events image folder model t address env s2)
        as (code & s' & evs & Hbatch & Hcases).
      { rewrite Hself. cbn [health_state add_events self]. congruence. }
      rewrite Hbatch.
      destruct Hcases as [(-> & Hstep3 & Hself3)|(-> & Htrace & Hevs)].
      * destruct (setup_step_trans _ _ _ Hstep Hstep3)
          as [Hdraws (evs' & Htrace & Hevs)].
        exists 1%Z, s', evs'. split; [reflexivity|]. left.
        repeat split; auto; try (rewrite Hself3, Hself; reflexivity).
      * destruct Hstep as [_ (evs' & Htrace' & Hevs')].
        exists 0%Z, s', (evs ++ evs')%list. split; [reflexivity|]. right.
        split; [reflexivity|]. split.
        -- rewrite Htrace, Htrace', app_assoc. reflexivity.
        -- rewrite forallb_app, Hevs, (calm_of_batch _ Hevs'). reflexivity.
    + destruct (Hlines
                  [ EvPrint (MsgCli "  Make sure the service is running and accessible");
                    EvPrint (MsgCli "✗ AreaScanInference service is not available") ]
                  s2 eq_refl Hstep) as (evs & Htrace & Hevs & Hdraws).
      eexists; eexists; exists evs. split; [reflexivity|]. left.
      repeat split; auto;
        try (cbn [add_events self]; rewrite Hself; reflexivity).
  - destruct (Hlines [EvPrint (MsgInitFailed e)] s1 eq_refl Hstep1)
      as (evs & Htrace & Hevs & Hdraws).
    eexists; eexists; exists evs. split; [reflexivity|]. left.
    repeat split; auto.
Qed.

(** ** Properties of the command-line runner beyond the claims *)

(** X5.  Every inference request [main] sends is for the canvas: image width
    2560, image height 2048, 3 channels, timeout 30 seconds, whatever the
    size of the image file. *)
Theorem main_requests_on_canvas (env : Env) (s : State)
    (image folder : option string) (model : Model) (port : value) (t : float)
    (host : string) :
  exists code s' evs,
    main image folder model port t host env s = (Return code, s')
    /\ trace s' = (evs ++ trace s)%list
    /\ forallb on_canvas evs = true.
Proof.
  destruct (main_trace image folder model port t host env s)
    as (code & s' & evs & Hrun & [(_ & Htrace & Hevs & _)|(_ & Htrace & Hevs)]).
  - exists code, s', evs. split; [exact Hrun|]. split; [exact Htrace|].
    apply of_batch_on_canvas, calm_of_batch, Hevs.
  - exists code, s',
      (EvPrint (MsgCli "✓ Profiling complete") :: EvPrint MsgClosed
         :: EvChannelClose :: evs)%list.
    split; [exact Hrun|]. split; [exact Htrace|].
    simpl. apply of_batch_on_canvas, Hevs.
Qed.

(** X6.  A setup failure is a stop before any work: when [main] returns 1 it
    has sent no inference request, drawn no uuid and taken up no image. *)
Theorem setup_failure_sends_nothing (env : Env) (s : State)
    (image folder : option string) (model : Model) (port : value) (t : float)
    (host : string) :
  exists code s',
    main image folder model port t host env s = (Return code, s')
    /\ (code = 1%Z ->
        request_ids (trace s') = request_ids (trace s)
        /\ uuid_draws s' = uuid_draws s
        /\ images_in (trace s') = images_in (trace s)).
Proof.
  destruct (main_trace image folder model port t host env s)
    as (code & s' & evs & Hrun
        & [(_ & Htrace & Hevs & Hdraws & _)|(-> & _)]).
  - exists code, s'. split; [exact Hrun|]. intros _.
    rewrite Htrace, request_ids_app, images_in_app.
    rewrite (calm_request_ids _ Hevs), (calm_images_in _ Hevs). auto.
  - exists 0%Z, s'. split; [exact Hrun|]. discriminate.
Qed.

(** X7.  [main] calls [close()] once when it returns 0, as its last effect
    but one line, and not at all when it returns 1: after a setup failure
    that follows a successful construction the channel is left open. *)
Theorem main_closes_on_completion_only (env : Env) (s : State)
    (image folder : option string) (model : Model) (port : value) (t : float)
    (host : string) :
  exists code s' evs,
    main image folder model port t host env s = (Return code, s')
    /\ trace s' = (evs ++ trace s)%list
    /\ List.length (filter is_close evs) = (if (code =? 0)%Z then 1 else 0)
    /\ (code = 0%Z ->
        exists rest, evs = EvPrint (MsgCli "✓ Profiling complete")
                             :: EvPrint MsgClosed :: EvChannelClose :: rest)
    /\ (code = 1%Z ->
        forall ch, self_channel (self s') = Some ch -> closed ch = false).
Proof.
  destruct (main_trace image folder model port t host env s)
    as (code & s' & evs & Hrun
        & [(-> & Htrace & Hevs & _ & Hself)|(-> & Htrace & Hevs)]).
  - exists 1%Z, s', evs. split; [exact Hrun|]. split; [exact Htrace|].
    split; [rewrite (calm_no_close _ Hevs); reflexivity|].
    split; [discriminate|]. intros _ ch. rewrite Hself.
    destruct (construct_effect env s port host)
      as (r & s1 & address & post & pre & Hc & _ & _ & _ & _ & Hobj).
    rewrite Hc. simpl. destruct r.
    + destruct Hobj as (-> & _). intros [= <-]. reflexivity.
    + destruct Hobj as [-> _]. discriminate.
  - exists 0%Z, s',
      (EvPrint (MsgCli "✓ Profiling complete") :: EvPrint MsgClosed
         :: EvChannelClose :: evs)%list.
    split; [exact Hrun|]. split; [exact Htrace|].
    split; [simpl; rewrite (of_batch_no_close _ Hevs); reflexivity|].
    split; [eauto|discriminate].
Qed.

(** X8.  With both models selected, an image whose detection call fails is
    given up at once: the loop body sends the one detection request, reports
    the error and sends no segmentation request for that image. *)
Theorem detection_failure_skips_segmentation (env : Env) (s : State)
    (t : float) (idx total : nat) (path : string) (image : list Byte.byte)
    (e : exn)
    (Hconn : connected s)
    (Hload : load_image env path = Return image)
    (Hfail : svc_DetectObjects env
               (EvPrint (MsgCli "[Object Detection Model]")
                  :: EvPrint (MsgCli "Loading image...")
                  :: EvPrint (MsgImage idx total path) :: trace s)
               (request_in env s image 2560 2048) = Raise e) :
  exists s',
    process_image both t idx total path env s = (Return tt, s')
    /\ trace s' =
         EvPrint (MsgImageError
                    match e with
                    | RpcError code details =>
                        PlainException
                          ("Object detection failed: " ++ str_code code ++ " - "
                             ++ str_details details)
                    | _ => e
                    end)
           :: EvRpc (DetectObjects (request_in env s image 2560 2048)) 30%float
           :: EvPrint (MsgCli "[Object Detection Model]")
           :: EvPrint (MsgCli "Loading image...")
           :: EvPrint (MsgImage idx total path) :: trace s
    /\ uuid_draws s' = S (uuid_draws s).
Proof.
  destruct Hconn as [_ Hstub].
  destruct (self_stub (self s)) as [stub|] eqn:Hs; [|congruence].
  unfold process_image, load_bytes, detect_objects, invoke, uuid4_str,
    rpc_timeout, target_size, request_in in *.
  unfold_monad. simpl. rewrite Hload, Hs. simpl. rewrite Hfail.
  destruct e; simpl; eexists; split; reflexivity || (split; reflexivity).
Qed.

Lemma detection_failure_skips_segmentation_witness :
  exists s',
    process_image both 0.5%float 1 1 "scan.png" down_env sample_state
      = (Return tt, s')
    /\ trace s' =
         EvPrint (MsgImageError
                    (PlainException
                       "Object detection failed: StatusCode.UNAVAILABLE - failed to connect"))
           :: EvRpc (DetectObjects
                       (request_in down_env sample_state [] 2560 2048)) 30%float
           :: EvPrint (MsgCli "[Object Detection Model]")
           :: EvPrint (MsgCli "Loading image...")
           :: EvPrint (MsgImage 1 1 "scan.png") :: trace sample_state
    /\ uuid_draws s' = S (uuid_draws sample_state).
Proof.
  apply (detection_failure_skips_segmentation down_env sample_state 0.5%float
           1 1 "scan.png" []
           (RpcError UNAVAILABLE (Some "failed to connect"))).
  - split; discriminate.
  - reflexivity.
  - reflexivity.
Defined.

(** * The graphical front end *)

(** ** The background worker *)

(** The dict under ['detections'] and ['segmentations']: the keys ['count'],
    ['latency_ms'] and ['predictions']. *)
Record ModelResults : Type := {
  mr_count : nat;
  mr_latency_ms : float;
  mr_predictions : list PredictionDict
}.

(** The dict [results] of [InferenceWorker.run]. *)
Record WorkerResults : Type := {
  r_image_name : string;
  r_detections : option ModelResults;
  r_segmentations : option ModelResults
}.

(** The signals of the worker; [Error e] carries the text [str(e)]. *)
Inductive Signal : Type :=
| Progress (message : string)
| Finished (results : WorkerResults)
| Error (e : exn).

Definition is_progress (sig : Signal) : bool :=
  match sig with Progress _ => true | _ => false end.

Definition is_terminal (sig : Signal) : bool :=
  match sig with Progress _ => false | _ => true end.

(** Programs of the worker: programs of [M] that also emit signals; the
    signals emitted so far are kept when an exception is raised.  The list
    of signals has the most recent first. *)
Definition W (A : Type) : Type :=
  list Signal -> World -> State -> (result A * list Signal) * State.

Definition wret {A} (a : A) : W A := fun sigs _ s => ((Return a, sigs), s).

Definition wbind {A B} (m : W A) (k : A -> W B) : W B :=
  fun sigs env s =>
    match m sigs env s with
    | ((Return a, sigs'), s') => k a sigs' env s'
    | ((Raise e, sigs'), s') => ((Raise e, sigs'), s')
    end.

Notation "x <~ m ;; k" := (wbind m (fun x => k))
  (at level 61, m at next level, right associativity).
Notation "m ~~ k" := (wbind m (fun _ => k))
  (at level 61, right associativity).

(** A program of [M] run by the worker. *)
Definition wlift {A} (m : M A) : W A :=
  fun sigs env s => let (r, s') := m env s in ((r, sigs), s').

(** [self.<signal>.emit(...)]. *)
Definition emit_signal (sig : Signal) : W unit :=
  fun sigs _ s => ((Return tt, sig :: sigs), s).

(** [try: body except Exception as e: handler e]. *)
Definition wtry {A} (body : W A) (handler : exn -> W A) : W A :=
  fun sigs env s =>
    match body sigs env s with
    | ((Return a, sigs'), s') => ((Return a, sigs'), s')
    | ((Raise e, sigs'), s') => handler e sigs' env s'
    end.

(** A method called on [self.client], which is the client or [None]. *)
Definition of_client {A} (client : option unit) (method : string) (m : M A)
    : M A :=
  match client with
  | Some _ => m
  | None => raise (AttributeError method)
  end.

(** [model_type in [...]]. *)
Definition among (choices : list string) (model_type : string) : bool :=
  existsb (String.eqb model_type) choices.

Section Worker.

(** [time.time()], as a function of the effects performed so far, and
    [Path(p).name]. *)
Variable clock : list Event -> float.
Variable path_name : string -> string.

Definition now : W float :=
  fun sigs _ s => ((Return (clock (trace s)), sigs), s).

(** One model of [run]: the progress signal, the timed call, the dict. *)
Definition run_model (client : option unit) (chosen : bool)
    (message method : string) (call : M InferenceResult)
    : W (option ModelResults) :=
  if chosen then
    emit_signal (Progress message) ~~
    start <~ now ;;
    result <~ wlift (of_client client method call) ;;
    stop <~ now ;;
    wret (Some {| mr_count := prediction_count result;
                  mr_latency_ms := ((stop - start) * 1000)%float;
                  mr_predictions := predictions result |})
  else wret None.

(** [InferenceWorker.run]. *)
Definition run (client : option unit) (image_path model_type : string)
    (confidence_threshold : float) : W unit :=
  wtry
    (emit_signal (Progress "Loading image...") ~~
     image <~ wlift (load_bytes image_path) ;;
     det <~ run_model client
              (among ["Object Detection"; "Both Models"] model_type)
              "Running object detection..." "detect_objects"
              (detect_objects image 2560 2048 confidence_threshold) ;;
     seg <~ run_model client
              (among ["Sheet Segmentation"; "Both Models"] model_type)
              "Running sheet segmentation..." "segment_sheets"
              (segment_sheets image 2560 2048 confidence_threshold) ;;
     emit_signal
       (Finished {| r_image_name := path_name image_path;
                    r_detections := det;
                    r_segmentations := seg |}))
    (fun e => emit_signal (Error e)).

End Worker.

(** A clock that counts the remote calls made so far, in seconds. *)
Fixpoint calls_clock (events : list Event) : float :=
  match events with
  | [] => 0%float
  | EvRpc _ _ :: rest => (calls_clock rest + 1)%float
  | _ :: rest => calls_clock rest
  end.

(** The last component of a path with [/] as separator. *)
Fixpoint last_component (path : string) : string :=
  match path with
  | EmptyString => EmptyString
  | String c rest =>
      if (c =? "/")%char then last_component rest
      else if existsb (Ascii.eqb "/") (list_ascii_of_string rest)
           then last_component rest
           else path
  end.

Lemma run_model_run clock client chosen message method call sigs (env : Env) s :
  run_model clock client chosen message method call sigs env s =
    if chosen then
      match client with
      | None => ((Raise (AttributeError method), Progress message :: sigs), s)
      | Some _ =>
          match call env s with
          | (Return result, s') =>
              ((Return (Some {| mr_count := prediction_count result;
                                mr_latency_ms :=
                                  ((clock (trace s') - clock (trace s)) * 1000)%float;
                                mr_predictions := predictions result |}),
                Progress message :: sigs), s')
          | (Raise e, s') => ((Raise e, Progress message :: sigs), s')
          end
      end
    else ((Return None, sigs), s).
Proof.
  unfold run_model. destruct chosen; [|reflexivity].
  unfold wbind, emit_signal, now, wlift, of_client, wret.
  destruct client; [|reflexivity].
  destruct (call env s) as [[result|e] s']; reflexivity.
Qed.

(** One model of [run] emits progress signals only. *)
Lemma run_model_signals clock client chosen message method call sigs (env : Env) s :
  exists r new s',
    run_model clock client chosen message method call sigs env s =
      ((r, (new ++ sigs)%list), s')
    /\ forallb is_progress new = true.
Proof.
  rewrite run_model_run. destruct chosen.
  - destruct client.
    + destruct (call env s) as [[result|e] s'];
        eexists; eexists [_]; eexists; split; reflexivity.
    + eexists; eexists [_]; eexists; split; reflexivity.
  - eexists; exists []; eexists; split; reflexivity.
Qed.

Lemma inference_returns op (env : Env) s image w h t r s' :
  inference op image w h t env s = (Return r, s') ->
  prediction_count r = List.length (predictions r)
  /\ Forall (fun d => (pd_confidence d <? t)%float = false) (predictions r).
Proof.
  intros Hrun.
  destruct (self_stub (self s)) as [stub|] eqn:Hs.
  - assert (Hstub : self_stub (self s) <> None) by congruence.
    destruct (service op env (trace s) (request_in env s image w h))
      as [P|e] eqn:Hsvc.
    + rewrite (inference_answer op env s image w h t P Hstub Hsvc) in Hrun.
      injection Hrun as <- <-. simpl. split; [reflexivity|].
      apply Forall_forall. intros d Hd.
      apply in_map_iff in Hd. destruct Hd as (pred & <- & Hin).
      apply filter_In in Hin. destruct Hin as [_ Hle].
      rewrite prediction_dict_confidence. apply leb_not_ltb. exact Hle.
    + rewrite (inference_raise op env s image w h t e Hstub Hsvc) in Hrun.
      discriminate.
  - rewrite (inference_no_stub op env s image w h t Hs) in Hrun. discriminate.
Qed.

(** ** Properties of the worker *)

(** X9.  [InferenceWorker.run] raises nothing, and the signals it emits are
    progress signals followed by exactly one last signal, which is
    [finished] or [error]. *)
Theorem run_ends_with_one_terminal_signal (clock : list Event -> float)
    (path_name : string -> string) (client : option unit)
    (image_path model_type : string) (t : float) (sigs : list Signal)
    (env : Env) (s : State) :
  exists last before s',
    run clock path_name client image_path model_type t sigs env s =
      ((Return tt, (last :: before ++ sigs)%list), s')
    /\ is_terminal last = true
    /\ forallb is_progress before = true.
Proof.
  unfold run, wtry. unfold wbind at 1. unfold emit_signal at 1.
  unfold wbind at 1, wlift at 1, load_bytes. unfold_monad.
  destruct (load_image env image_path) as [image|e].
  - unfold wbind at 1.
    destruct (run_model_signals clock client
                (among ["Object Detection"; "Both Models"] model_type)
                "Running object detection..." "detect_objects"
                (detect_objects image 2560 2048 t)
                (Progress "Loading image..." :: sigs) env s)
      as (r1 & new1 & s1 & -> & Hnew1).
    destruct r1 as [det|e].
    + unfold wbind at 1.
      destruct (run_model_signals clock client
                  (among ["Sheet Segmentation"; "Both Models"] model_type)
                  "Running sheet segmentation..." "segment_sheets"
                  (segment_sheets image 2560 2048 t)
                  (new1 ++ Progress "Loading image..." :: sigs)%list env s1)
        as (r2 & new2 & s2 & -> & Hnew2).
      destruct r2 as [seg|e]; unfold emit_signal;
        eexists; exists (new2 ++ new1 ++ [Progress "Loading image..."])%list;
        eexists; (split; [rewrite <- !app_assoc; reflexivity|]);
        (split; [reflexivity|]);
        rewrite !forallb_app, Hnew1, Hnew2; reflexivity.
    + unfold emit_signal.
      eexists; exists (new1 ++ [Progress "Loading image..."])%list; eexists.
      split; [rewrite <- app_assoc; reflexivity|]. split; [reflexivity|].
      rewrite forallb_app, Hnew1. reflexivity.
  - unfold emit_signal. eexists; exists [Progress "Loading image..."]; eexists.
    split; [reflexivity|]. split; reflexivity.
Qed.

(** X10.  With a model type other than the three of the dialog, [run] loads
    the image, makes no remote call, does not touch the client, which may be
    [None], and emits [finished] with neither detections nor
    segmentations. *)
Theorem run_unknown_model_type (clock : list Event -> float)
    (path_name : string -> string) (client : option unit)
    (image_path model_type : string) (t : float) (sigs : list Signal)
    (env : Env) (s : State) (image : list Byte.byte)
    (Hload : load_image env image_path = Return image)
    (Hdet : model_type <> "Object Detection")
    (Hseg : model_type <> "Sheet Segmentation")
    (Hboth : model_type <> "Both Models") :
  run clock path_name client image_path model_type t sigs env s =
    ((Return tt,
      [ Finished {| r_image_name := path_name image_path;
                    r_detections := None; r_segmentations := None |};
        Progress "Loading image..." ] ++ sigs)%list, s).
Proof.
  apply String.eqb_neq in Hdet, Hseg, Hboth.
  unfold run, wtry. unfold wbind at 1. unfold emit_signal at 1.
  unfold wbind at 1, wlift at 1, load_bytes. unfold_monad. rewrite Hload.
  unfold wbind. rewrite !run_model_run. unfold among. simpl.
  rewrite Hdet, Hseg, Hboth. reflexivity.
Qed.

Lemma run_unknown_model_type_witness :
  run calls_clock last_component None "scans/b.png" "both" 0.5%float []
    batch_env initial_state =
    ((Return tt,
      [ Finished {| r_image_name := last_component "scans/b.png";
                    r_detections := None; r_segmentations := None |};
        Progress "Loading image..." ] ++ [])%list, initial_state).
Proof.
  apply (run_unknown_model_type calls_clock last_component None "scans/b.png"
           "both" 0.5%float [] batch_env initial_state []).
  - reflexivity.
  - discriminate.
  - discriminate.
  - discriminate.
Defined.

(** X11.  With both models chosen, a segmentation call that fails after a
    detection call that succeeded costs the detections: [run] emits [error]
    with the exception of the segmentation call, and no [finished]. *)
Theorem run_partial_failure (clock : list Event -> float)
    (path_name : string -> string) (image_path : string) (t : float)
    (sigs : list Signal) (env : Env) (s : State) (image : list Byte.byte)
    (P : list Prediction) (e : exn)
    (Hconn : connected s)
    (Hload : load_image env image_path = Return image)
    (Hdet : svc_DetectObjects env (trace s) (request_in env s image 2560 2048)
              = Return P)
    (Hseg : svc_SegmentSheets env
              (EvRpc (DetectObjects (request_in env s image 2560 2048)) 30%float
                 :: trace s)
              {| id := uuid4 env (S (uuid_draws s)); image_bytes := image;
                 image_height := 2048; image_width := 2560; channels := 3 |}
              = Raise e) :
  exists s',
    run clock path_name (Some tt) image_path "Both Models" t sigs env s =
      ((Return tt,
        [ Error match e with
                | RpcError code details =>
                    PlainException
                      ("Sheet segmentation failed: " ++ str_code code ++ " - "
                         ++ str_details details)
                | _ => e
                end;
          Progress "Running sheet segmentation...";
          Progress "Running object detection...";
          Progress "Loading image..." ] ++ sigs)%list, s')
    /\ List.length (filter is_inference (trace s'))
       = 2 + List.length (filter is_inference (trace s)).
Proof.
  destruct Hconn as [_ Hstub].
  unfold run, wtry. unfold wbind at 1. unfold emit_signal at 1.
  unfold wbind at 1, wlift at 1, load_bytes. unfold_monad. rewrite Hload.
  unfold wbind at 1. rewrite run_model_run. simpl among. cbv iota.
  change (detect_objects image 2560 2048 t)
    with (inference Detection image 2560 2048 t).
  rewrite (inference_answer Detection env s image 2560 2048 t P Hstub Hdet).
  unfold wbind at 1. rewrite run_model_run. simpl among. cbv iota.
  change (segment_sheets image 2560 2048 t)
    with (inference Segmentation image 2560 2048 t).
  rewrite (inference_raise Segmentation env _ image 2560 2048 t e);
    [|exact Hstub|exact Hseg].
  unfold emit_signal. eexists. split; [reflexivity|]. reflexivity.
Qed.

Lemma run_partial_failure_witness :
  exists s',
    run calls_clock last_component (Some tt) "scans/b.png" "Both Models"
      0.5%float [] batch_env sample_state =
      ((Return tt,
        [ Error (PlainException
                   "Sheet segmentation failed: StatusCode.DEADLINE_EXCEEDED - Deadline Exceeded");
          Progress "Running sheet segmentation...";
          Progress "Running object detection...";
          Progress "Loading image..." ] ++ [])%list, s')
    /\ List.length (filter is_inference (trace s'))
       = 2 + List.length (filter is_inference (trace sample_state)).
Proof.
  apply (run_partial_failure calls_clock last_component "scans/b.png" 0.5%float
           [] batch_env sample_state [] sample_response
           (RpcError DEADLINE_EXCEEDED (Some "Deadline Exceeded"))).
  - split; discriminate.
  - reflexivity.
  - reflexivity.
  - reflexivity.
Defined.

Lemma run_model_result clock client chosen message method op image t sigs (env : Env)
    s r sigs' s' :
  run_model clock client chosen message method
    (inference op image 2560 2048 t) sigs env s = ((Return r, sigs'), s') ->
  (r <> None <-> chosen = true)
  /\ forall mr, r = Some mr ->
       mr_count mr = List.length (mr_predictions mr)
       /\ Forall (fun d => (pd_confidence d <? t)%float = false)
            (mr_predictions mr).
Proof.
  rewrite run_model_run. destruct chosen.
  - destruct client; [|discriminate].
    destruct (inference op image 2560 2048 t env s) as [[result|e] s1] eqn:Hcall;
      [|discriminate].
    intros [= <- _ _]. split; [split; [reflexivity|discriminate]|].
    intros mr [= <-]. simpl. exact (inference_returns _ _ _ _ _ _ _ _ _ Hcall).
  - intros [= <- _ _]. split; [split; [congruence|discriminate]|discriminate].
Qed.

(** X12.  Whatever the service answers, the results of a [finished] signal
    are consistent: they name the image; they hold detections exactly when
    the model type is 'Object Detection' or 'Both Models' and segmentations
    exactly when it is 'Sheet Segmentation' or 'Both Models'; and each count
    is the number of predictions beside it, none of which has a confidence
    below the threshold. *)
Theorem finished_results_are_consistent (clock : list Event -> float)
    (path_name : string -> string) (client : option unit)
    (image_path model_type : string) (t : float) (sigs : list Signal)
    (env : Env) (s : State) (results : WorkerResults) (rest : list Signal)
    (s' : State)
    (Hrun : run clock path_name client image_path model_type t sigs env s =
              ((Return tt, Finished results :: rest), s')) :
  r_image_name results = path_name image_path
  /\ (r_detections results <> None <->
      model_type = "Object Detection" \/ model_type = "Both Models")
  /\ (r_segmentations results <> None <->
      model_type = "Sheet Segmentation" \/ model_type = "Both Models")
  /\ forall mr,
       r_detections results = Some mr \/ r_segmentations results = Some mr ->
       mr_count mr = List.length (mr_predictions mr)
       /\ Forall (fun d => (pd_confidence d <? t)%float = false)
            (mr_predictions mr).
Proof.
  assert (Hamong : forall a b, among [a; b] model_type = true <->
                                model_type = a \/ model_type = b).
  { intros a b. unfold among. simpl. rewrite orb_false_r, orb_true_iff.
    rewrite !String.eqb_eq. reflexivity. }
  revert Hrun. unfold run, wtry. unfold wbind at 1. unfold emit_signal at 1.
  unfold wbind at 1, wlift at 1, load_bytes. unfold_monad.
  destruct (load_image env image_path) as [image|e]; [|discriminate].
  unfold wbind at 1.
  change (detect_objects image 2560 2048 t)
    with (inference Detection image 2560 2048 t).
  change (segment_sheets image 2560 2048 t)
    with (inference Segmentation image 2560 2048 t).
  match goal with
  | |- context [run_model clock client ?c ?m ?n ?call ?sg (reliable env) s] =>
      destruct (run_model clock client c m n call sg env s)
        as [[[det|e] sigs1] s1] eqn:Hdet; [|discriminate]
  end.
  unfold wbind at 1.
  match goal with
  | |- context [run_model clock client ?c ?m ?n ?call ?sg (reliable env) s1] =>
      destruct (run_model clock client c m n call sg env s1)
        as [[[seg|e] sigs2] s2] eqn:Hseg; [|discriminate]
  end.
  unfold emit_signal. intros [= <- _ _]. simpl.
  apply run_model_result in Hdet, Hseg.
  destruct Hdet as [Hd1 Hd2], Hseg as [Hs1 Hs2].
  split; [reflexivity|]. split; [rewrite Hd1; apply Hamong|].
  split; [rewrite Hs1; apply Hamong|].
  intros mr [H|H]; auto.
Qed.

Lemma finished_results_are_consistent_witness :
  exists results,
    fst (fst (run calls_clock last_component (Some tt) "scans/b.png"
                "Object Detection" 0.9%float [] sample_env sample_state))
      = Return tt
    /\ r_image_name results = "b.png"
    /\ (r_detections results <> None <->
        "Object Detection" = "Object Detection"
        \/ "Object Detection" = "Both Models")
    /\ (r_segmentations results <> None <->
        "Object Detection" = "Sheet Segmentation"
        \/ "Object Detection" = "Both Models")
    /\ forall mr,
         r_detections results = Some mr \/ r_segmentations results = Some mr ->
         mr_count mr = List.length (mr_predictions mr)
         /\ Forall (fun d => (pd_confidence d <? 0.9)%float = false)
              (mr_predictions mr).
Proof.
  eexists. split; [reflexivity|].
  eapply (finished_results_are_consistent calls_clock last_component (Some tt)
            "scans/b.png" "Object Detection" 0.9%float [] sample_env
            sample_state).
  reflexivity.
Defined.

Example worker_detection_run :
  snd (fst (run calls_clock last_component (Some tt) "scans/b.png"
              "Object Detection" 0.9%float [] sample_env sample_state)) =
    [ Finished
        {| r_image_name := "b.png";
           r_detections :=
             Some {| mr_count := 2; mr_latency_ms := 1000%float;
                     mr_predictions :=
                       map detection_dict
                         [ sample_prediction 0.95%float;
                           sample_prediction 0.91%float ] |};
           r_segmentations := None |};
      Progress "Running object detection...";
      Progress "Loading image..." ].
Proof. reflexivity. Qed.

(** X13.  Without a client, that is with [self.client] still [None] after a
    failed construction, [run] with a model type that asks for detection
    emits [error] for the missing method and reaches neither the uuid
    generator nor the service. *)
Theorem run_without_client (clock : list Event -> float)
    (path_name : string -> string) (image_path model_type : string) (t : float)
    (sigs : list Signal) (env : Env) (s : State) (image : list Byte.byte)
    (Hload : load_image env image_path = Return image)
    (Hmodel : model_type = "Object Detection" \/ model_type = "Both Models") :
  run clock path_name None image_path model_type t sigs env s =
    ((Return tt,
      [ Error (AttributeError "detect_objects");
        Progress "Running object detection...";
        Progress "Loading image..." ] ++ sigs)%list, s).
Proof.
  unfold run, wtry. unfold wbind at 1. unfold emit_signal at 1.
  unfold wbind at 1, wlift at 1, load_bytes. unfold_monad. rewrite Hload.
  unfold wbind at 1. rewrite run_model_run.
  destruct Hmodel as [-> | ->]; reflexivity.
Qed.

Lemma run_without_client_witness :
  run calls_clock last_component None "scans/b.png" "Both Models" 0.5%float []
    batch_env initial_state =
    ((Return tt,
      [ Error (AttributeError "detect_objects");
        Progress "Running object detection...";
        Progress "Loading image..." ] ++ [])%list, initial_state).
Proof.
  apply (run_without_client calls_clock last_component "scans/b.png"
           "Both Models" 0.5%float [] batch_env initial_state []).
  - reflexivity.
  - right. reflexivity.
Defined.

(** ** The drop zone *)

(** [DropZoneLabel.get_images_from_folder]: the four globs, in the order of
    the source; a path stands for its [str]. *)
Definition get_images_from_folder (env : Env) (folder_path : string)
    : list string :=
  flat_map (fun ext => glob env folder_path ext)
    ["*.jpg"; "*.jpeg"; "*.png"; "*.bmp"].

Section DropZone.

(** [Path(p).is_file()], [Path(p).is_dir()] and [Path(p).suffix.lower()]. *)
Variable is_file : string -> bool.
Variable is_dir : string -> bool.
Variable suffix_lower : string -> string.

(** [DropZoneLabel.is_image_file]. *)
Definition is_image_file (path : string) : bool :=
  among [".jpg"; ".jpeg"; ".png"; ".bmp"] (suffix_lower path).

(** The loop of [dropEvent] over the local files of the dropped urls. *)
Fixpoint dropped_files (env : Env) (urls : list string) (files : list string)
    : list string :=
  match urls with
  | [] => files
  | file_path :: rest =>
      dropped_files env rest
        (if is_file file_path then
           if is_image_file file_path then (files ++ [file_path])%list
           else files
         else if is_dir file_path then
           (files ++ get_images_from_folder env file_path)%list
         else files)
  end.

(** [dropEvent]: [Some files] when [files_dropped] is emitted with [files]
    and the drop is accepted, [None] when the drop is ignored. *)
Definition dropEvent (env : Env) (urls : list string) : option (list string) :=
  match dropped_files env urls [] with
  | [] => None
  | files => Some files
  end.

(** What one dropped entry contributes. *)
Definition contribution (env : Env) (file_path : string) : list string :=
  if is_file file_path then
    if is_image_file file_path then [file_path] else []
  else if is_dir file_path then get_images_from_folder env file_path
  else [].

Lemma dropped_files_flat_map (env : Env) urls :
  forall files,
    dropped_files env urls files =
      (files ++ flat_map (contribution env) urls)%list.
Proof.
  induction urls as [|url rest IH]; intros files; simpl.
  - rewrite app_nil_r. reflexivity.
  - rewrite IH. unfold contribution.
    destruct (is_file url); [destruct (is_image_file url)|destruct (is_dir url)];
      rewrite <- ?app_assoc; reflexivity.
Qed.

(** X15.  A drop is accepted exactly when it yields an image, and what it
    emits is never empty: in the order of the drop, the dropped files
    whose lower-cased suffix is one of .jpg, .jpeg, .png, .bmp, and for
    each dropped directory its folder scan; an entry that is neither a
    file nor a directory, and a file of another suffix, yield nothing. *)
Theorem drop_yields_images (env : Env) (urls : list string) :
  (dropEvent env urls = None <->
   forall url, In url urls -> contribution env url = [])
  /\ (forall files, dropEvent env urls = Some files ->
        files <> []
        /\ files = flat_map (contribution env) urls
        /\ forall f, In f files <->
             exists url, In url urls
               /\ ((is_file url = true /\ f = url
                    /\ In (suffix_lower url) [".jpg"; ".jpeg"; ".png"; ".bmp"])
                   \/ (is_file url = false /\ is_dir url = true
                       /\ exists ext, In ext ["*.jpg"; "*.jpeg"; "*.png"; "*.bmp"]
                                      /\ In f (glob env url ext)))).
Proof.
  unfold dropEvent. rewrite dropped_files_flat_map. simpl.
  assert (Hin : forall f url, In f (contribution env url) <->
                  (is_file url = true /\ f = url
                   /\ In (suffix_lower url) [".jpg"; ".jpeg"; ".png"; ".bmp"])
                  \/ (is_file url = false /\ is_dir url = true
                      /\ exists ext, In ext ["*.jpg"; "*.jpeg"; "*.png"; "*.bmp"]
                                     /\ In f (glob env url ext))).
  { intros f url. unfold contribution, is_image_file, among.
    destruct (is_file url).
    - destruct (existsb (String.eqb (suffix_lower url))
                  [".jpg"; ".jpeg"; ".png"; ".bmp"]) eqn:Hext.
      + apply existsb_exists in Hext. destruct Hext as (x & Hx & Heq).
        apply String.eqb_eq in Heq. subst x. simpl. split.
        * intros [<-|[]]. left. auto.
        * intros [(_ & -> & _)|(H & _)]; [auto|discriminate].
      + split; [intros []|].
        intros [(_ & _ & Hsuf)|(H & _)]; [|discriminate].
        assert (Hex : existsb (String.eqb (suffix_lower url))
                        [".jpg"; ".jpeg"; ".png"; ".bmp"] = true)
          by (apply existsb_exists; exists (suffix_lower url);
              split; [exact Hsuf|apply String.eqb_refl]).
        congruence.
    - destruct (is_dir url).
      + unfold get_images_from_folder. rewrite in_flat_map. split.
        * intros (ext & Hext & Hf). right. eauto.
        * intros [(H & _)|(_ & _ & ext & Hext & Hf)]; [discriminate|eauto].
      + split; [intros []|].
        intros [(H & _)|(_ & H & _)]; discriminate. }
  split.
  - destruct (flat_map (contribution env) urls) as [|f fs] eqn:Hfm.
    + split; [|reflexivity]. intros _ url Hurl.
      destruct (contribution env url) as [|g gs] eqn:Hc; [reflexivity|].
      assert (Hg : In g (flat_map (contribution env) urls))
        by (apply in_flat_map; exists url; rewrite Hc; simpl; auto).
      rewrite Hfm in Hg. destruct Hg.
    + split; [discriminate|]. intros Hall.
      assert (Hf : In f (flat_map (contribution env) urls))
        by (rewrite Hfm; simpl; auto).
      apply in_flat_map in Hf. destruct Hf as (url & Hurl & Hf).
      rewrite (Hall url Hurl) in Hf. destruct Hf.
  - intros files Hfiles.
    destruct (flat_map (contribution env) urls) as [|f fs] eqn:Hfm;
      [discriminate|].
    injection Hfiles as <-. split; [discriminate|]. split; [reflexivity|].
    intros g. rewrite <- Hfm, in_flat_map. split.
    + intros (url & Hurl & Hg). exists url. split; [exact Hurl|].
      apply Hin. exact Hg.
    + intros (url & Hurl & Hg). exists url. split; [exact Hurl|].
      apply Hin. exact Hg.
Qed.

End DropZone.

(** X14.  The folder scan of the drop zone and the folder scan of the
    command-line runner find the same files, each as often: they run the
    same four globs; only the order of the png and the jpeg files
    differs. *)
Theorem folder_scans_agree (env : Env) (dir : string) :
  Permutation (get_images_from_folder env dir) (glob_images env dir)
  /\ get_images_from_folder env dir =
       (glob env dir "*.jpg" ++ glob env dir "*.jpeg"
          ++ glob env dir "*.png" ++ glob env dir "*.bmp")%list
  /\ glob_images env dir =
       (glob env dir "*.jpg" ++ glob env dir "*.png"
          ++ glob env dir "*.jpeg" ++ glob env dir "*.bmp")%list
  /\ (collect_image_paths env None (Some dir) = Some [] <->
      dir <> "" /\ get_images_from_folder env dir = []).
Proof.
  assert (Hperm : Permutation (get_images_from_folder env dir)
                    (glob_images env dir)).
  { unfold get_images_from_folder, glob_images. simpl. rewrite app_nil_r.
    apply Permutation_app_head. rewrite !app_assoc.
    apply Permutation_app_tail, Permutation_app_comm. }
  split; [exact Hperm|].
  split; [unfold get_images_from_folder; simpl; rewrite app_nil_r; reflexivity|].
  split; [reflexivity|].
  unfold collect_image_paths, folder_image_paths.
  destruct (String.eqb_spec dir ""); simpl.
  - split; [discriminate|]. intros [H _]. contradiction.
  - split.
    + intros [= H]. split; [assumption|].
      apply Permutation_sym in Hperm. rewrite H in Hperm.
      apply Permutation_nil in Hperm. exact Hperm.
    + intros [_ H]. rewrite H in Hperm. apply Permutation_nil in Hperm.
      rewrite Hperm. reflexivity.
Qed.

(** * The stub generator

    [generate_grpc.py] runs the protocol compiler on every file of
    [proto/] and then rewrites the absolute imports of the generated
    modules into relative ones.  A text is a string, a directory is a list
    of named texts, and the run of the script is a function on the contents
    of [generated/] that also yields the trace of what it did.  File
    operations on [generated/] are taken to succeed. *)

(** ** Texts and their lines *)

Definition newline : ascii := "010"%char.

(** [content.split('\n')]. *)
Fixpoint lines (content : string) : list string :=
  match content with
  | EmptyString => [""]
  | String c rest =>
      if Ascii.eqb c newline then "" :: lines rest
      else match lines rest with
           | l :: ls => String c l :: ls
           | [] => [String c ""]
           end
  end.

(** ['\n'.join(ls)]. *)
Definition unlines (ls : list string) : string :=
  String.concat (String newline "") ls.

Fixpoint no_newline (s : string) : bool :=
  match s with
  | EmptyString => true
  | String c rest => negb (Ascii.eqb c newline) && no_newline rest
  end.

(** [s.startswith(p)], with what follows the prefix. *)
Fixpoint strip_prefix (p s : string) : option string :=
  match p with
  | EmptyString => Some s
  | String c p' =>
      match s with
      | String d s' => if Ascii.eqb c d then strip_prefix p' s' else None
      | EmptyString => None
      end
  end.

(** Every way of cutting a string in two, shortest head first. *)
Fixpoint splits (s : string) : list (string * string) :=
  (EmptyString, s) ::
  match s with
  | EmptyString => []
  | String c rest => map (fun p => (String c (fst p), snd p)) (splits rest)
  end.

(** ** The two patterns of [fix_imports]

    Both patterns are anchored with [^] and [$] under [re.MULTILINE] and
    none of their parts matches a line break ([.] and [\w] do not), so a
    match is always a whole line and [re.sub] rewrites the text line by
    line. *)

Section Generator.

(** The characters [\w] matches. *)
Variable word : ascii -> bool.

Definition all_word (s : string) : bool :=
  forallb word (list_ascii_of_string s).

(** [\w+_pb2(?:_grpc)?] matches the whole of [m]. *)
Definition module_name (m : string) : bool :=
  existsb (fun p => negb (fst p =? "") && all_word (fst p)
                    && ((snd p =? "_pb2") || (snd p =? "_pb2_grpc")))
          (splits m).

(** The groups [(\1, \2)] of every way in which
    [^import (\w+_pb2(?:_grpc)?) as (.+)$] matches a line, the shortest
    [\1] first. *)
Definition groups1 (line : string) : list (string * string) :=
  match strip_prefix "import " line with
  | None => []
  | Some rest =>
      flat_map (fun p =>
                  if module_name (fst p) then
                    match strip_prefix " as " (snd p) with
                    | Some alias => if alias =? "" then [] else [(fst p, alias)]
                    | None => []
                    end
                  else [])
               (splits rest)
  end.

(** The match the engine reports: [\w+] is greedy. *)
Definition match1 (line : string) : option (string * string) :=
  hd_error (rev (groups1 line)).

(** The group [\1] of [^import (\w+_pb2(?:_grpc)?)$] on a line. *)
Definition match2 (line : string) : option string :=
  match strip_prefix "import " line with
  | Some m => if module_name m then Some m else None
  | None => None
  end.

(** [re.sub(pattern1, replacement1, line)]. *)
Definition sub1 (line : string) : string :=
  match match1 line with
  | Some (m, alias) => "from . import " ++ m ++ " as " ++ alias
  | None => line
  end.

(** [re.sub(pattern2, replacement2, line)]. *)
Definition sub2 (line : string) : string :=
  match match2 line with
  | Some m => "from . import " ++ m
  | None => line
  end.

(** [re.sub(pattern, replacement, content, flags=re.MULTILINE)]. *)
Definition sub_lines (sub : string -> string) (content : string) : string :=
  unlines (map sub (lines content)).

(** What [fix_imports] makes of the text of one file. *)
Definition fix_content (content : string) : string :=
  sub_lines sub2 (sub_lines sub1 content).

(** ** Files *)

(** The files of a directory: their names and texts. *)
Definition Dir : Type := list (string * string).

Definition read (name : string) (d : Dir) : option string :=
  option_map snd (find (fun f => fst f =? name) d).

Definition write (name text : string) (d : Dir) : Dir :=
  if existsb (fun f => fst f =? name) d
  then map (fun f => if fst f =? name then (name, text) else f) d
  else (d ++ [(name, text)])%list.

Inductive GenMessage : Type :=
| MsgProtoMissing
| MsgCopyProto
| MsgNoProto
| MsgFoundProtos (n : nat)
| MsgProtoFile (name : string)
| MsgGeneratingStubs
| MsgGenerating (name : string)
| MsgGenerateFailed (name : string)
| MsgStderr (text : string)
| MsgFixingImports
| MsgFixing (name : string)
| MsgFixed (name : string)
| MsgNothingToFix (name : string)
| MsgGenerated
| MsgOutputDir (path : string).

Inductive GenEvent : Type :=
| GenPrint (m : GenMessage)
| GenMkdir
| GenRun (cmd : list string) (returncode : Z)
| GenRead (name : string)
| GenWrite (name text : string).

(** The contents of [generated/] and what has been done so far, the newest
    event first. *)
Record Gen : Type := {
  out_files : Dir;
  gen_trace : list GenEvent
}.

Definition gen_emit (e : GenEvent) (g : Gen) : Gen :=
  {| out_files := out_files g; gen_trace := e :: gen_trace g |}.

Definition say (m : GenMessage) : Gen -> Gen := gen_emit (GenPrint m).

Definition write_text (name text : string) (g : Gen) : Gen :=
  {| out_files := write name text (out_files g);
     gen_trace := GenWrite name text :: gen_trace g |}.

(** The files [output_dir.glob("*_pb2*.py")] yields. *)
Variable pb2_glob : string -> bool.

(** The body of the loop of [fix_imports]. *)
Definition fix_file (g : Gen) (name : string) : Gen :=
  let g := say (MsgFixing name) g in
  match read name (out_files g) with
  | Some original_content =>
      let g := gen_emit (GenRead name) g in
      let content := fix_content original_content in
      if negb (content =? original_content) then
        say (MsgFixed name) (write_text name content g)
      else say (MsgNothingToFix name) g
  | None => g
  end.

Definition fix_imports (g : Gen) : Gen :=
  fold_left fix_file (filter pb2_glob (map fst (out_files g))) g.

(** ** The generator *)

(** [sys.executable], [proto_dir.exists()], the paths
    [proto_dir.glob("*.proto")] yields, [Path.name], [Path.absolute] and
    [subprocess.run]: the return code and the error output of a command,
    and what it makes of [generated/]. *)
Variable executable : string.
Variable proto_exists : bool.
Variable proto_files : list string.
Variable path_name : string -> string.
Variable absolute : string -> string.
Variable subprocess_run : list string -> Dir -> Z * string * Dir.

Definition protoc_cmd (proto_file : string) : list string :=
  [ executable; "-m"; "grpc_tools.protoc"; "--proto_path=proto";
    "--python_out=generated"; "--grpc_python_out=generated"; proto_file ].

(** The compilation loop; [false] stands for its [return 1]. *)
Fixpoint compile (protos : list string) (g : Gen) : bool * Gen :=
  match protos with
  | [] => (true, g)
  | proto_file :: rest =>
      let g := say (MsgGenerating (path_name proto_file)) g in
      let '(returncode, stderr, d) :=
        subprocess_run (protoc_cmd proto_file) (out_files g) in
      let g := {| out_files := d;
                  gen_trace := GenRun (protoc_cmd proto_file) returncode
                                 :: gen_trace g |} in
      if negb (returncode =? 0)%Z then
        (false, say (MsgStderr stderr)
                  (say (MsgGenerateFailed (path_name proto_file)) g))
      else compile rest g
  end.

Definition quote : string := String "034"%char "".

(** The text of [generated/__init__.py]. *)
Definition init_text : string :=
  quote ++ quote ++ quote ++ "Generated gRPC stubs" ++ quote ++ quote ++ quote
    ++ String newline "".

(** [generate_stubs()], from the contents of [generated/] ([None] when the
    directory does not exist) and the trace so far. *)
Definition generate_stubs (out : option Dir) (tr : list GenEvent)
    : Z * option Dir * list GenEvent :=
  if negb proto_exists then
    (1%Z, out, GenPrint MsgCopyProto :: GenPrint MsgProtoMissing :: tr)
  else
    let g := {| out_files := match out with Some d => d | None => [] end;
                gen_trace := GenMkdir :: tr |} in
    match proto_files with
    | [] =>
        let g := say MsgNoProto g in
        (1%Z, Some (out_files g), gen_trace g)
    | _ =>
        let g := say (MsgFoundProtos (List.length proto_files)) g in
        let g := fold_left
                   (fun g proto_file => say (MsgProtoFile (path_name proto_file)) g)
                   proto_files g in
        let g := say MsgGeneratingStubs g in
        match compile proto_files g with
        | (false, g) => (1%Z, Some (out_files g), gen_trace g)
        | (true, g) =>
            let g := say MsgFixingImports g in
            let g := fix_imports g in
            let g := say MsgGenerated g in
            let g := say (MsgOutputDir (absolute "generated")) g in
            let g := write_text "__init__.py" init_text g in
            (0%Z, Some (out_files g), gen_trace g)
        end
    end.



(** What the two substitutions, one after the other, make of one line. *)
Definition fix_line (line : string) : string := sub2 (sub1 line).

(** The protocol compiler runs and the files written, oldest first. *)
Fixpoint gen_runs (tr : list GenEvent) : list (list string * Z) :=
  match tr with
  | [] => []
  | GenRun cmd returncode :: tr' => (gen_runs tr' ++ [(cmd, returncode)])%list
  | _ :: tr' => gen_runs tr'
  end.

Fixpoint gen_writes (tr : list GenEvent) : list (string * string) :=
  match tr with
  | [] => []
  | GenWrite name text :: tr' => (gen_writes tr' ++ [(name, text)])%list
  | _ :: tr' => gen_writes tr'
  end.

(** A run of the compiler on [proto_file] that returned 0. *)
Definition compiled (proto_file : string) : list string * Z :=
  (protoc_cmd proto_file, 0%Z).

(** ** Strings *)

Lemma string_app_assoc (a b c : string) : (a ++ b) ++ c = a ++ (b ++ c).
Proof. induction a as [|x a IH]; simpl; [reflexivity|]. now rewrite IH. Qed.

Lemma strip_prefix_sound (p s r : string) :
  strip_prefix p s = Some r -> s = p ++ r.
Proof.
  revert s. induction p as [|c p IH]; simpl; intros s H.
  - now injection H as ->.
  - destruct s as [|d s]; [discriminate|].
    destruct (Ascii.eqb_spec c d) as [->|]; [|discriminate].
    now rewrite (IH _ H).
Qed.

Lemma strip_prefix_app (p r : string) : strip_prefix p (p ++ r) = Some r.
Proof.
  induction p as [|c p IH]; simpl; [reflexivity|].
  now rewrite Ascii.eqb_refl.
Qed.

Lemma splits_sound (s a b : string) : In (a, b) (splits s) -> s = a ++ b.
Proof.
  revert a b. induction s as [|c s IH]; simpl; intros a b H.
  - destruct H as [[= <- <-]|[]]. reflexivity.
  - destruct H as [[= <- <-]|H]; [reflexivity|].
    apply in_map_iff in H. destruct H as ([a' b'] & [= <- <-] & H).
    simpl. now rewrite (IH _ _ H).
Qed.

Lemma splits_app (a b : string) : In (a, b) (splits (a ++ b)).
Proof.
  induction a as [|c a IH]; simpl.
  - destruct b; simpl; auto.
  - right. apply in_map_iff. exists (a, b). split; [reflexivity|exact IH].
Qed.

Lemma lines_nonempty (s : string) : lines s <> [].
Proof.
  destruct s as [|c s]; simpl; [discriminate|].
  destruct (Ascii.eqb c newline); [discriminate|].
  destruct (lines s); discriminate.
Qed.

Lemma unlines_cons (l : string) (ls : list string) :
  ls <> [] -> unlines (l :: ls) = l ++ String newline (unlines ls).
Proof. destruct ls; [congruence|reflexivity]. Qed.

Lemma unlines_lines (s : string) : unlines (lines s) = s.
Proof.
  induction s as [|c s IH]; simpl; [reflexivity|].
  destruct (Ascii.eqb_spec c newline) as [->|Hc].
  - rewrite unlines_cons by apply lines_nonempty. simpl. now rewrite IH.
  - pose proof (lines_nonempty s) as Hne.
    destruct (lines s) as [|l ls]; [congruence|].
    destruct ls as [|l' ls].
    + cbn in IH. cbn. now rewrite IH.
    + rewrite unlines_cons by discriminate.
      rewrite unlines_cons in IH by discriminate.
      simpl. now rewrite IH.
Qed.

Lemma lines_no_newline (s : string) :
  Forall (fun l => no_newline l = true) (lines s).
Proof.
  induction s as [|c s IH]; simpl.
  - constructor; [reflexivity|constructor].
  - destruct (Ascii.eqb c newline) eqn:Hc.
    + constructor; [reflexivity|exact IH].
    + destruct (lines s) as [|l ls].
      * constructor; [simpl; now rewrite Hc|constructor].
      * inversion IH; subst. constructor; [simpl; now rewrite Hc|assumption].
Qed.

Lemma lines_line (l : string) : no_newline l = true -> lines l = [l].
Proof.
  induction l as [|c l IH]; simpl; [reflexivity|].
  intros H. apply andb_prop in H. destruct H as [Hc Hl].
  apply negb_true_iff in Hc. rewrite Hc, (IH Hl). reflexivity.
Qed.

Lemma lines_app_newline (l rest : string) :
  no_newline l = true ->
  lines (l ++ String newline rest) = l :: lines rest.
Proof.
  induction l as [|c l IH]; simpl; intros H; [reflexivity|].
  apply andb_prop in H. destruct H as [Hc Hl].
  apply negb_true_iff in Hc. rewrite Hc, (IH Hl). reflexivity.
Qed.

Lemma lines_unlines (ls : list string) :
  ls <> [] -> Forall (fun l => no_newline l = true) ls ->
  lines (unlines ls) = ls.
Proof.
  induction ls as [|l ls IH]; [congruence|]. intros _ H.
  inversion H as [|? ? Hl Hls]; subst.
  destruct ls as [|l' ls].
  - simpl. now apply lines_line.
  - rewrite unlines_cons by discriminate.
    rewrite lines_app_newline by assumption.
    now rewrite IH by (assumption || discriminate).
Qed.

Lemma no_newline_app (a b : string) :
  no_newline (a ++ b) = no_newline a && no_newline b.
Proof.
  induction a as [|c a IH]; simpl; [reflexivity|].
  now rewrite IH, andb_assoc.
Qed.

(** ** The patterns, line by line *)

Lemma module_name_intro (w suffix : string) :
  w <> "" -> all_word w = true ->
  suffix = "_pb2" \/ suffix = "_pb2_grpc" ->
  module_name (w ++ suffix) = true.
Proof.
  intros Hw Hall Hs. unfold module_name. apply existsb_exists.
  exists (w, suffix). split; [apply splits_app|]. simpl.
  apply String.eqb_neq in Hw. rewrite Hw, Hall. simpl.
  destruct Hs as [->| ->]; reflexivity.
Qed.

Lemma module_name_elim (m : string) :
  module_name m = true ->
  exists w suffix, m = w ++ suffix /\ w <> "" /\ all_word w = true
                   /\ (suffix = "_pb2" \/ suffix = "_pb2_grpc").
Proof.
  unfold module_name. intros H. apply existsb_exists in H.
  destruct H as ([w suffix] & Hin & H). simpl in H.
  apply andb_prop in H. destruct H as [H Hs].
  apply andb_prop in H. destruct H as [Hw Hall].
  exists w, suffix. split; [now apply splits_sound|].
  split; [now apply String.eqb_neq, negb_true_iff|]. split; [exact Hall|].
  apply orb_prop in Hs. destruct Hs as [Hs|Hs]; apply String.eqb_eq in Hs; auto.
Qed.

Lemma groups1_sound (line m alias : string) :
  In (m, alias) (groups1 line) ->
  line = "import " ++ m ++ " as " ++ alias
  /\ module_name m = true /\ alias <> "".
Proof.
  unfold groups1. destruct (strip_prefix "import " line) as [rest|] eqn:Hp;
    [|intros []].
  intros H. apply in_flat_map in H. destruct H as ([m' tail] & Hin & H).
  cbv beta iota in H. unfold fst, snd in H.
  destruct (module_name m') eqn:Hm; [|destruct H].
  destruct (strip_prefix " as " tail) as [y|] eqn:Ht; [|destruct H].
  destruct (String.eqb_spec y ""); [destruct H|].
  destruct H as [[= <- <-]|[]].
  apply strip_prefix_sound in Hp, Ht. apply splits_sound in Hin.
  subst. auto.
Qed.

Lemma groups1_complete (m alias : string) :
  module_name m = true -> alias <> "" ->
  In (m, alias) (groups1 ("import " ++ m ++ " as " ++ alias)).
Proof.
  intros Hm Ha. unfold groups1. rewrite strip_prefix_app.
  apply in_flat_map. exists (m, " as " ++ alias).
  split; [apply splits_app|]. cbv beta iota. unfold fst, snd.
  rewrite Hm, strip_prefix_app.
  apply String.eqb_neq in Ha. rewrite Ha. simpl. auto.
Qed.

Lemma match1_sound (line m alias : string) :
  match1 line = Some (m, alias) -> In (m, alias) (groups1 line).
Proof.
  unfold match1. intros H. apply in_rev.
  destruct (rev (groups1 line)); [discriminate|].
  injection H as ->. simpl. auto.
Qed.

Lemma match1_none (line : string) : match1 line = None -> groups1 line = [].
Proof.
  unfold match1. intros H.
  destruct (groups1 line) as [|g gs] eqn:Hg; [reflexivity|].
  assert (Hin : In g (rev (g :: gs))) by (apply in_rev; rewrite rev_involutive; simpl; auto).
  destruct (rev (g :: gs)); [destruct Hin|discriminate].
Qed.

Lemma sub1_spec (line : string) :
  (sub1 line = line /\ groups1 line = [])
  \/ (sub1 line = "from . " ++ line
      /\ exists m alias, line = "import " ++ m ++ " as " ++ alias
                         /\ module_name m = true /\ alias <> "").
Proof.
  unfold sub1. destruct (match1 line) as [[m alias]|] eqn:H.
  - right. apply match1_sound, groups1_sound in H.
    destruct H as (Hl & Hm & Ha). split; [now rewrite Hl|]. eauto.
  - left. split; [reflexivity|now apply match1_none].
Qed.

Lemma sub2_spec (line : string) :
  (sub2 line = line /\ match2 line = None)
  \/ (sub2 line = "from . " ++ line
      /\ exists m, line = "import " ++ m /\ module_name m = true).
Proof.
  unfold sub2, match2.
  destruct (strip_prefix "import " line) as [m|] eqn:Hp; [|now left].
  destruct (module_name m) eqn:Hm; [|now left].
  right. apply strip_prefix_sound in Hp. subst. split; [reflexivity|eauto].
Qed.

Lemma sub1_relative (l : string) : sub1 ("from . " ++ l) = "from . " ++ l.
Proof. reflexivity. Qed.

Lemma sub2_relative (l : string) : sub2 ("from . " ++ l) = "from . " ++ l.
Proof. reflexivity. Qed.

Lemma fix_line_spec (line : string) :
  (fix_line line = line /\ groups1 line = [] /\ match2 line = None)
  \/ (fix_line line = "from . " ++ line
      /\ exists m tail, line = "import " ++ m ++ tail
           /\ module_name m = true
           /\ (tail = "" \/ exists alias, alias <> "" /\ tail = " as " ++ alias)).
Proof.
  unfold fix_line. destruct (sub1_spec line) as [(-> & Hg)|(-> & m & y & Hl & Hm & Hy)].
  - destruct (sub2_spec line) as [(-> & Hn)|(-> & m & Hl & Hm)]; [now left|].
    right. split; [reflexivity|]. exists m, "". split; [|auto].
    rewrite Hl. clear. induction m; simpl; [reflexivity|].
    injection IHm as IH. now rewrite <- IH.
  - right. rewrite sub2_relative. split; [reflexivity|].
    exists m, (" as " ++ y). split; [exact Hl|]. split; [exact Hm|].
    right. eauto.
Qed.

Lemma fix_line_idempotent (line : string) :
  fix_line (fix_line line) = fix_line line.
Proof.
  destruct (fix_line_spec line) as [(H & _)|(H & _)]; rewrite H.
  - exact H.
  - reflexivity.
Qed.

Lemma sub1_no_newline (l : string) :
  no_newline l = true -> no_newline (sub1 l) = true.
Proof.
  intros H. destruct (sub1_spec l) as [(-> & _)|(-> & _)]; [exact H|].
  rewrite no_newline_app, H. reflexivity.
Qed.

Lemma sub2_no_newline (l : string) :
  no_newline l = true -> no_newline (sub2 l) = true.
Proof.
  intros H. destruct (sub2_spec l) as [(-> & _)|(-> & _)]; [exact H|].
  rewrite no_newline_app, H. reflexivity.
Qed.

Lemma lines_sub_lines (sub : string -> string) (content : string) :
  (forall l, no_newline l = true -> no_newline (sub l) = true) ->
  lines (sub_lines sub content) = map sub (lines content).
Proof.
  intros Hsub. unfold sub_lines. apply lines_unlines.
  - pose proof (lines_nonempty content). destruct (lines content); [congruence|discriminate].
  - apply Forall_map. eapply Forall_impl; [|apply lines_no_newline].
    exact Hsub.
Qed.

Lemma fix_content_lines (content : string) :
  fix_content content = unlines (map fix_line (lines content)).
Proof.
  unfold fix_content. unfold sub_lines at 1.
  rewrite lines_sub_lines by apply sub1_no_newline.
  now rewrite map_map.
Qed.

Lemma lines_fix_content (content : string) :
  lines (fix_content content) = map fix_line (lines content).
Proof.
  unfold fix_content. rewrite lines_sub_lines by apply sub2_no_newline.
  rewrite lines_sub_lines by apply sub1_no_newline.
  now rewrite map_map.
Qed.

Lemma fix_content_fixed (content : string) :
  fix_content (fix_content content) = fix_content content.
Proof.
  rewrite (fix_content_lines (fix_content content)), lines_fix_content.
  rewrite map_map, fix_content_lines. f_equal. apply map_ext.
  apply fix_line_idempotent.
Qed.

(** ** Files and traces *)

Lemma read_write_same (n t : string) (d : Dir) : read n (write n t d) = Some t.
Proof.
  unfold read, write. destruct (existsb (fun f => fst f =? n) d) eqn:He.
  - induction d as [|f d IH]; [discriminate|]. simpl in *.
    destruct (fst f =? n) eqn:Hf; simpl.
    + now rewrite String.eqb_refl.
    + rewrite Hf. apply IH. exact He.
  - induction d as [|f d IH]; simpl in *.
    + now rewrite String.eqb_refl.
    + apply orb_false_elim in He. destruct He as [Hf He].
      rewrite Hf. now apply IH.
Qed.

Lemma read_write_other (n m t : string) (d : Dir) :
  m <> n -> read m (write n t d) = read m d.
Proof.
  intros Hmn. assert (Hnm : (n =? m) = false) by (apply String.eqb_neq; congruence).
  unfold read, write. destruct (existsb (fun f => fst f =? n) d).
  - induction d as [|f d IH]; [reflexivity|]. simpl.
    destruct (String.eqb_spec (fst f) n) as [Hf|Hf]; simpl.
    + rewrite Hnm, Hf, Hnm. exact IH.
    + destruct (fst f =? m); [reflexivity|exact IH].
  - induction d as [|f d IH]; simpl.
    + now rewrite Hnm.
    + destruct (fst f =? m); [reflexivity|exact IH].
Qed.

Lemma names_write (n t : string) (d : Dir) :
  existsb (fun f => fst f =? n) d = true ->
  map fst (write n t d) = map fst d.
Proof.
  intros He. unfold write. rewrite He. clear He.
  induction d as [|f d IH]; [reflexivity|]. simpl. rewrite IH. f_equal.
  destruct (String.eqb_spec (fst f) n); simpl; congruence.
Qed.

Lemma read_some_exists (n c : string) (d : Dir) :
  read n d = Some c -> existsb (fun f => fst f =? n) d = true.
Proof.
  unfold read. induction d as [|f d IH]; simpl; [discriminate|].
  destruct (fst f =? n); [reflexivity|exact IH].
Qed.

Lemma read_none_iff (n : string) (d : Dir) :
  read n d = None <-> ~ In n (map fst d).
Proof.
  unfold read. induction d as [|f d IH]; simpl; [tauto|].
  destruct (String.eqb_spec (fst f) n) as [Hf|Hf]; simpl.
  - split; [discriminate|]. intros H. exfalso. apply H. auto.
  - rewrite IH. tauto.
Qed.

Lemma gen_runs_app (a b : list GenEvent) :
  gen_runs (a ++ b) = (gen_runs b ++ gen_runs a)%list.
Proof.
  induction a as [|e a IH]; simpl; [now rewrite app_nil_r|].
  destruct e; rewrite ?IH, ?app_assoc; reflexivity.
Qed.

Lemma gen_writes_app (a b : list GenEvent) :
  gen_writes (a ++ b) = (gen_writes b ++ gen_writes a)%list.
Proof.
  induction a as [|e a IH]; simpl; [now rewrite app_nil_r|].
  destruct e; rewrite ?IH, ?app_assoc; reflexivity.
Qed.

(** ** One file, and all of them *)

Lemma fix_file_effect (g : Gen) (n : string) :
  map fst (out_files (fix_file g n)) = map fst (out_files g)
  /\ (forall m, read m (out_files (fix_file g n)) =
                if m =? n then option_map fix_content (read m (out_files g))
                else read m (out_files g))
  /\ exists new,
       gen_trace (fix_file g n) = (new ++ gen_trace g)%list
       /\ gen_runs new = []
       /\ (forall x t, In (x, t) (gen_writes new) ->
             x = n /\ exists c, read n (out_files g) = Some c
                                /\ t = fix_content c /\ t <> c)
       /\ ((forall c, read n (out_files g) = Some c -> fix_content c = c) ->
           out_files (fix_file g n) = out_files g /\ gen_writes new = []).
Proof.
  unfold fix_file. simpl.
  destruct (read n (out_files g)) as [c|] eqn:Hr.
  - destruct (String.eqb_spec (fix_content c) c) as [Hc|Hc]; simpl.
    + split; [reflexivity|]. split.
      * intros m. destruct (String.eqb_spec m n) as [->|]; [|reflexivity].
        rewrite Hr. simpl. now rewrite Hc.
      * exists [GenPrint (MsgNothingToFix n); GenRead n; GenPrint (MsgFixing n)].
        split; [reflexivity|]. split; [reflexivity|].
        split; [intros x t []|]. intros _. split; reflexivity.
    + split; [apply names_write; eapply read_some_exists; eassumption|]. split.
      * intros m. destruct (String.eqb_spec m n) as [->|Hm].
        -- rewrite read_write_same, Hr. reflexivity.
        -- now apply read_write_other.
      * exists [GenPrint (MsgFixed n); GenWrite n (fix_content c); GenRead n;
                GenPrint (MsgFixing n)].
        split; [reflexivity|]. split; [reflexivity|]. split.
        -- intros x t [[= <- <-]|[]]. split; [reflexivity|]. exists c. auto.
        -- intros H. destruct Hc. now apply H.
  - split; [reflexivity|]. split.
    + intros m. destruct (String.eqb_spec m n) as [->|]; [|reflexivity].
      now rewrite Hr.
    + exists [GenPrint (MsgFixing n)]. split; [reflexivity|].
      split; [reflexivity|]. split; [intros x t []|]. intros _. split; reflexivity.
Qed.

Lemma fix_files_effect (l : list string) (g : Gen) :
  map fst (out_files (fold_left fix_file l g)) = map fst (out_files g)
  /\ (forall m, read m (out_files (fold_left fix_file l g)) =
                if existsb (String.eqb m) l
                then option_map fix_content (read m (out_files g))
                else read m (out_files g))
  /\ exists new,
       gen_trace (fold_left fix_file l g) = (new ++ gen_trace g)%list
       /\ gen_runs new = []
       /\ forall x t, In (x, t) (gen_writes new) ->
            In x l /\ exists c, read x (out_files g) = Some c
                                /\ t = fix_content c /\ t <> c.
Proof.
  revert g. induction l as [|n l IH]; intros g; simpl.
  - split; [reflexivity|]. split; [reflexivity|]. exists [].
    split; [reflexivity|]. split; [reflexivity|]. intros x t [].
  - destruct (IH (fix_file g n)) as (Hnames & Hread & new & Htr & Hruns & Hw).
    destruct (fix_file_effect g n)
      as (Hnames1 & Hread1 & new1 & Htr1 & Hruns1 & Hw1 & _).
    split; [congruence|]. split.
    + intros m. rewrite Hread, Hread1.
      destruct (String.eqb_spec m n) as [->|Hm]; simpl.
      * destruct (existsb (String.eqb n) l); [|reflexivity].
        destruct (read n (out_files g)); simpl; [|reflexivity].
        now rewrite fix_content_fixed.
      * reflexivity.
    + exists (new ++ new1)%list. split; [now rewrite Htr, Htr1, app_assoc|].
      split; [now rewrite gen_runs_app, Hruns, Hruns1|].
      intros x t Hin. rewrite gen_writes_app in Hin.
      apply in_app_or in Hin. destruct Hin as [Hin|Hin].
      * destruct (Hw1 x t Hin) as (-> & c & Hc). split; [auto|]. exists c. exact Hc.
      * destruct (Hw x t Hin) as (Hx & c & Hc & Ht & Hne).
        rewrite Hread1 in Hc. destruct (String.eqb_spec x n) as [->|Hxn].
        -- destruct (read n (out_files g)) as [c0|]; [|discriminate].
           injection Hc as <-. rewrite fix_content_fixed in Ht. contradiction.
        -- split; [auto|]. exists c. auto.
Qed.

Lemma fix_files_fixed (l : list string) (g : Gen) :
  (forall n c, In n l -> read n (out_files g) = Some c -> fix_content c = c) ->
  out_files (fold_left fix_file l g) = out_files g
  /\ exists new, gen_trace (fold_left fix_file l g) = (new ++ gen_trace g)%list
                 /\ gen_writes new = [].
Proof.
  revert g. induction l as [|n l IH]; intros g Hfix; simpl.
  - split; [reflexivity|]. now exists [].
  - destruct (fix_file_effect g n) as (_ & _ & new1 & Htr1 & _ & _ & Hsame).
    destruct Hsame as [Hout Hw1]; [intros c; apply Hfix; simpl; auto|].
    destruct (IH (fix_file g n)) as (Hout' & new & Htr & Hw).
    { intros m c Hm. rewrite Hout. apply Hfix. simpl. auto. }
    split; [congruence|]. exists (new ++ new1)%list.
    split; [now rewrite Htr, Htr1, app_assoc|].
    now rewrite gen_writes_app, Hw, Hw1.
Qed.

Lemma fix_imports_read (g : Gen) (m : string) :
  read m (out_files (fix_imports g)) =
  if pb2_glob m then option_map fix_content (read m (out_files g))
  else read m (out_files g).
Proof.
  unfold fix_imports.
  destruct (fix_files_effect (filter pb2_glob (map fst (out_files g))) g)
    as (_ & Hread & _).
  rewrite Hread. clear Hread.
  destruct (existsb (String.eqb m) (filter pb2_glob (map fst (out_files g))))
    eqn:He.
  - apply existsb_exists in He. destruct He as (x & Hx & Hmx).
    apply String.eqb_eq in Hmx. subst x. apply filter_In in Hx.
    destruct Hx as [_ ->]. reflexivity.
  - destruct (pb2_glob m) eqn:Hg; [|reflexivity].
    assert (Hnone : read m (out_files g) = None).
    { apply read_none_iff. intros Hin.
      assert (Ht : existsb (String.eqb m)
                     (filter pb2_glob (map fst (out_files g))) = true).
      { apply existsb_exists. exists m. split; [|apply String.eqb_refl].
        apply filter_In. auto. }
      congruence. }
    now rewrite Hnone.
Qed.

Lemma fix_imports_rewrites (g : Gen) :
  exists new, gen_trace (fix_imports g) = (new ++ gen_trace g)%list
              /\ gen_runs new = [].
Proof.
  unfold fix_imports.
  destruct (fix_files_effect (filter pb2_glob (map fst (out_files g))) g)
    as (_ & _ & new & Htr & Hruns & _).
  eauto.
Qed.

(** ** The compilation loop *)

Lemma compile_effect (protos : list string) :
  forall g ok g', compile protos g = (ok, g') ->
  exists new,
    gen_trace g' = (new ++ gen_trace g)%list
    /\ gen_writes new = []
    /\ (if ok then gen_runs new = map compiled protos
        else exists done p rest rc,
               protos = (done ++ p :: rest)%list /\ rc <> 0%Z
               /\ gen_runs new = (map compiled done ++ [(protoc_cmd p, rc)])%list).
Proof.
  induction protos as [|p protos IH]; simpl; intros g ok g' H.
  - injection H as <- <-. exists []. repeat split; reflexivity.
  - destruct (subprocess_run (protoc_cmd p) (out_files g)) as [[rc err] d].
    destruct (Z.eqb_spec rc 0) as [->|Hrc]; simpl in H.
    + apply IH in H. destruct H as (new & Htr & Hw & Hok). simpl in Htr.
      exists (new ++ [GenRun (protoc_cmd p) 0;
                      GenPrint (MsgGenerating (path_name p))])%list.
      split; [rewrite Htr, <- app_assoc; reflexivity|].
      split; [rewrite gen_writes_app, Hw; reflexivity|].
      destruct ok.
      * rewrite gen_runs_app, Hok. reflexivity.
      * destruct Hok as (done & q & rest & rc & Hp & Hrc & Hruns).
        exists (p :: done), q, rest, rc. split; [now rewrite Hp|].
        split; [exact Hrc|]. rewrite gen_runs_app, Hruns. reflexivity.
    + injection H as <- <-.
      exists [GenPrint (MsgStderr err); GenPrint (MsgGenerateFailed (path_name p));
              GenRun (protoc_cmd p) rc; GenPrint (MsgGenerating (path_name p))].
      split; [reflexivity|]. split; [reflexivity|].
      exists [], p, protos, rc. repeat split; auto.
Qed.

Lemma say_all_effect (names : list string) (g : Gen) :
  out_files (fold_left
               (fun g proto_file => say (MsgProtoFile (path_name proto_file)) g)
               names g) = out_files g
  /\ exists new,
       gen_trace (fold_left
                    (fun g proto_file => say (MsgProtoFile (path_name proto_file)) g)
                    names g) = (new ++ gen_trace g)%list
       /\ gen_runs new = [] /\ gen_writes new = [].
Proof.
  revert g. induction names as [|n names IH]; intros g; simpl.
  - split; [reflexivity|]. now exists [].
  - destruct (IH (say (MsgProtoFile (path_name n)) g)) as (Hout & new & Htr & Hr & Hw).
    split; [exact Hout|].
    exists (new ++ [GenPrint (MsgProtoFile (path_name n))])%list.
    split; [rewrite Htr, <- app_assoc; reflexivity|].
    now rewrite gen_runs_app, gen_writes_app, Hr, Hw.
Qed.

(** ** What the generator guarantees *)

(** X16.  [fix_imports] rewrites a text line by line: the lines keep their
    number and order, and each line is either kept as it is or gets
    [from . ] put in front; the latter only for a line [import m] or
    [import m as alias] whose module [m] is some word characters followed
    by [_pb2] or [_pb2_grpc]. *)
Theorem fix_content_line_by_line (content : string) :
  Forall2
    (fun old new =>
       new = old
       \/ (new = "from . " ++ old
           /\ exists m tail,
                old = "import " ++ m ++ tail
                /\ module_name m = true
                /\ (tail = ""
                    \/ exists alias, alias <> "" /\ tail = " as " ++ alias)))
    (lines content) (lines (fix_content content)).
Proof.
  rewrite lines_fix_content.
  induction (lines content) as [|l ls IH]; simpl; constructor; [|exact IH].
  destruct (fix_line_spec l) as [(H & _)|(H & Hform)]; [now left|].
  right. split; assumption.
Qed.

(** X17.  Fixing is idempotent: a fixed text is left as it is, and a
    second pass of [fix_imports] over the directory changes no file and
    writes none. *)
Theorem fix_imports_is_idempotent (content : string) (g : Gen) :
  fix_content (fix_content content) = fix_content content
  /\ out_files (fix_imports (fix_imports g)) = out_files (fix_imports g)
  /\ exists new,
       gen_trace (fix_imports (fix_imports g)) =
         (new ++ gen_trace (fix_imports g))%list
       /\ gen_writes new = [].
Proof.
  split; [apply fix_content_fixed|].
  unfold fix_imports at 1 3. apply fix_files_fixed.
  intros n c Hn Hc. apply filter_In in Hn. destruct Hn as [_ Hn].
  rewrite fix_imports_read, Hn in Hc.
  destruct (read n (out_files g)); [|discriminate].
  injection Hc as <-. apply fix_content_fixed.
Qed.

(** X18.  The imports the generator is after do become relative: a line
    [import x_pb2], [import x_pb2_grpc] or either with [as alias], where
    [x] is a non-empty run of word characters, is replaced, at its place
    in the text, by the same line behind [from . ]. *)
Theorem stub_imports_become_relative (content x suffix alias : string)
    (i : nat) :
  x <> "" -> all_word x = true ->
  suffix = "_pb2" \/ suffix = "_pb2_grpc" ->
  (nth_error (lines content) i = Some ("import " ++ x ++ suffix) ->
   nth_error (lines (fix_content content)) i
     = Some ("from . import " ++ x ++ suffix))
  /\ (alias <> "" ->
      nth_error (lines content) i
        = Some ("import " ++ x ++ suffix ++ " as " ++ alias) ->
      nth_error (lines (fix_content content)) i
        = Some ("from . import " ++ x ++ suffix ++ " as " ++ alias)).
Proof.
  intros Hx Hall Hs.
  pose proof (module_name_intro x suffix Hx Hall Hs) as Hm.
  rewrite lines_fix_content, nth_error_map. split.
  - intros ->. cbn [option_map]. f_equal.
    destruct (fix_line_spec ("import " ++ x ++ suffix))
      as [(_ & _ & Hn)|(-> & _)]; [|reflexivity].
    unfold match2 in Hn. rewrite strip_prefix_app, Hm in Hn. discriminate.
  - intros Ha ->. cbn [option_map]. f_equal.
    destruct (fix_line_spec ("import " ++ x ++ suffix ++ " as " ++ alias))
      as [(_ & Hg & _)|(-> & _)]; [|reflexivity].
    pose proof (groups1_complete (x ++ suffix) alias Hm Ha) as Hin.
    rewrite string_app_assoc in Hin. rewrite Hg in Hin. destruct Hin.
Qed.

(** X19.  [fix_imports] keeps the files of the directory, gives every file
    the glob selects its fixed text and leaves every other file alone; it
    runs no command, and it writes a file only when fixing changed its
    text. *)
Theorem fix_imports_rewrites_stub_files (g : Gen) :
  map fst (out_files (fix_imports g)) = map fst (out_files g)
  /\ (forall n,
        read n (out_files (fix_imports g)) =
        if pb2_glob n then option_map fix_content (read n (out_files g))
        else read n (out_files g))
  /\ exists new,
       gen_trace (fix_imports g) = (new ++ gen_trace g)%list
       /\ gen_runs new = []
       /\ forall n t, In (n, t) (gen_writes new) ->
            pb2_glob n = true
            /\ exists c, read n (out_files g) = Some c
                         /\ t = fix_content c /\ t <> c.
Proof.
  split; [|split; [apply fix_imports_read|]].
  - apply fix_files_effect.
  - unfold fix_imports.
    destruct (fix_files_effect (filter pb2_glob (map fst (out_files g))) g)
      as (_ & _ & new & Htr & Hruns & Hw).
    exists new. split; [exact Htr|]. split; [exact Hruns|].
    intros n t Hin. destruct (Hw n t Hin) as (Hn & Hc).
    apply filter_In in Hn. split; [apply Hn|exact Hc].
Qed.

Lemma generate_stubs_run (out : option Dir) (tr : list GenEvent) :
  (proto_exists = false
   /\ generate_stubs out tr =
        (1%Z, out, GenPrint MsgCopyProto :: GenPrint MsgProtoMissing :: tr))
  \/ (proto_exists = true /\ proto_files = []
      /\ generate_stubs out tr =
           (1%Z, Some (match out with Some d => d | None => [] end),
            GenPrint MsgNoProto :: GenMkdir :: tr))
  \/ (proto_exists = true
      /\ exists d new done p rest rc,
           generate_stubs out tr = (1%Z, Some d, (new ++ GenMkdir :: tr)%list)
           /\ proto_files = (done ++ p :: rest)%list /\ rc <> 0%Z
           /\ gen_runs new = (map compiled done ++ [(protoc_cmd p, rc)])%list
           /\ gen_writes new = [])
  \/ (proto_exists = true /\ proto_files <> []
      /\ exists d new,
           generate_stubs out tr =
             (0%Z, Some d,
              GenWrite "__init__.py" init_text :: (new ++ GenMkdir :: tr)%list)
           /\ gen_runs new = map compiled proto_files
           /\ read "__init__.py" d = Some init_text
           /\ forall n c, pb2_glob n = true -> read n d = Some c ->
                          fix_content c = c).
Proof.
  unfold generate_stubs. destruct proto_exists; [|now left]. right. simpl.
  destruct proto_files as [|p0 ps] eqn:Hps; [left; auto|]. right.
  rewrite <- Hps.
  set (g0 := {| out_files := match out with Some d => d | None => [] end;
                gen_trace := GenMkdir :: tr |}).
  set (g1 := say (MsgFoundProtos (List.length proto_files)) g0).
  destruct (say_all_effect proto_files g1) as (Hout2 & new2 & Htr2 & Hr2 & Hw2).
  set (g2 := fold_left _ proto_files g1) in *.
  destruct (compile proto_files (say MsgGeneratingStubs g2)) as [ok g3] eqn:Hc.
  apply compile_effect in Hc. destruct Hc as (new3 & Htr3 & Hw3 & Hok).
  simpl in Htr3. rewrite Htr2 in Htr3. simpl in Htr3.
  destruct ok.
  - right. split; [reflexivity|]. split; [congruence|].
    set (g4 := say MsgFixingImports g3).
    destruct (fix_imports_rewrites g4) as (new5 & Htr5 & Hr5).
    exists (write "__init__.py" init_text (out_files (fix_imports g4))),
      (GenPrint (MsgOutputDir (absolute "generated")) :: GenPrint MsgGenerated
         :: new5 ++ GenPrint MsgFixingImports :: new3
         ++ GenPrint MsgGeneratingStubs :: new2
         ++ [GenPrint (MsgFoundProtos (List.length proto_files))])%list.
    split.
    + simpl. rewrite Htr5. simpl. rewrite Htr3.
      repeat (rewrite <- ?app_assoc; simpl). reflexivity.
    + split.
      * cbn [gen_runs]. repeat (rewrite gen_runs_app; cbn [gen_runs]).
        rewrite Hr5, Hr2, Hok. simpl. now rewrite ?app_nil_r.
      * split; [apply read_write_same|].
        intros n c Hn. destruct (String.eqb_spec n "__init__.py") as [->|Hne].
        -- rewrite read_write_same. intros [= <-]. reflexivity.
        -- rewrite read_write_other by exact Hne. simpl.
           rewrite fix_imports_read, Hn.
           destruct (read n (out_files g4)); [|discriminate].
           intros [= <-]. apply fix_content_fixed.
  - left. split; [reflexivity|].
    destruct Hok as (done & p & rest & rc & Hp & Hrc & Hruns).
    exists (out_files g3), (new3 ++ GenPrint MsgGeneratingStubs :: new2
                              ++ [GenPrint (MsgFoundProtos (List.length proto_files))])%list,
      done, p, rest, rc.
    split.
    + rewrite Htr3. repeat (rewrite <- ?app_assoc; simpl). reflexivity.
    + split; [exact Hp|]. split; [exact Hrc|]. split.
      * repeat (rewrite gen_runs_app; cbn [gen_runs]).
        rewrite Hr2, Hruns. reflexivity.
      * repeat (rewrite gen_writes_app; cbn [gen_writes]).
        rewrite Hw2, Hw3. reflexivity.
Qed.


(** X21.  A run that returns 1 has written no file: no import is fixed and
    no [__init__.py] is made.  Without [proto/] it has not touched
    [generated/] at all; otherwise it has created [generated/] all the
    same, and, when the compiler failed on a file, the files before it were
    compiled and the ones after it were not. *)
Theorem failed_generation_writes_nothing (out out' : option Dir)
    (tr tr' : list GenEvent) :
  generate_stubs out tr = (1%Z, out', tr') ->
  exists new,
    tr' = (new ++ tr)%list /\ gen_writes new = []
    /\ (proto_exists = false ->
        out' = out /\ gen_runs new = [] /\ ~ In GenMkdir new)
    /\ (proto_exists = true ->
        out' <> None /\ In GenMkdir new
        /\ (proto_files <> [] ->
            exists done p rest rc,
              proto_files = (done ++ p :: rest)%list /\ rc <> 0%Z
              /\ gen_runs new
                 = (map compiled done ++ [(protoc_cmd p, rc)])%list)).
Proof.
  destruct (generate_stubs_run out tr)
    as [(He & ->)|[(He & Hps & ->)|[(He & d & new & done & p & rest & rc & -> & Hps & Hrc & Hruns & Hw)
                                   |(He & Hps & d & new & -> & _)]]];
    intros [= <- <-].
  - exists [GenPrint MsgCopyProto; GenPrint MsgProtoMissing].
    split; [reflexivity|]. split; [reflexivity|]. split; [|congruence].
    intros _. split; [reflexivity|]. split; [reflexivity|].
    intros [H|[H|[]]]; discriminate.
  - exists [GenPrint MsgNoProto; GenMkdir].
    split; [reflexivity|]. split; [reflexivity|]. split; [congruence|].
    intros _. split; [discriminate|]. split; [simpl; auto|]. contradiction.
  - exists (new ++ [GenMkdir])%list.
    split; [now rewrite <- app_assoc|].
    split; [now rewrite gen_writes_app, Hw|]. split; [congruence|].
    intros _. split; [discriminate|].
    split; [apply in_or_app; simpl; auto|]. intros _.
    exists done, p, rest, rc. split; [exact Hps|]. split; [exact Hrc|].
    rewrite gen_runs_app. exact Hruns.
Qed.

(** X22.  A run that returns 0 leaves [generated/] with an [__init__.py]
    holding the one docstring line, written last, and with every file the
    glob selects already fixed: fixing it again would change nothing. *)
Theorem successful_generation (out out' : option Dir)
    (tr tr' : list GenEvent) :
  generate_stubs out tr = (0%Z, out', tr') ->
  exists d new,
    out' = Some d
    /\ tr' = (GenWrite "__init__.py" init_text :: new ++ tr)%list
    /\ gen_runs new = map compiled proto_files
    /\ read "__init__.py" d = Some init_text
    /\ forall n c, pb2_glob n = true -> read n d = Some c ->
                   fix_content c = c.
Proof.
  destruct (generate_stubs_run out tr)
    as [(He & ->)|[(He & Hps & ->)|[(He & d & new & done & p & rest & rc & -> & _)
                                   |(He & Hps & d & new & -> & Hruns & Hinit & Hfixed)]]];
    intros [= <- <-].
  exists d, (new ++ [GenMkdir])%list. split; [reflexivity|].
  split; [now rewrite <- app_assoc|].
  split; [now rewrite gen_runs_app|]. split; assumption.
Qed.

End Generator.

(** ** A sample run of the generator *)

(** ASCII [\w]. *)
Definition ascii_word (c : ascii) : bool :=
  let n := nat_of_ascii c in
  ((48 <=? n) && (n <=? 57) || (65 <=? n) && (n <=? 90)
   || (97 <=? n) && (n <=? 122) || (n =? 95))%nat.

(** [fnmatch(name, "*_pb2*.py")]. *)
Definition stub_glob (name : string) : bool :=
  existsb (fun p =>
             match strip_prefix "_pb2" (snd p) with
             | Some rest => existsb (fun q => snd q =? ".py") (splits rest)
             | None => false
             end)
          (splits name).

Definition grpc_stub_text : string :=
  unlines [ "import grpc";
            "import area_scan_inference_pb2 as area__scan__inference__pb2";
            "import ripcord_grpc_pb2";
            "" ].

Definition sample_name (path : string) : string :=
  match strip_prefix "proto/" path with
  | Some name => name
  | None => path
  end.

(** A compiler that fails on [proto/broken.proto] and otherwise writes
    the same stub module. *)
Definition sample_protoc (cmd : list string) (d : Dir) : Z * string * Dir :=
  if last cmd "" =? "proto/broken.proto"
  then (1%Z, "broken.proto: syntax error", d)
  else (0%Z, "", write "area_scan_inference_pb2_grpc.py" grpc_stub_text d).

Definition sample_generate (proto_files : list string)
    : option Dir -> list GenEvent -> Z * option Dir * list GenEvent :=
  generate_stubs ascii_word stub_glob "python" true proto_files sample_name
    (fun p => "/work/" ++ p) sample_protoc.

Example sample_fix_content :
  fix_content ascii_word grpc_stub_text =
  unlines [ "import grpc";
            "from . import area_scan_inference_pb2 as area__scan__inference__pb2";
            "from . import ripcord_grpc_pb2";
            "" ].
Proof. vm_compute. reflexivity. Qed.

Example sample_generation :
  fst (sample_generate ["proto/area_scan_inference.proto"] None []) =
  (0%Z,
   Some [ ("area_scan_inference_pb2_grpc.py",
           fix_content ascii_word grpc_stub_text);
          ("__init__.py", init_text) ]).
Proof. vm_compute. reflexivity. Qed.

Lemma stub_imports_become_relative_witness :
  (nth_error (lines grpc_stub_text) 2 = Some ("import " ++ "ripcord_grpc" ++ "_pb2") ->
   nth_error (lines (fix_content ascii_word grpc_stub_text)) 2
     = Some ("from . import " ++ "ripcord_grpc" ++ "_pb2"))
  /\ ("rg" <> "" ->
      nth_error (lines grpc_stub_text) 2
        = Some ("import " ++ "ripcord_grpc" ++ "_pb2" ++ " as " ++ "rg") ->
      nth_error (lines (fix_content ascii_word grpc_stub_text)) 2
        = Some ("from . import " ++ "ripcord_grpc" ++ "_pb2" ++ " as " ++ "rg")).
Proof.
  apply (stub_imports_become_relative ascii_word grpc_stub_text
           "ripcord_grpc" "_pb2" "rg" 2).
  - discriminate.
  - reflexivity.
  - left. reflexivity.
Defined.

Lemma failed_generation_writes_nothing_witness :
  exists new,
    snd (sample_generate ["proto/a.proto"; "proto/broken.proto"; "proto/c.proto"]
           None [])
      = (new ++ [])%list
    /\ gen_writes new = []
    /\ gen_runs new =
         [ (protoc_cmd "python" "proto/a.proto", 0%Z);
           (protoc_cmd "python" "proto/broken.proto", 1%Z) ].
Proof.
  destruct (failed_generation_writes_nothing ascii_word stub_glob "python" true
              ["proto/a.proto"; "proto/broken.proto"; "proto/c.proto"]
              sample_name (fun p => "/work/" ++ p) sample_protoc
              None
              (snd (fst (sample_generate
                           ["proto/a.proto"; "proto/broken.proto"; "proto/c.proto"]
                           None [])))
              []
              (snd (sample_generate
                      ["proto/a.proto"; "proto/broken.proto"; "proto/c.proto"]
                      None [])))
    as (new & Htr & Hw & _ & Hrun).
  - vm_compute. reflexivity.
  - exists new. split; [exact Htr|]. split; [exact Hw|].
    destruct (Hrun eq_refl) as (_ & _ & Hfail).
    destruct Hfail as (done & p & rest & rc & Hps & Hrc & Hruns);
      [discriminate|].
    rewrite app_nil_r in Htr. rewrite <- Htr. vm_compute. reflexivity.
Defined.

Lemma successful_generation_witness :
  exists d new,
    snd (fst (sample_generate ["proto/area_scan_inference.proto"] None []))
      = Some d
    /\ snd (sample_generate ["proto/area_scan_inference.proto"] None [])
       = (GenWrite "__init__.py" init_text :: new ++ [])%list
    /\ gen_runs new
       = map (compiled "python") ["proto/area_scan_inference.proto"]
    /\ read "__init__.py" d = Some init_text
    /\ forall n c, stub_glob n = true -> read n d = Some c ->
                   fix_content ascii_word c = c.
Proof.
  apply (successful_generation ascii_word stub_glob "python" true
           ["proto/area_scan_inference.proto"] sample_name
           (fun p => "/work/" ++ p) sample_protoc None).
  vm_compute. reflexivity.
Defined.

(** * The main window

    [AreaScanProfilerUI]: the attributes and the widgets its slots read or
    change, and the slots as programs that may raise and that run the
    client's methods.  Style sheets and layout are left out. *)

(** The arguments [InferenceWorker] is constructed with. *)
Record Job : Type := {
  job_client : option unit;
  job_image_path : string;
  job_model_type : string;
  job_confidence_threshold : float
}.

(** The texts of [status_label]. *)
Inductive StatusText : Type :=
| StReady
| StConnected (address : string)
| StNotResponding
| StConnectionFailed
| StLoadedOne
| StLoaded (count : nat)
| StProgress (message : string)
| StComplete
| StError.

(** What [image_label] shows. *)
Inductive Preview : Type :=
| NoImageSelected
| Scaled (image_path : string)
| ErrorLoadingImage (e : exn).

(** The texts of [image_info_label]. *)
Inductive ImageInfo : Type :=
| InfoEmpty
| InfoFile (name : string) (size_kb : Z)
| InfoCount (count : nat).

(** The lines [on_inference_complete] joins into [predictions_text]. *)
Inductive OutputLine : Type :=
| LnRule
| LnTitle
| LnImage (name : string)
| LnBlank
| LnDetectionHeader
| LnFoundObjects (count : nat)
| LnSegmentationHeader
| LnFoundSegments (count : nat)
| LnLatency (ms : float)
| LnDetection (i : nat) (pred : PredictionDict)
| LnSegment (i : nat) (pred : PredictionDict) (poly_count : nat)
| LnNoPredictions
| LnCompleted.

Inductive MessageBox : Type :=
| ConnectionError (e : exn)
| InvalidPath
| InferenceError (error : exn).

(** [worker] lists the workers started, the most recent first:
    [self.worker] is the first of them.  [run_btn] and [progress_bar] are
    the button's [isEnabled] and the bar's [isVisible]; [message_boxes]
    are the dialogs shown, the most recent first. *)
Record Window : Type := {
  client : option unit;
  current_image_path : option string;
  loaded_images : list string;
  worker : list Job;
  run_btn : bool;
  progress_bar : bool;
  status_label : StatusText;
  image_label : Preview;
  image_info_label : ImageInfo;
  predictions_text : list OutputLine;
  model_combo : string;
  confidence_slider : Z;
  message_boxes : list MessageBox
}.

Definition set_client (v : option unit) (w : Window) : Window :=
  {| client := v;
     current_image_path := current_image_path w;
     loaded_images := loaded_images w;
     worker := worker w;
     run_btn := run_btn w;
     progress_bar := progress_bar w;
     status_label := status_label w;
     image_label := image_label w;
     image_info_label := image_info_label w;
     predictions_text := predictions_text w;
     model_combo := model_combo w;
     confidence_slider := confidence_slider w;
     message_boxes := message_boxes w |}.

Definition set_current_image_path (v : option string) (w : Window) : Window :=
  {| client := client w;
     current_image_path := v;
     loaded_images := loaded_images w;
     worker := worker w;
     run_btn := run_btn w;
     progress_bar := progress_bar w;
     status_label := status_label w;
     image_label := image_label w;
     image_info_label := image_info_label w;
     predictions_text := predictions_text w;
     model_combo := model_combo w;
     confidence_slider := confidence_slider w;
     message_boxes := message_boxes w |}.

Definition set_loaded_images (v : list string) (w : Window) : Window :=
  {| client := client w;
     current_image_path := current_image_path w;
     loaded_images := v;
     worker := worker w;
     run_btn := run_btn w;
     progress_bar := progress_bar w;
     status_label := status_label w;
     image_label := image_label w;
     image_info_label := image_info_label w;
     predictions_text := predictions_text w;
     model_combo := model_combo w;
     confidence_slider := confidence_slider w;
     message_boxes := message_boxes w |}.

Definition start_worker (job : Job) (w : Window) : Window :=
  {| client := client w;
     current_image_path := current_image_path w;
     loaded_images := loaded_images w;
     worker := job :: worker w;
     run_btn := run_btn w;
     progress_bar := progress_bar w;
     status_label := status_label w;
     image_label := image_label w;
     image_info_label := image_info_label w;
     predictions_text := predictions_text w;
     model_combo := model_combo w;
     confidence_slider := confidence_slider w;
     message_boxes := message_boxes w |}.

Definition set_run_btn (v : bool) (w : Window) : Window :=
  {| client := client w;
     current_image_path := current_image_path w;
     loaded_images := loaded_images w;
     worker := worker w;
     run_btn := v;
     progress_bar := progress_bar w;
     status_label := status_label w;
     image_label := image_label w;
     image_info_label := image_info_label w;
     predictions_text := predictions_text w;
     model_combo := model_combo w;
     confidence_slider := confidence_slider w;
     message_boxes := message_boxes w |}.

Definition set_progress_bar (v : bool) (w : Window) : Window :=
  {| client := client w;
     current_image_path := current_image_path w;
     loaded_images := loaded_images w;
     worker := worker w;
     run_btn := run_btn w;
     progress_bar := v;
     status_label := status_label w;
     image_label := image_label w;
     image_info_label := image_info_label w;
     predictions_text := predictions_text w;
     model_combo := model_combo w;
     confidence_slider := confidence_slider w;
     message_boxes := message_boxes w |}.

Definition set_status_label (v : StatusText) (w : Window) : Window :=
  {| client := client w;
     current_image_path := current_image_path w;
     loaded_images := loaded_images w;
     worker := worker w;
     run_btn := run_btn w;
     progress_bar := progress_bar w;
     status_label := v;
     image_label := image_label w;
     image_info_label := image_info_label w;
     predictions_text := predictions_text w;
     model_combo := model_combo w;
     confidence_slider := confidence_slider w;
     message_boxes := message_boxes w |}.

Definition set_image_label (v : Preview) (w : Window) : Window :=
  {| client := client w;
     current_image_path := current_image_path w;
     loaded_images := loaded_images w;
     worker := worker w;
     run_btn := run_btn w;
     progress_bar := progress_bar w;
     status_label := status_label w;
     image_label := v;
     image_info_label := image_info_label w;
     predictions_text := predictions_text w;
     model_combo := model_combo w;
     confidence_slider := confidence_slider w;
     message_boxes := message_boxes w |}.

Definition set_image_info_label (v : ImageInfo) (w : Window) : Window :=
  {| client := client w;
     current_image_path := current_image_path w;
     loaded_images := loaded_images w;
     worker := worker w;
     run_btn := run_btn w;
     progress_bar := progress_bar w;
     status_label := status_label w;
     image_label := image_label w;
     image_info_label := v;
     predictions_text := predictions_text w;
     model_combo := model_combo w;
     confidence_slider := confidence_slider w;
     message_boxes := message_boxes w |}.

Definition set_predictions_text (v : list OutputLine) (w : Window) : Window :=
  {| client := client w;
     current_image_path := current_image_path w;
     loaded_images := loaded_images w;
     worker := worker w;
     run_btn := run_btn w;
     progress_bar := progress_bar w;
     status_label := status_label w;
     image_label := image_label w;
     image_info_label := image_info_label w;
     predictions_text := v;
     model_combo := model_combo w;
     confidence_slider := confidence_slider w;
     message_boxes := message_boxes w |}.

Definition show_message_box (box : MessageBox) (w : Window) : Window :=
  {| client := client w;
     current_image_path := current_image_path w;
     loaded_images := loaded_images w;
     worker := worker w;
     run_btn := run_btn w;
     progress_bar := progress_bar w;
     status_label := status_label w;
     image_label := image_label w;
     image_info_label := image_info_label w;
     predictions_text := predictions_text w;
     model_combo := model_combo w;
     confidence_slider := confidence_slider w;
     message_boxes := box :: message_boxes w |}.

Definition set_model_combo (v : string) (w : Window) : Window :=
  {| client := client w;
     current_image_path := current_image_path w;
     loaded_images := loaded_images w;
     worker := worker w;
     run_btn := run_btn w;
     progress_bar := progress_bar w;
     status_label := status_label w;
     image_label := image_label w;
     image_info_label := image_info_label w;
     predictions_text := predictions_text w;
     model_combo := v;
     confidence_slider := confidence_slider w;
     message_boxes := message_boxes w |}.

Definition set_confidence_slider (v : Z) (w : Window) : Window :=
  {| client := client w;
     current_image_path := current_image_path w;
     loaded_images := loaded_images w;
     worker := worker w;
     run_btn := run_btn w;
     progress_bar := progress_bar w;
     status_label := status_label w;
     image_label := image_label w;
     image_info_label := image_info_label w;
     predictions_text := predictions_text w;
     model_combo := model_combo w;
     confidence_slider := v;
     message_boxes := message_boxes w |}.

(** The window [__init__] has built when it calls [init_client]. *)
Definition new_window : Window :=
  {| client := None;
     current_image_path := None;
     loaded_images := [];
     worker := [];
     run_btn := false;
     progress_bar := false;
     status_label := StReady;
     image_label := NoImageSelected;
     image_info_label := InfoEmpty;
     predictions_text := [];
     model_combo := "Both Models";
     confidence_slider := 50;
     message_boxes := [] |}.

(** ** Slots as programs *)

(** A slot: a program of [M] that also changes the window; the window is
    kept as it is when an exception is raised. *)
Definition G (A : Type) : Type :=
  Window -> World -> State -> (result A * Window) * State.

Definition gret {A} (a : A) : G A := fun w _ s => ((Return a, w), s).

Definition gbind {A B} (m : G A) (k : A -> G B) : G B :=
  fun w env s =>
    match m w env s with
    | ((Return a, w'), s') => k a w' env s'
    | ((Raise e, w'), s') => ((Raise e, w'), s')
    end.

Notation "x <<- m ;; k" := (gbind m (fun x => k))
  (at level 61, m at next level, right associativity).
Notation "m ;;; k" := (gbind m (fun _ => k))
  (at level 61, right associativity).

(** A program of [M] run by a slot. *)
Definition glift {A} (m : M A) : G A :=
  fun w env s => let (r, s') := m env s in ((r, w), s').

(** [try: body except Exception as e: handler e]. *)
Definition gtry {A} (body : G A) (handler : exn -> G A) : G A :=
  fun w env s =>
    match body w env s with
    | ((Return a, w'), s') => ((Return a, w'), s')
    | ((Raise e, w'), s') => handler e w' env s'
    end.

Definition window : G Window := fun w _ s => ((Return w, w), s).

Definition widget (f : Window -> Window) : G unit :=
  fun w _ s => ((Return tt, f w), s).

(** [int / 100.0]: the integer as a float. *)
Definition float_of_int (z : Z) : float :=
  if (z <? 0)%Z then (- PrimFloat.of_uint63 (Uint63.of_Z (- z)))%float
  else PrimFloat.of_uint63 (Uint63.of_Z z).

(** [enumerate(l, start)]. *)
Fixpoint enumerate {A} (start : nat) (l : list A) : list (nat * A) :=
  match l with
  | [] => []
  | a :: rest => (start, a) :: enumerate (S start) rest
  end.

(** The lines for ['detections']. *)
Definition detection_lines (det : ModelResults) : list OutputLine :=
  ([ LnDetectionHeader; LnFoundObjects (mr_count det);
     LnLatency (mr_latency_ms det); LnBlank ]
   ++ match mr_predictions det with
      | [] => [LnNoPredictions]
      | _ => map (fun ip => LnDetection (fst ip) (snd ip))
               (enumerate 1 (firstn 10 (mr_predictions det)))
      end
   ++ [LnBlank])%list.

(** The lines for ['segmentations']. *)
Definition segmentation_lines (seg : ModelResults) : list OutputLine :=
  ([ LnSegmentationHeader; LnFoundSegments (mr_count seg);
     LnLatency (mr_latency_ms seg); LnBlank ]
   ++ match mr_predictions seg with
      | [] => [LnNoPredictions]
      | _ => map (fun ip =>
                    LnSegment (fst ip) (snd ip)
                      (match pd_polygon_points (snd ip) with
                       | Some points => List.length points
                       | None => 0
                       end))
               (enumerate 1 (firstn 10 (mr_predictions seg)))
      end
   ++ [LnBlank])%list.

(** The list [output] of [on_inference_complete]. *)
Definition output (results : WorkerResults) : list OutputLine :=
  ([ LnRule; LnTitle; LnImage (r_image_name results); LnRule; LnBlank ]
   ++ match r_detections results with
      | Some det => detection_lines det
      | None => []
      end
   ++ match r_segmentations results with
      | Some seg => segmentation_lines seg
      | None => []
      end
   ++ [ LnRule; LnCompleted; LnRule ])%list.

Section MainWindow.

(** [QPixmap(path)] followed by [scaled] and [setPixmap], which may raise;
    [Path(p).stat().st_size]; [Path(p).name]; [str.strip]; [time.time()]
    as in the worker. *)
Variable QPixmap : string -> option exn.
Variable st_size : string -> result Z.
Variable path_name : string -> string.
Variable strip : string -> string.
Variable clock : list Event -> float.

Definition init_client : G unit :=
  gtry
    (glift (InferenceClient VNone "localhost") ;;;
     widget (set_client (Some tt)) ;;;
     w <<- window ;;
     healthy <<- glift (of_client (client w) "check_health" check_health) ;;
     if healthy : bool then
       w <<- window ;;
       address <<- glift (of_client (client w) "address"
                            (getattr "address" self_address)) ;;
       widget (set_status_label (StConnected address))
     else widget (set_status_label StNotResponding))
    (fun e =>
       widget (show_message_box (ConnectionError e)) ;;;
       widget (set_status_label StConnectionFailed)).

Definition show_preview (image_path : string) : G unit :=
  widget (set_current_image_path (Some image_path)) ;;;
  gtry
    (match QPixmap image_path with
     | None => widget (set_image_label (Scaled image_path))
     | Some e => glift (raise e)
     end)
    (fun e => widget (set_image_label (ErrorLoadingImage e))).

Definition update_image_info : G unit :=
  w <<- window ;;
  match loaded_images w with
  | [] => widget (set_image_info_label InfoEmpty)
  | [path] =>
      size <<- glift (lift (st_size path)) ;;
      widget (set_image_info_label (InfoFile (path_name path) (size / 1024)))
  | _ =>
      widget (set_image_info_label (InfoCount (List.length (loaded_images w))))
  end.

Definition on_files_dropped (files : list string) : G unit :=
  match files with
  | [] => gret tt
  | first :: _ =>
      widget (set_loaded_images files) ;;;
      show_preview first ;;;
      update_image_info ;;;
      widget (set_run_btn true) ;;;
      widget (set_status_label
                (if (List.length files =? 1)%nat then StLoadedOne
                 else StLoaded (List.length files)))
  end.

(** [select_files], with the files the dialog returned. *)
Definition select_files (files : list string) : G unit :=
  match files with
  | [] => gret tt
  | first :: _ =>
      widget (set_loaded_images files) ;;;
      show_preview first ;;;
      update_image_info ;;;
      widget (set_run_btn true)
  end.

(** [load_from_path], with the text of [path_input]. *)
Definition load_from_path (text : string) : G unit :=
  let path := strip text in
  found <<- (if path =? "" then gret false else glift (path_exists path)) ;;
  if found : bool then
    widget (set_loaded_images [path]) ;;;
    show_preview path ;;;
    update_image_info ;;;
    widget (set_run_btn true)
  else widget (show_message_box InvalidPath).

Definition run_inference : G unit :=
  w <<- window ;;
  match current_image_path w with
  | None => gret tt
  | Some image_path =>
      if image_path =? "" then gret tt
      else
        widget (set_run_btn false) ;;;
        widget (set_progress_bar true) ;;;
        w <<- window ;;
        let model_type := model_combo w in
        let confidence := (float_of_int (confidence_slider w) / 100)%float in
        widget (start_worker
                  {| job_client := client w;
                     job_image_path := image_path;
                     job_model_type := model_type;
                     job_confidence_threshold := confidence |})
  end.

Definition on_progress (message : string) : G unit :=
  widget (set_status_label (StProgress message)).

Definition on_inference_complete (results : WorkerResults) : G unit :=
  widget (set_predictions_text (output results)) ;;;
  widget (set_run_btn true) ;;;
  widget (set_progress_bar false) ;;;
  widget (set_status_label StComplete).

Definition on_inference_error (error : exn) : G unit :=
  widget (show_message_box (InferenceError error)) ;;;
  widget (set_run_btn true) ;;;
  widget (set_progress_bar false) ;;;
  widget (set_status_label StError).

(** ** What happens to the window *)

(** What the user and the workers do.  A click on the run button reaches
    [run_inference] only while the button is enabled, and the slider keeps
    its value within its range of 0 to 100. *)
Inductive UiEvent : Type :=
| FilesDropped (files : list string)
| FilesSelected (files : list string)
| PathEntered (text : string)
| ModelChosen (model_type : string)
| SliderMoved (value : Z)
| RunClicked
| WorkerSignal (sig : Signal).

(** The slot a signal of the worker is connected to. *)
Definition deliver (sig : Signal) : G unit :=
  match sig with
  | Progress message => on_progress message
  | Finished results => on_inference_complete results
  | Error e => on_inference_error e
  end.

Definition handle (ev : UiEvent) : G unit :=
  match ev with
  | FilesDropped files => on_files_dropped files
  | FilesSelected files => select_files files
  | PathEntered text => load_from_path text
  | ModelChosen model_type => widget (set_model_combo model_type)
  | SliderMoved value =>
      widget (set_confidence_slider (Z.max 0 (Z.min 100 value)))
  | RunClicked =>
      w <<- window ;;
      if run_btn w then run_inference else gret tt
  | WorkerSignal sig => deliver sig
  end.

Fixpoint handle_all (evs : list UiEvent) : G unit :=
  match evs with
  | [] => gret tt
  | ev :: rest => handle ev ;;; handle_all rest
  end.

(** The worker [run_inference] starts for an image. *)
Definition job_for (w : Window) (image_path : string) : Job :=
  {| job_client := client w;
     job_image_path := image_path;
     job_model_type := model_combo w;
     job_confidence_threshold :=
       (float_of_int (confidence_slider w) / 100)%float |}.

(** The slots change nothing but the labels, the text pane and the dialogs. *)
Definition same_controls (w w' : Window) : Prop :=
  client w' = client w
  /\ current_image_path w' = current_image_path w
  /\ loaded_images w' = loaded_images w
  /\ worker w' = worker w
  /\ model_combo w' = model_combo w
  /\ confidence_slider w' = confidence_slider w.

(** The predictions listed in the text pane. *)
Definition listed_detections (lines : list OutputLine)
    : list (nat * PredictionDict) :=
  flat_map (fun line => match line with
                        | LnDetection i pred => [(i, pred)]
                        | _ => []
                        end) lines.

Definition listed_segments (lines : list OutputLine)
    : list (nat * PredictionDict) :=
  flat_map (fun line => match line with
                        | LnSegment i pred _ => [(i, pred)]
                        | _ => []
                        end) lines.

(** The signals a worker emits, in the order of their emission. *)
Definition signals_of (job : Job) (env : Env) (s : State) : list Signal :=
  rev (snd (fst (run clock path_name (job_client job) (job_image_path job)
                   (job_model_type job) (job_confidence_threshold job)
                   [] env s))).

(** The paths a loading event puts first. *)
Definition first_images (ev : UiEvent) : list string :=
  match ev with
  | FilesDropped (first :: _) | FilesSelected (first :: _) => [first]
  | PathEntered text => [strip text]
  | _ => []
  end.

(** The window opened: [init_client], then the events in turn. *)
Definition session (evs : list UiEvent) : G unit :=
  init_client ;;; handle_all evs.

(** A threshold between 0 and 1. *)
Definition unit_interval (t : float) : bool :=
  ((0 <=? t) && (t <=? 1))%float.

(** The state the slots keep the window in: the current image is the
    first of the loaded ones, the slider is within its range, and every
    worker was started for a first image, with the window's client and a
    threshold between 0 and 1. *)
Definition tidy (firsts : list string) (c : option unit) (w : Window) : Prop :=
  current_image_path w = hd_error (loaded_images w)
  /\ (0 <= confidence_slider w <= 100)%Z
  /\ client w = c
  /\ (forall p, current_image_path w = Some p -> In p firsts)
  /\ Forall (fun job => In (job_image_path job) firsts
                        /\ job_image_path job <> ""
                        /\ job_client job = c
                        /\ unit_interval (job_confidence_threshold job) = true)
            (worker w).

Ltac unfold_ui :=
  cbv [gbind gret glift gtry widget window on_progress on_inference_complete
       on_inference_error deliver].

Lemma slider_threshold (v : Z) :
  (0 <= v <= 100)%Z -> unit_interval (float_of_int v / 100) = true.
Proof.
  intros Hv.
  assert (Hall : forallb (fun n => unit_interval (float_of_int (Z.of_nat n) / 100))
                   (seq 0 101) = true) by (vm_compute; reflexivity).
  rewrite forallb_forall in Hall.
  specialize (Hall (Z.to_nat v)). rewrite Z2Nat.id in Hall by lia.
  apply Hall. apply in_seq. lia.
Qed.

Lemma tidy_more firsts more c w : tidy firsts c w -> tidy (firsts ++ more) c w.
Proof.
  intros (H1 & H2 & H3 & H4 & H5). repeat split; try assumption; try lia.
  - intros p Hp. apply in_or_app. left. now apply H4.
  - eapply Forall_impl; [|exact H5]. intros job (Ha & Hb). split; [|exact Hb].
    apply in_or_app. now left.
Qed.

Lemma show_preview_run image_path w (env : Env) s :
  exists label,
    show_preview image_path w env s =
      ((Return tt,
        set_image_label label (set_current_image_path (Some image_path) w)), s).
Proof.
  unfold show_preview. unfold_ui. destruct (QPixmap image_path); eexists; reflexivity.
Qed.

Lemma update_image_info_run w (env : Env) s :
  (exists info, update_image_info w env s =
                  ((Return tt, set_image_info_label info w), s))
  \/ (exists path e, loaded_images w = [path] /\ st_size path = Raise e
                     /\ update_image_info w env s = ((Raise e, w), s)).
Proof.
  unfold update_image_info. unfold_ui.
  destruct (loaded_images w) as [|path [|second rest]].
  - left. eexists. reflexivity.
  - destruct (st_size path) as [size|e] eqn:Hsize.
    + left. eexists. reflexivity.
    + right. exists path, e. auto.
  - left. eexists. reflexivity.
Qed.

(** Loading [files], as the three loading slots do it. *)
Lemma load_run (files : list string) first rest (after : G unit) w (env : Env) s :
  files = first :: rest ->
  exists label,
    let w1 := set_image_label label
                (set_current_image_path (Some first) (set_loaded_images files w)) in
    (widget (set_loaded_images files) ;;; show_preview first ;;;
     update_image_info ;;; after) w env s =
    match files with
    | [path] =>
        match st_size path with
        | Return size =>
            after (set_image_info_label (InfoFile (path_name path) (size / 1024)) w1)
              env s
        | Raise e => ((Raise e, w1), s)
        end
    | _ => after (set_image_info_label (InfoCount (List.length files)) w1) env s
    end.
Proof.
  intros ->.
  destruct (show_preview_run first (set_loaded_images (first :: rest) w) env s)
    as (label & Hshow).
  exists label. cbv zeta.
  unfold gbind at 1. unfold widget at 1. unfold gbind at 1. rewrite Hshow.
  unfold gbind at 1. unfold update_image_info. unfold_ui. simpl.
  destruct rest as [|second rest]; [|reflexivity].
  destruct (st_size first); reflexivity.
Qed.

Lemma tidy_loaded firsts c w files first rest w' :
  tidy firsts c w -> files = first :: rest ->
  loaded_images w' = files -> current_image_path w' = Some first ->
  confidence_slider w' = confidence_slider w -> client w' = client w ->
  worker w' = worker w ->
  tidy (firsts ++ [first]) c w'.
Proof.
  intros (H1 & H2 & H3 & H4 & H5) -> Hl Hc Hs Hcl Hw.
  split; [rewrite Hl, Hc; reflexivity|]. split; [rewrite Hs; exact H2|].
  split; [congruence|]. split.
  - intros p Hp. rewrite Hc in Hp. injection Hp as <-.
    apply in_or_app. right. simpl. auto.
  - rewrite Hw. eapply Forall_impl; [|exact H5].
    intros job (Ha & Hb). split; [|exact Hb]. apply in_or_app. now left.
Qed.

Lemma tidy_same firsts c w w' :
  tidy firsts c w ->
  loaded_images w' = loaded_images w ->
  current_image_path w' = current_image_path w ->
  confidence_slider w' = confidence_slider w -> client w' = client w ->
  worker w' = worker w ->
  tidy firsts c w'.
Proof.
  intros (H1 & H2 & H3 & H4 & H5) Hl Hc Hs Hcl Hw.
  unfold tidy. rewrite Hl, Hc, Hs, Hcl, Hw. auto.
Qed.

Lemma load_tidy firsts c files first rest (after : G unit) w (env : Env) s :
  tidy firsts c w -> files = first :: rest ->
  (forall w1 w2 r s2, after w1 env s = ((r, w2), s2) ->
     loaded_images w2 = loaded_images w1
     /\ current_image_path w2 = current_image_path w1
     /\ confidence_slider w2 = confidence_slider w1
     /\ client w2 = client w1 /\ worker w2 = worker w1) ->
  tidy (firsts ++ [first]) c
    (snd (fst ((widget (set_loaded_images files) ;;; show_preview first ;;;
                update_image_info ;;; after) w env s))).
Proof.
  intros Ht -> Hafter.
  destruct (load_run (first :: rest) first rest after w env s eq_refl)
    as (label & Hrun).
  cbv zeta in Hrun. rewrite Hrun. clear Hrun.
  assert (Hgo : forall info,
            tidy (firsts ++ [first]) c
              (snd (fst (after
                 (set_image_info_label info
                    (set_image_label label
                       (set_current_image_path (Some first)
                          (set_loaded_images (first :: rest) w)))) env s)))).
  { intros info.
    destruct (after _ env s) as [[r w2] s2] eqn:Ha.
    destruct (Hafter _ _ _ _ Ha) as (Hl & Hc & Hs & Hcl & Hw). simpl.
    apply (tidy_loaded firsts c w (first :: rest) first rest);
      [exact Ht|reflexivity|rewrite Hl|rewrite Hc|rewrite Hs|rewrite Hcl
       |rewrite Hw]; reflexivity. }
  destruct rest as [|second rest]; [|apply Hgo].
  destruct (st_size first); [apply Hgo|]. simpl.
  apply (tidy_loaded firsts c w [first] first []); auto.
Qed.

Lemma handle_tidy ev firsts c w (env : Env) s :
  tidy firsts c w ->
  tidy (firsts ++ first_images ev) c (snd (fst (handle ev w env s))).
Proof.
  intros Ht. destruct ev as [files|files|text|model_type|value| |sig].
  - destruct files as [|first rest]; [now apply tidy_more|].
    apply (load_tidy firsts c (first :: rest) first rest); [exact Ht|reflexivity|].
    unfold_ui. intros w1 w2 res s2 [= <- <- <-]. repeat split; reflexivity.
  - destruct files as [|first rest]; [now apply tidy_more|].
    apply (load_tidy firsts c (first :: rest) first rest); [exact Ht|reflexivity|].
    unfold_ui. intros w1 w2 res s2 [= <- <- <-]. repeat split; reflexivity.
  - cbn [handle first_images]. unfold load_from_path. unfold gbind at 1.
    destruct (strip text =? "") eqn:Hempty.
    + unfold_ui. simpl. apply tidy_more. eapply tidy_same; eauto.
    + unfold glift, path_exists. unfold_monad.
      destruct (fs env (strip text)).
      * apply (load_tidy firsts c [strip text] (strip text) []);
          [|reflexivity|].
        -- eapply tidy_same; eauto.
        -- unfold_ui. intros w1 w2 res s2 [= <- <- <-]. repeat split; reflexivity.
      * unfold_ui. simpl. apply tidy_more. eapply tidy_same; eauto.
  - apply tidy_more. unfold_ui. simpl. eapply tidy_same; eauto.
  - apply tidy_more. unfold_ui. simpl.
    destruct Ht as (H1 & H2 & H3 & H4 & H5). repeat split; auto; simpl; lia.
  - apply tidy_more. cbn [handle]. unfold gbind at 1, window at 1.
    destruct (run_btn w); [|exact Ht].
    unfold run_inference. unfold gbind at 1, window at 1.
    destruct (current_image_path w) as [p|] eqn:Hp; [|exact Ht].
    destruct (String.eqb_spec p ""); [exact Ht|].
    unfold_ui. simpl.
    destruct Ht as (H1 & H2 & H3 & H4 & H5).
    split; [exact H1|]. split; [exact H2|]. split; [exact H3|].
    split; [simpl; intros p0 Hp0; apply H4; congruence|]. simpl.
    constructor; [|exact H5]. simpl.
    split; [apply H4; exact Hp|]. split; [assumption|]. split; [exact H3|].
    now apply slider_threshold.
  - apply tidy_more. destruct sig; unfold_ui; simpl; eapply tidy_same; eauto.
Qed.

Lemma handle_all_tidy evs firsts c w (env : Env) s :
  tidy firsts c w ->
  tidy (firsts ++ flat_map first_images evs) c
    (snd (fst (handle_all evs w env s))).
Proof.
  revert firsts w s. induction evs as [|ev evs IH]; intros firsts w s Ht.
  - simpl. now rewrite app_nil_r.
  - cbn [handle_all flat_map]. unfold gbind.
    pose proof (handle_tidy ev firsts c w env s Ht) as Hstep.
    destruct (handle ev w env s) as [[[[]|e] w1] s1]; simpl in Hstep.
    + rewrite app_assoc. now apply IH.
    + simpl. rewrite app_assoc. now apply tidy_more.
Qed.

Lemma init_client_run w (env : Env) s :
  init_client w env s =
    match InferenceClient VNone "localhost" env s with
    | (Return _, s1) =>
        match check_health env s1 with
        | (Return true, s2) =>
            match self_address (self s2) with
            | Some address =>
                ((Return tt,
                  set_status_label (StConnected address) (set_client (Some tt) w)),
                 s2)
            | None =>
                ((Return tt,
                  set_status_label StConnectionFailed
                    (show_message_box (ConnectionError (AttributeError "address"))
                       (set_client (Some tt) w))), s2)
            end
        | (Return false, s2) =>
            ((Return tt, set_status_label StNotResponding (set_client (Some tt) w)),
             s2)
        | (Raise e, s2) =>
            ((Return tt,
              set_status_label StConnectionFailed
                (show_message_box (ConnectionError e) (set_client (Some tt) w))),
             s2)
        end
    | (Raise e, s1) =>
        ((Return tt,
          set_status_label StConnectionFailed
            (show_message_box (ConnectionError e) w)), s1)
    end.
Proof.
  unfold init_client, gtry. unfold gbind at 1. unfold glift at 1.
  destruct (InferenceClient VNone "localhost" env s) as [[[]|e] s1];
    [|reflexivity].
  unfold gbind at 1, widget at 1. unfold gbind at 1, window at 1.
  unfold gbind at 1, glift at 1. cbn [client set_client of_client].
  destruct (check_health env s1) as [[[|]|e] s2]; [|reflexivity|reflexivity].
  unfold gbind at 1, window at 1. unfold gbind at 1, glift at 1.
  cbn [client set_client of_client]. unfold getattr. unfold_monad.
  destruct (self_address (self s2)); reflexivity.
Qed.

Lemma init_client_new (env : Env) s :
  exists w0 s0,
    init_client new_window env s = ((Return tt, w0), s0)
    /\ tidy [] (client w0) w0.
Proof.
  rewrite init_client_run.
  destruct (InferenceClient VNone "localhost" env s) as [[[]|e] s1].
  - destruct (check_health env s1) as [[[|]|e] s2];
      [destruct (self_address (self s2))| |];
      eexists; eexists; (split; [reflexivity|]);
      unfold tidy; simpl; repeat split; try lia; try constructor; discriminate.
  - eexists; eexists; (split; [reflexivity|]).
    unfold tidy; simpl; repeat split; try lia; try constructor; discriminate.
Qed.

Lemma run_signals_shape (client : option unit) (image_path model_type : string)
    (t : float) (sigs : list Signal) (env : Env) (s : State) :
  exists last before s',
    run clock path_name client image_path model_type t sigs env s =
      ((Return tt, (last :: before ++ sigs)%list), s')
    /\ is_terminal last = true
    /\ forallb is_progress before = true.
Proof.
  unfold run, wtry. unfold wbind at 1. unfold emit_signal at 1.
  unfold wbind at 1, wlift at 1, load_bytes. unfold_monad.
  destruct (load_image env image_path) as [image|e].
  - unfold wbind at 1.
    destruct (run_model_signals clock client
                (among ["Object Detection"; "Both Models"] model_type)
                "Running object detection..." "detect_objects"
                (detect_objects image 2560 2048 t)
                (Progress "Loading image..." :: sigs) env s)
      as (r1 & new1 & s1 & -> & Hnew1).
    destruct r1 as [det|e].
    + unfold wbind at 1.
      destruct (run_model_signals clock client
                  (among ["Sheet Segmentation"; "Both Models"] model_type)
                  "Running sheet segmentation..." "segment_sheets"
                  (segment_sheets image 2560 2048 t)
                  (new1 ++ Progress "Loading image..." :: sigs)%list env s1)
        as (r2 & new2 & s2 & -> & Hnew2).
      destruct r2 as [seg|e]; unfold emit_signal;
        eexists; exists (new2 ++ new1 ++ [Progress "Loading image..."])%list;
        eexists; (split; [rewrite <- !app_assoc; reflexivity|]);
        (split; [reflexivity|]);
        rewrite !forallb_app, Hnew1, Hnew2; reflexivity.
    + unfold emit_signal.
      eexists; exists (new1 ++ [Progress "Loading image..."])%list; eexists.
      split; [rewrite <- app_assoc; reflexivity|]. split; [reflexivity|].
      rewrite forallb_app, Hnew1. reflexivity.
  - unfold emit_signal. eexists; exists [Progress "Loading image..."]; eexists.
    split; [reflexivity|]. split; reflexivity.
Qed.

Lemma same_controls_refl w : same_controls w w.
Proof. repeat split. Qed.

Lemma same_controls_trans w1 w2 w3 :
  same_controls w1 w2 -> same_controls w2 w3 -> same_controls w1 w3.
Proof.
  unfold same_controls. intros (A1 & A2 & A3 & A4 & A5 & A6)
    (B1 & B2 & B3 & B4 & B5 & B6). repeat split; congruence.
Qed.

Lemma deliver_progress (sigs : list Signal) : forall w (env : Env) s,
  forallb is_progress sigs = true ->
  exists w',
    handle_all (map WorkerSignal sigs) w env s = ((Return tt, w'), s)
    /\ same_controls w w'
    /\ run_btn w' = run_btn w /\ progress_bar w' = progress_bar w
    /\ predictions_text w' = predictions_text w
    /\ message_boxes w' = message_boxes w.
Proof.
  induction sigs as [|sig sigs IH]; intros w env s Hall.
  - exists w. repeat split.
  - simpl in Hall. apply andb_prop in Hall. destruct Hall as [Hsig Hall].
    destruct sig as [message| |]; try discriminate.
    cbn [map handle_all handle deliver]. unfold gbind at 1.
    unfold on_progress, widget at 1.
    destruct (IH (set_status_label (StProgress message) w) env s Hall)
      as (w' & -> & Hsame & Hrun & Hbar & Htext & Hboxes).
    exists w'. split; [reflexivity|].
    split; [|auto].
    eapply same_controls_trans; [|exact Hsame]. repeat split.
Qed.

Lemma handle_all_app (evs1 evs2 : list UiEvent) w (env : Env) s :
  handle_all (evs1 ++ evs2) w env s =
  match handle_all evs1 w env s with
  | ((Return _, w1), s1) => handle_all evs2 w1 env s1
  | ((Raise e, w1), s1) => ((Raise e, w1), s1)
  end.
Proof.
  revert w s. induction evs1 as [|ev evs1 IH]; intros w s; [reflexivity|].
  cbn [app handle_all]. unfold gbind.
  destruct (handle ev w env s) as [[[[]|e] w1] s1]; [apply IH|reflexivity].
Qed.

(** ** Properties of the main window *)

(** X23.  [init_client] never raises and sends no inference request,
    closes no channel and draws no request id.  When [InferenceClient()]
    raises, the window keeps its client ([None] at start-up), shows one
    warning and says that the connection failed; when it returns, the
    client is kept whatever the health check says: an unhealthy service
    only changes the status line. *)
Theorem init_client_never_raises (w : Window) (env : Env) (s : State) :
  exists w' s',
    init_client w env s = ((Return tt, w'), s')
    /\ setup_step s s'
    /\ same_controls (set_client (client w') w) w'
    /\ run_btn w' = run_btn w
    /\ ((exists s1 healthy address,
           InferenceClient VNone "localhost" env s = (Return tt, s1)
           /\ check_health env s1 = (Return healthy, s')
           /\ self_address (self s') = Some address
           /\ client w' = Some tt
           /\ message_boxes w' = message_boxes w
           /\ status_label w' =
                if healthy : bool then StConnected address else StNotResponding)
        \/ (exists e,
              InferenceClient VNone "localhost" env s = (Raise e, s')
              /\ client w' = client w
              /\ message_boxes w' = ConnectionError e :: message_boxes w
              /\ status_label w' = StConnectionFailed)).
Proof.
  rewrite init_client_run.
  destruct (construct_effect env s VNone "localhost")
    as (r & s1 & address & post & pre & Hrun & _ & _ & _ & _ & Hself).
  destruct (construct_setup env s VNone "localhost") as (r' & s1' & Hrun' & Hstep).
  rewrite Hrun in Hrun'. injection Hrun' as <- <-. rewrite Hrun.
  destruct r as [[]|e].
  - destruct Hself as (_ & _ & Haddr).
    destruct (check_health_setup env s1) as (healthy & s2 & Hh & Hstep2 & Hsame).
    rewrite Hh. rewrite <- Hsame in Haddr.
    destruct healthy; [rewrite Haddr|];
      eexists; eexists; (split; [reflexivity|]);
      (split; [eapply setup_step_trans; eassumption|]);
      (split; [repeat split|]); (split; [reflexivity|]);
      left; eexists; eexists; exists address; repeat split; eauto.
  - eexists; eexists; (split; [reflexivity|]). split; [exact Hstep|].
    split; [repeat split|]. split; [reflexivity|].
    right. exists e. repeat split.
Qed.

(** X24.  However the window is used after start-up, the current image is
    the first of the loaded ones, and every worker started was given the
    first image of some load (the first file dropped or selected, or the
    path entered), never a later one, together with the window's client
    and a threshold between 0 and 1. *)
Theorem gui_submits_first_images_only (evs : list UiEvent) (env : Env)
    (s : State) :
  let w' := snd (fst (session evs new_window env s)) in
  current_image_path w' = hd_error (loaded_images w')
  /\ Forall (fun job =>
               In (job_image_path job) (flat_map first_images evs)
               /\ job_image_path job <> ""
               /\ job_client job = client w'
               /\ unit_interval (job_confidence_threshold job) = true)
            (worker w').
Proof.
  cbv zeta. unfold session, gbind.
  destruct (init_client_new env s) as (w0 & s0 & -> & Ht).
  pose proof (handle_all_tidy evs [] (client w0) w0 env s0 Ht) as Hall.
  destruct Hall as (H1 & _ & H3 & _ & H5). split; [exact H1|].
  rewrite H3. exact H5.
Qed.

(** X25.  The run button is no guard against a second worker: a click
    disables it, but loading images while the worker is outstanding
    enables it again, and the next click starts a second worker although
    no signal of the first has been handled. *)
Theorem loading_reenables_run (w : Window) (env : Env) (s : State)
    (p first : string) (rest : list string) :
  run_btn w = true -> current_image_path w = Some p -> p <> "" ->
  first <> "" ->
  (rest = [] -> exists size, st_size first = Return size) ->
  run_btn (snd (fst (handle RunClicked w env s))) = false
  /\ run_btn (snd (fst (handle_all
                          [RunClicked; FilesDropped (first :: rest)] w env s)))
     = true
  /\ exists w',
       handle_all [RunClicked; FilesDropped (first :: rest); RunClicked] w env s
         = ((Return tt, w'), s)
       /\ worker w' = job_for w first :: job_for w p :: worker w
       /\ run_btn w' = false.
Proof.
  intros Hbtn Hp Hne Hfirst Hstat.
  assert (Hclick : handle RunClicked w env s =
            ((Return tt,
              start_worker (job_for w p)
                (set_progress_bar true (set_run_btn false w))), s)).
  { cbn [handle]. unfold gbind at 1, window at 1. rewrite Hbtn.
    unfold run_inference. unfold gbind at 1, window at 1. rewrite Hp.
    apply String.eqb_neq in Hne. rewrite Hne. reflexivity. }
  split; [rewrite Hclick; reflexivity|].
  set (w1 := start_worker (job_for w p)
               (set_progress_bar true (set_run_btn false w))) in *.
  destruct (load_run (first :: rest) first rest
              (widget (set_run_btn true) ;;;
               widget (set_status_label
                         (if (List.length (first :: rest) =? 1)%nat
                          then StLoadedOne
                          else StLoaded (List.length (first :: rest)))))
              w1 env s eq_refl) as (label & Hload).
  cbv zeta in Hload.
  assert (Hdrop : exists info,
            handle (FilesDropped (first :: rest)) w1 env s =
              ((Return tt,
                set_status_label
                  (if (List.length (first :: rest) =? 1)%nat then StLoadedOne
                   else StLoaded (List.length (first :: rest)))
                  (set_run_btn true
                     (set_image_info_label info
                        (set_image_label label
                           (set_current_image_path (Some first)
                              (set_loaded_images (first :: rest) w1)))))), s)).
  { cbn [handle on_files_dropped]. rewrite Hload.
    destruct rest as [|second rest].
    - destruct (Hstat eq_refl) as (size & ->). eexists. reflexivity.
    - eexists. reflexivity. }
  destruct Hdrop as (info & Hdrop).
  split.
  - cbn [handle_all]. unfold gbind at 1. rewrite Hclick.
    unfold gbind at 1. rewrite Hdrop. reflexivity.
  - eexists. split.
    + cbn [handle_all]. unfold gbind at 1. rewrite Hclick.
      unfold gbind at 1. rewrite Hdrop.
      unfold gbind at 1. cbn [handle]. unfold gbind at 1, window at 1.
      cbn [run_btn set_status_label set_run_btn].
      unfold run_inference. unfold gbind at 1, window at 1.
      cbn [current_image_path set_status_label set_run_btn set_image_info_label
           set_image_label set_current_image_path].
      apply String.eqb_neq in Hfirst. rewrite Hfirst. reflexivity.
    + split; reflexivity.
Qed.

(** X26.  A single file that cannot be examined any more (its [stat]
    fails) makes the loading slot raise half-way: the file is already the
    loaded and the current image, but the run button and the status line
    are as before. *)
Theorem vanished_file_aborts_loading (w : Window) (env : Env) (s : State)
    (file : string) (e : exn) :
  st_size file = Raise e ->
  exists w',
    on_files_dropped [file] w env s = ((Raise e, w'), s)
    /\ select_files [file] w env s = ((Raise e, w'), s)
    /\ loaded_images w' = [file]
    /\ current_image_path w' = Some file
    /\ run_btn w' = run_btn w
    /\ status_label w' = status_label w
    /\ image_info_label w' = image_info_label w.
Proof.
  intros Hstat.
  destruct (show_preview_run file (set_loaded_images [file] w) env s)
    as (label & Hshow).
  exists (set_image_label label
            (set_current_image_path (Some file) (set_loaded_images [file] w))).
  assert (Hinfo : forall (after : G unit),
            (widget (set_loaded_images [file]) ;;; show_preview file ;;;
             update_image_info ;;; after) w env s =
            ((Raise e,
              set_image_label label
                (set_current_image_path (Some file)
                   (set_loaded_images [file] w))), s)).
  { intros after. unfold gbind at 1, widget at 1. unfold gbind at 1.
    rewrite Hshow. unfold gbind at 1. unfold update_image_info.
    unfold gbind at 1, window at 1.
    cbn [loaded_images set_image_label set_current_image_path set_loaded_images].
    unfold gbind at 1, glift, lift. rewrite Hstat. reflexivity. }
  split; [apply Hinfo|]. split; [apply Hinfo|]. repeat split.
Qed.

(** X27.  When the signals of a worker are handled in the order of their
    emission, no slot raises and the window ends with the run button
    enabled and the progress bar hidden, whatever the worker met: after
    [finished] the text pane holds the results and no dialog is added,
    after [error] one dialog is added and the text pane is as before.
    The loaded images, the current image and the workers started are
    untouched. *)
Theorem worker_signals_reenable_run (job : Job) (w : Window) (env : Env)
    (s s' : State) :
  exists w' before last,
    handle_all (map WorkerSignal (signals_of job env s)) w env s'
      = ((Return tt, w'), s')
    /\ signals_of job env s = (before ++ [last])%list
    /\ forallb is_progress before = true
    /\ same_controls w w'
    /\ run_btn w' = true /\ progress_bar w' = false
    /\ match last with
       | Finished results =>
           status_label w' = StComplete
           /\ predictions_text w' = output results
           /\ message_boxes w' = message_boxes w
       | Error e =>
           status_label w' = StError
           /\ predictions_text w' = predictions_text w
           /\ message_boxes w' = InferenceError e :: message_boxes w
       | Progress _ => False
       end.
Proof.
  unfold signals_of.
  destruct (run_signals_shape (job_client job) (job_image_path job)
              (job_model_type job) (job_confidence_threshold job) [] env s)
    as (last & before & s1 & -> & Hlast & Hbefore).
  cbn [fst snd]. rewrite app_nil_r. cbn [rev].
  rewrite map_app, handle_all_app.
  assert (Hrev : forallb is_progress (rev before) = true).
  { rewrite forallb_forall in *. intros sig Hin. apply Hbefore.
    now apply in_rev. }
  destruct (deliver_progress (rev before) w env s' Hrev)
    as (w1 & -> & Hsame & Hrun & Hbar & Htext & Hboxes).
  destruct last as [message|results|e]; [discriminate| |].
  - eexists; exists (rev before), (Finished results). split; [reflexivity|].
    split; [reflexivity|]. split; [exact Hrev|].
    split; [|simpl; repeat split; congruence].
    eapply same_controls_trans; [exact Hsame|]. repeat split.
  - eexists; exists (rev before), (Error e). split; [reflexivity|].
    split; [reflexivity|]. split; [exact Hrev|].
    split; [|simpl; repeat split; congruence].
    eapply same_controls_trans; [exact Hsame|]. repeat split.
Qed.

Lemma enumerate_length {A} (l : list A) start :
  List.length (enumerate start l) = List.length l.
Proof.
  revert start. induction l as [|a l IH]; intros start; simpl; [reflexivity|].
  now rewrite IH.
Qed.

Lemma listed_detections_app a b :
  listed_detections (a ++ b) = (listed_detections a ++ listed_detections b)%list.
Proof. apply flat_map_app. Qed.

Lemma listed_segments_app a b :
  listed_segments (a ++ b) = (listed_segments a ++ listed_segments b)%list.
Proof. apply flat_map_app. Qed.

Lemma listed_detections_map l :
  listed_detections (map (fun ip => LnDetection (fst ip) (snd ip)) l) = l.
Proof.
  induction l as [|[i p] l IH]; simpl; [reflexivity|].
  f_equal. exact IH.
Qed.

Lemma listed_segments_map (f : nat * PredictionDict -> nat) l :
  listed_segments (map (fun ip => LnSegment (fst ip) (snd ip) (f ip)) l) = l.
Proof.
  induction l as [|[i p] l IH]; simpl; [reflexivity|].
  f_equal. exact IH.
Qed.

Lemma listed_detections_none (f : nat * PredictionDict -> nat) l :
  listed_detections (map (fun ip => LnSegment (fst ip) (snd ip) (f ip)) l) = [].
Proof. induction l as [|[i p] l IH]; simpl; [reflexivity|exact IH]. Qed.

Lemma listed_segments_none l :
  listed_segments (map (fun ip => LnDetection (fst ip) (snd ip)) l) = [].
Proof. induction l as [|[i p] l IH]; simpl; [reflexivity|exact IH]. Qed.

(** X28.  [on_inference_complete] lists, for each model that ran, the
    first ten of its predictions at most, in their order and numbered
    from 1, while the line above them gives the full count; a model that
    did not run is not mentioned. *)
Theorem complete_lists_ten_at_most (results : WorkerResults) (w : Window)
    (env : Env) (s : State) :
  exists w',
    on_inference_complete results w env s = ((Return tt, w'), s)
    /\ listed_detections (predictions_text w') =
         match r_detections results with
         | Some det => enumerate 1 (firstn 10 (mr_predictions det))
         | None => []
         end
    /\ listed_segments (predictions_text w') =
         match r_segmentations results with
         | Some seg => enumerate 1 (firstn 10 (mr_predictions seg))
         | None => []
         end
    /\ List.length (listed_detections (predictions_text w')) <= 10
    /\ List.length (listed_segments (predictions_text w')) <= 10
    /\ (forall n, In (LnFoundObjects n) (predictions_text w') <->
                  exists det, r_detections results = Some det /\ n = mr_count det)
    /\ (forall n, In (LnFoundSegments n) (predictions_text w') <->
                  exists seg, r_segmentations results = Some seg
                              /\ n = mr_count seg).
Proof.
  eexists. split; [reflexivity|]. cbn [predictions_text set_status_label
    set_progress_bar set_run_btn set_predictions_text].
  assert (Hdet : listed_detections (output results) =
            match r_detections results with
            | Some det => enumerate 1 (firstn 10 (mr_predictions det))
            | None => []
            end).
  { unfold output. rewrite !listed_detections_app.
    destruct (r_detections results) as [det|];
      destruct (r_segmentations results) as [seg|];
      unfold detection_lines, segmentation_lines;
      rewrite ?listed_detections_app;
      try (destruct (mr_predictions det) as [|d ds] eqn:Hd);
      try (destruct (mr_predictions seg) as [|g gs] eqn:Hg);
      rewrite ?listed_detections_map, ?listed_detections_none;
      simpl; rewrite ?app_nil_r; reflexivity. }
  assert (Hseg : listed_segments (output results) =
            match r_segmentations results with
            | Some seg => enumerate 1 (firstn 10 (mr_predictions seg))
            | None => []
            end).
  { unfold output. rewrite !listed_segments_app.
    destruct (r_detections results) as [det|];
      destruct (r_segmentations results) as [seg|];
      unfold detection_lines, segmentation_lines;
      rewrite ?listed_segments_app;
      try (destruct (mr_predictions det) as [|d ds] eqn:Hd);
      try (destruct (mr_predictions seg) as [|g gs] eqn:Hg);
      rewrite ?listed_segments_map, ?listed_segments_none;
      simpl; rewrite ?app_nil_r; reflexivity. }
  split; [exact Hdet|]. split; [exact Hseg|].
  split; [rewrite Hdet; destruct (r_detections results);
          [rewrite enumerate_length; apply firstn_le_length|simpl; lia]|].
  split; [rewrite Hseg; destruct (r_segmentations results);
          [rewrite enumerate_length; apply firstn_le_length|simpl; lia]|].
  split.
  - intros n. unfold output, detection_lines, segmentation_lines.
    rewrite !in_app_iff. split.
    + intros [H|[H|[H|H]]].
      * simpl in H. intuition discriminate.
      * destruct (r_detections results) as [det|]; [|destruct H].
        exists det. split; [reflexivity|].
        rewrite !in_app_iff in H. destruct H as [H|[H|H]].
        -- simpl in H. intuition congruence.
        -- destruct (mr_predictions det); [simpl in H; intuition discriminate|].
           apply in_map_iff in H. destruct H as (ip & H & _). discriminate.
        -- simpl in H. intuition discriminate.
      * destruct (r_segmentations results) as [seg|]; [|destruct H].
        rewrite !in_app_iff in H. destruct H as [H|[H|H]].
        -- simpl in H. intuition discriminate.
        -- destruct (mr_predictions seg); [simpl in H; intuition discriminate|].
           apply in_map_iff in H. destruct H as (ip & H & _). discriminate.
        -- simpl in H. intuition discriminate.
      * simpl in H. intuition discriminate.
    + intros (det & -> & ->). right. left. apply in_or_app. left.
      simpl. auto.
  - intros n. unfold output, detection_lines, segmentation_lines.
    rewrite !in_app_iff. split.
    + intros [H|[H|[H|H]]].
      * simpl in H. intuition discriminate.
      * destruct (r_detections results) as [det|]; [|destruct H].
        rewrite !in_app_iff in H. destruct H as [H|[H|H]].
        -- simpl in H. intuition discriminate.
        -- destruct (mr_predictions det); [simpl in H; intuition discriminate|].
           apply in_map_iff in H. destruct H as (ip & H & _). discriminate.
        -- simpl in H. intuition discriminate.
      * destruct (r_segmentations results) as [seg|]; [|destruct H].
        exists seg. split; [reflexivity|].
        rewrite !in_app_iff in H. destruct H as [H|[H|H]].
        -- simpl in H. intuition congruence.
        -- destruct (mr_predictions seg); [simpl in H; intuition discriminate|].
           apply in_map_iff in H. destruct H as (ip & H & _). discriminate.
        -- simpl in H. intuition discriminate.
      * simpl in H. intuition discriminate.
    + intros (seg & -> & ->). right. right. left. apply in_or_app. left.
      simpl. auto.
Qed.

End MainWindow.

(** ** A sample window *)

(** Every image can be shown; the file [gone.png] cannot be examined, every
    other file has 200 KB. *)
Definition sample_st_size (path : string) : result Z :=
  if path =? "gone.png" then Raise (OtherError "FileNotFoundError" "gone.png")
  else Return 204800%Z.

Definition sample_handle_all : list UiEvent -> G unit :=
  handle_all (fun _ => None) sample_st_size last_component (fun text => text).

(** The window after [a.png] was dropped on it. *)
Definition sample_window : Window :=
  snd (fst (sample_handle_all [FilesDropped ["a.png"]] new_window
              sample_env sample_state)).

Example sample_window_loaded :
  loaded_images sample_window = ["a.png"]
  /\ current_image_path sample_window = Some "a.png"
  /\ run_btn sample_window = true
  /\ image_info_label sample_window = InfoFile "a.png" 200
  /\ status_label sample_window = StLoadedOne.
Proof. repeat split. Qed.

(** Two images dropped, one click: one worker, for the first image. *)
Example sample_click :
  map job_image_path
    (worker (snd (fst (sample_handle_all
                         [FilesDropped ["a.png"; "b.png"]; RunClicked]
                         new_window sample_env sample_state))))
  = ["a.png"].
Proof. reflexivity. Qed.

Lemma loading_reenables_run_witness :
  run_btn
    (snd (fst (handle (fun _ => None) sample_st_size last_component
                 (fun text => text) RunClicked sample_window sample_env
                 sample_state))) = false
  /\ run_btn
       (snd (fst (sample_handle_all [RunClicked; FilesDropped ["b.png"]]
                    sample_window sample_env sample_state))) = true
  /\ exists w',
       sample_handle_all [RunClicked; FilesDropped ["b.png"]; RunClicked]
         sample_window sample_env sample_state
         = ((Return tt, w'), sample_state)
       /\ worker w' =
            job_for sample_window "b.png" :: job_for sample_window "a.png"
              :: worker sample_window
       /\ run_btn w' = false.
Proof.
  apply (loading_reenables_run (fun _ => None) sample_st_size last_component
           (fun text => text) sample_window sample_env sample_state
           "a.png" "b.png" []).
  - reflexivity.
  - reflexivity.
  - discriminate.
  - discriminate.
  - intros _. exists 204800%Z. reflexivity.
Defined.

Lemma vanished_file_aborts_loading_witness :
  exists w',
    on_files_dropped (fun _ => None) sample_st_size last_component
      ["gone.png"] sample_window sample_env sample_state
      = ((Raise (OtherError "FileNotFoundError" "gone.png"), w'), sample_state)
    /\ select_files (fun _ => None) sample_st_size last_component
         ["gone.png"] sample_window sample_env sample_state
         = ((Raise (OtherError "FileNotFoundError" "gone.png"), w'),
            sample_state)
    /\ loaded_images w' = ["gone.png"]
    /\ current_image_path w' = Some "gone.png"
    /\ run_btn w' = run_btn sample_window
    /\ status_label w' = status_label sample_window
    /\ image_info_label w' = image_info_label sample_window.
Proof.
  apply (vanished_file_aborts_loading (fun _ => None) sample_st_size
           last_component sample_window sample_env sample_state "gone.png"
           (OtherError "FileNotFoundError" "gone.png")).
  reflexivity.
Defined.
